(** * Rentmap: the data-cleaning pipeline of [src/data_processor.py]

    A shallow embedding of the [DataProcessor] class and the properties of
    its stages.

    Modelling conventions.
    - A pandas [DataFrame] is the list of its column labels together with
      the list of its rows, in order.  A row carries its index label (the
      stages never call [reset_index]) and one optional cell per column of
      the listing schema; [None] is pandas' missing marker (NaN / None).
    - Numbers are exact rationals ([Q]) where pandas holds float64; the two
      infinities that float division produces are explicit ([xnum]).
      Signed zeros are not distinguished.
    - The text of a frame is ASCII text, held as a [string], and its text
      columns hold [str] objects or missing cells (dtype object).  The
      character classes follow Python on the ASCII range ([str.isspace],
      [str.title]).  Python's [str] in general, a list of code points whose
      classes and case mappings come from the Unicode database, is the
      subject of [Unicode]; a statement that depends on the case mapping
      carries the hypothesis that the text is ASCII, where the two
      agree.
    - [bhk] is an integer count, as in the listing schema.
    - A Python exception is the [Raise] branch of [result].
    - [self.df] is the state of the processor: a method is a function from
      the frame before the call to the frame after it.  The in-place
      [fillna] on a selected column writes through to the frame, as pandas
      does without copy-on-write.
    - [pd.read_csv] and the draws of [np.random] are arguments of the
      model. *)

From Stdlib Require Import List String Ascii Bool Arith ZArith QArith Qround.
From Stdlib Require Import Lia Lqa Permutation Sorted DecimalString.
Import ListNotations.

Set Implicit Arguments.
Close Scope Q_scope.
Local Open Scope string_scope.
Local Open Scope Z_scope.
Local Open Scope nat_scope.

(** ** Exceptions and the result type *)

Inductive exn : Type :=
| KeyError (key : string)      (* a column label, or "0" for [mode()[0]] *)
| ValueError (msg : string)
| ReadError (path : string)    (* whatever [pd.read_csv] raises *)
| AttributeError (msg : string).

Inductive result (A : Type) : Type :=
| Ok (a : A)
| Raise (e : exn).

Arguments Ok {A} a.
Arguments Raise {A} e.

Definition bind {A B : Type} (m : result A) (k : A -> result B) : result B :=
  match m with
  | Ok a => k a
  | Raise e => Raise e
  end.

Declare Scope result_scope.
Delimit Scope result_scope with result.
Notation "x <- m ;; k" := (bind m (fun x => k))
  (at level 61, m at next level, right associativity) : result_scope.

(** ** Text: [str.strip], [re.sub(r'\s+', ' ')], [str.title] *)

Module Text.

(** [str.isspace] on ASCII: TAB LF VT FF CR, FS GS RS US, and SPACE. *)
Definition is_space (c : ascii) : bool :=
  let n := nat_of_ascii c in
  ((9 <=? n) && (n <=? 13)) || ((28 <=? n) && (n <=? 32)).

Definition is_upper (c : ascii) : bool :=
  let n := nat_of_ascii c in (65 <=? n) && (n <=? 90).

Definition is_lower (c : ascii) : bool :=
  let n := nat_of_ascii c in (97 <=? n) && (n <=? 122).

Definition is_cased (c : ascii) : bool := is_upper c || is_lower c.

Definition to_upper (c : ascii) : ascii :=
  if is_lower c then ascii_of_nat (nat_of_ascii c - 32) else c.

Definition to_lower (c : ascii) : ascii :=
  if is_upper c then ascii_of_nat (nat_of_ascii c + 32) else c.

Fixpoint lstrip (s : string) : string :=
  match s with
  | EmptyString => EmptyString
  | String c s' => if is_space c then lstrip s' else s
  end.

Fixpoint rstrip (s : string) : string :=
  match s with
  | EmptyString => EmptyString
  | String c s' =>
      match rstrip s' with
      | EmptyString => if is_space c then EmptyString else String c EmptyString
      | r => String c r
      end
  end.

(** [s.strip()] *)
Definition strip (s : string) : string := rstrip (lstrip s).

(** [re.sub(r'\s+', ' ', s)]: every maximal run of blanks becomes one
    space.  [in_run] tells that the previous character was a blank. *)
Fixpoint collapse_from (in_run : bool) (s : string) : string :=
  match s with
  | EmptyString => EmptyString
  | String c s' =>
      if is_space c
      then if in_run then collapse_from true s'
           else String " "%char (collapse_from true s')
      else String c (collapse_from false s')
  end.

Definition collapse (s : string) : string := collapse_from false s.

(** [s.title()]: a cased character is upper-cased when the previous
    character is not cased, and lower-cased otherwise. *)
Fixpoint title_from (prev_cased : bool) (s : string) : string :=
  match s with
  | EmptyString => EmptyString
  | String c s' =>
      String (if prev_cased then to_lower c else to_upper c)
             (title_from (is_cased c) s')
  end.

Definition title (s : string) : string := title_from false s.

End Text.

(** ** Numbers: float division, rounding, order statistics *)

Module Num.

(** A float that is not NaN. *)
Inductive xnum : Type :=
| Fin (q : Q)
| PInf
| NInf.

(** [p / a] on two float cells; [None] is NaN. *)
Definition fdiv (p a : option Q) : option xnum :=
  match p, a with
  | Some p, Some a =>
      if Qeq_bool a 0
      then match (p ?= 0)%Q with
           | Eq => None
           | Gt => Some PInf
           | Lt => Some NInf
           end
      else Some (Fin (p / a)%Q)
  | _, _ => None
  end.

(** [np.rint]: to the nearest integer, ties to the even one. *)
Definition rint (y : Q) : Z :=
  let f := Qfloor y in
  match ((y - inject_Z f) ?= 1 # 2)%Q with
  | Lt => f
  | Gt => (f + 1)%Z
  | Eq => if Z.even f then f else (f + 1)%Z
  end.

(** [np.round(x, 2)]: scale by 100, [rint], scale back. *)
Definition round2 (x : Q) : Q := (inject_Z (rint (x * 100)) / 100)%Q.

Definition xround2 (x : xnum) : xnum :=
  match x with
  | Fin q => Fin (round2 q)
  | PInf => PInf
  | NInf => NInf
  end.

Section Sort.
Variable A : Type.
Variable leb : A -> A -> bool.

Fixpoint insert_sorted (x : A) (l : list A) : list A :=
  match l with
  | [] => [x]
  | y :: l' => if leb x y then x :: l else y :: insert_sorted x l'
  end.

Fixpoint sort (l : list A) : list A :=
  match l with
  | [] => []
  | x :: l' => insert_sorted x (sort l')
  end.
End Sort.

(** The present cells of a column ([skipna=True], [dropna=True]). *)
Fixpoint present {A : Type} (l : list (option A)) : list A :=
  match l with
  | [] => []
  | Some x :: l' => x :: present l'
  | None :: l' => present l'
  end.

(** Linear interpolation between the two order statistics that
    surround the position [(n - 1) * q]. *)
Definition quantile_sorted (s : list Q) (q : Q) : option Q :=
  match s with
  | [] => None
  | _ =>
      let n := List.length s in
      let h := (inject_Z (Z.of_nat (n - 1)) * q)%Q in
      let lo := Z.to_nat (Qfloor h) in
      let hi := Nat.min (lo + 1) (n - 1) in
      let gamma := (h - inject_Z (Qfloor h))%Q in
      let a := nth lo s 0%Q in
      let b := nth hi s 0%Q in
      Some (a + (b - a) * gamma)%Q
  end.

(** [Series.quantile(q)]: NaN on a column with no present cell. *)
Definition quantile (col : list (option Q)) (q : Q) : option Q :=
  quantile_sorted (sort Qle_bool (present col)) q.

(** [Series.median()]: the middle value, or the mean of the two middle
    values; NaN on a column with no present cell. *)
Definition median (col : list (option Q)) : option Q :=
  let s := sort Qle_bool (present col) in
  let n := List.length s in
  match s with
  | [] => None
  | _ =>
      if Nat.even n
      then Some ((nth (n / 2 - 1) s 0%Q + nth (n / 2) s 0%Q) / 2)%Q
      else Some (nth (n / 2) s 0%Q)
  end.

Definition count (x : Z) (l : list Z) : nat := count_occ Z.eq_dec l x.

Definition max_count (l : list Z) : nat :=
  fold_right Nat.max 0 (map (fun x => count x l) l).

(** [Series.mode()]: the most frequent present values, ascending. *)
Definition mode (col : list (option Z)) : list Z :=
  let l := present col in
  sort Z.leb (nodup Z.eq_dec (filter (fun x => count x l =? max_count l) l)).

End Num.

Export Num.

(** ** The data model *)

Record Listing : Type := mkListing {
  idx : nat;                        (* index label *)
  title : option string;
  location : option string;
  price : option Q;
  bhk : option Z;
  area_sqft : option Q;
  furnishing : option string;
  price_per_sqft : option xnum
}.

Record DataFrame : Type := mkDataFrame {
  columns : list string;
  rows : list Listing
}.

(** ['c' in df.columns] *)
Definition has_column (c : string) (df : DataFrame) : bool :=
  existsb (String.eqb c) (columns df).

(** [df[c] = ...] appends the label when the column is new. *)
Definition add_column (c : string) (cols : list string) : list string :=
  if existsb (String.eqb c) cols then cols else (cols ++ [c])%list.

Definition set_rows (df : DataFrame) (rs : list Listing) : DataFrame :=
  {| columns := columns df; rows := rs |}.

Definition set_title (v : option string) (r : Listing) : Listing :=
  mkListing (idx r) v (location r) (price r) (bhk r) (area_sqft r)
            (furnishing r) (price_per_sqft r).

Definition set_location (v : option string) (r : Listing) : Listing :=
  mkListing (idx r) (title r) v (price r) (bhk r) (area_sqft r)
            (furnishing r) (price_per_sqft r).

Definition set_bhk (v : option Z) (r : Listing) : Listing :=
  mkListing (idx r) (title r) (location r) (price r) v (area_sqft r)
            (furnishing r) (price_per_sqft r).

Definition set_area_sqft (v : option Q) (r : Listing) : Listing :=
  mkListing (idx r) (title r) (location r) (price r) (bhk r) v
            (furnishing r) (price_per_sqft r).

Definition set_furnishing (v : option string) (r : Listing) : Listing :=
  mkListing (idx r) (title r) (location r) (price r) (bhk r) (area_sqft r)
            v (price_per_sqft r).

Definition set_price_per_sqft (v : option xnum) (r : Listing) : Listing :=
  mkListing (idx r) (title r) (location r) (price r) (bhk r) (area_sqft r)
            (furnishing r) v.

(** The first label of [subset] that is not a column: pandas raises
    [KeyError] for it. *)
Fixpoint missing_label (subset : list string) (df : DataFrame) : option string :=
  match subset with
  | [] => None
  | c :: subset' => if has_column c df then missing_label subset' df else Some c
  end.

Definition is_some {A : Type} (o : option A) : bool :=
  match o with Some _ => true | None => false end.

(** ** The stages of [DataProcessor]

    Each method reads and replaces [self.df]; here it is a function from
    the frame before to the frame after, or to the exception raised. *)

Local Open Scope result_scope.

(** *** [load_data] *)

Section Loader.

(** [pd.read_csv]: the frame parsed from the file at a path, or the
    exception raised when the file cannot be read or parsed. *)
Variable read_csv : string -> result DataFrame.

(** Python truth value of an optional path: [None] and the empty string
    are false. *)
Definition truthy (p : option string) : bool :=
  match p with
  | Some s => negb (String.eqb s "")
  | None => false
  end.

Definition path_of (p : option string) : string :=
  match p with Some s => s | None => "" end.

Definition load_data (input_file filepath : option string) : result DataFrame :=
  if truthy filepath then read_csv (path_of filepath)
  else if truthy input_file then read_csv (path_of input_file)
  else Raise (ValueError "No input file specified").

End Loader.

(** *** [remove_duplicates] *)

Definition key : Type := (option string * option string)%type.

Definition key_of (r : Listing) : key := (title r, location r).

Definition cell_eqb (a b : option string) : bool :=
  match a, b with
  | Some x, Some y => String.eqb x y
  | None, None => true      (* missing cells count as equal *)
  | _, _ => false
  end.

Definition key_eqb (k1 k2 : key) : bool :=
  cell_eqb (fst k1) (fst k2) && cell_eqb (snd k1) (snd k2).

(** [drop_duplicates(subset=['title', 'location'], keep='first')]:
    [seen] holds the keys of the rows kept so far. *)
Fixpoint drop_duplicates_from (seen : list key) (rs : list Listing) : list Listing :=
  match rs with
  | [] => []
  | r :: rs' =>
      if existsb (key_eqb (key_of r)) seen
      then drop_duplicates_from seen rs'
      else r :: drop_duplicates_from (key_of r :: seen) rs'
  end.

(** [df.empty]: no row or no column. *)
Definition empty (df : DataFrame) : bool :=
  match rows df, columns df with
  | [], _ => true
  | _, [] => true
  | _, _ => false
  end.

(** pandas returns an empty frame as it is, before it looks at [subset]. *)
Definition remove_duplicates (df : DataFrame) : result DataFrame :=
  if empty df then Ok df
  else match missing_label ["title"; "location"] df with
       | Some c => Raise (KeyError c)
       | None => Ok (set_rows df (drop_duplicates_from [] (rows df)))
       end.

(** *** [handle_missing_values] *)

Definition critical_fields : list string := ["title"; "price"; "location"].

Definition has_critical (r : Listing) : bool :=
  is_some (title r) && is_some (price r) && is_some (location r).

(** [dropna(subset=critical_fields)] *)
Definition dropna (rs : list Listing) : list Listing := filter has_critical rs.

(** [fillna(v)] on one cell; filling with NaN changes nothing. *)
Definition fillna {A : Type} (v : option A) (cell : option A) : option A :=
  match cell with
  | Some _ => cell
  | None => v
  end.

Definition fill_bhk (m : Z) (rs : list Listing) : list Listing :=
  map (fun r => set_bhk (fillna (Some m) (bhk r)) r) rs.

Definition fill_area_sqft (med : option Q) (rs : list Listing) : list Listing :=
  map (fun r => set_area_sqft (fillna med (area_sqft r)) r) rs.

(** [self.df['bhk'].fillna(self.df['bhk'].mode()[0], inplace=True)]:
    [mode()[0]] raises on an empty mode. *)
Definition impute_bhk (df : DataFrame) : result DataFrame :=
  if has_column "bhk" df
  then match mode (map bhk (rows df)) with
       | [] => Raise (KeyError "0")
       | m :: _ => Ok (set_rows df (fill_bhk m (rows df)))
       end
  else Ok df.

(** [self.df['area_sqft'].fillna(self.df['area_sqft'].median(), inplace=True)] *)
Definition impute_area_sqft (df : DataFrame) : DataFrame :=
  if has_column "area_sqft" df
  then set_rows df (fill_area_sqft (median (map area_sqft (rows df))) (rows df))
  else df.

Definition handle_missing_values (df : DataFrame) : result DataFrame :=
  match missing_label critical_fields df with
  | Some c => Raise (KeyError c)
  | None =>
      df1 <- impute_bhk (set_rows df (dropna (rows df))) ;;
      Ok (impute_area_sqft df1)
  end.

(** *** [clean_price] *)

Definition nan_map2 (f : Q -> Q -> Q) (a b : option Q) : option Q :=
  match a, b with
  | Some x, Some y => Some (f x y)
  | _, _ => None
  end.

Definition lower_bound (col : list (option Q)) : option Q :=
  let Q1 := quantile col (1 # 4) in
  let Q3 := quantile col (3 # 4) in
  let IQR := nan_map2 Qminus Q3 Q1 in
  nan_map2 Qminus Q1 (nan_map2 Qmult (Some 3%Q) IQR).

Definition upper_bound (col : list (option Q)) : option Q :=
  let Q1 := quantile col (1 # 4) in
  let Q3 := quantile col (3 # 4) in
  let IQR := nan_map2 Qminus Q3 Q1 in
  nan_map2 Qplus Q3 (nan_map2 Qmult (Some 3%Q) IQR).

(** [(price >= lower) & (price <= upper)]; a comparison with NaN is false. *)
Definition in_bounds (lower upper p : option Q) : bool :=
  match p, lower, upper with
  | Some p, Some l, Some u => Qle_bool l p && Qle_bool p u
  | _, _, _ => false
  end.

Definition clean_price (df : DataFrame) : result DataFrame :=
  if negb (has_column "price" df) then Ok df
  else
    let col := map price (rows df) in
    Ok (set_rows df
          (filter (fun r => in_bounds (lower_bound col) (upper_bound col) (price r))
                  (rows df))).

(** *** [clean_text_fields] *)

Definition map_title (f : string -> string) (rs : list Listing) : list Listing :=
  map (fun r => set_title (option_map f (title r)) r) rs.

Definition map_location (f : string -> string) (rs : list Listing) : list Listing :=
  map (fun r => set_location (option_map f (location r)) r) rs.

Definition clean_title (df : DataFrame) : DataFrame :=
  if has_column "title" df
  then set_rows df (map_title Text.collapse (map_title Text.strip (rows df)))
  else df.

Definition clean_location (df : DataFrame) : DataFrame :=
  if has_column "location" df
  then set_rows df
         (map_location Text.title
            (map_location Text.collapse (map_location Text.strip (rows df))))
  else df.

Definition clean_text_fields (df : DataFrame) : result DataFrame :=
  Ok (clean_location (clean_title df)).

(** *** [calculate_derived_metrics] *)

Definition per_sqft (r : Listing) : option xnum :=
  option_map xround2 (fdiv (price r) (area_sqft r)).

Definition calculate_derived_metrics (df : DataFrame) : result DataFrame :=
  if has_column "price" df && has_column "area_sqft" df
  then Ok {| columns := add_column "price_per_sqft" (columns df);
             rows := map (fun r => set_price_per_sqft (per_sqft r) r) (rows df) |}
  else Ok df.

(** *** [add_furnishing_status] *)

Definition furnishing_options : list string :=
  ["Unfurnished"; "Semi-Furnished"; "Fully Furnished"].

(** [np.random.choice(options, size)]: [rng i] is the [i]-th raw draw of
    the global generator, reduced to a position in [options]. *)
Definition random_choice (rng : nat -> nat) (options : list string) (size : nat)
  : list string :=
  map (fun i => nth (rng i mod List.length options) options "") (seq 0 size).

(** Assigning an array to a column goes by position. *)
Definition assign_furnishing (vals : list string) (rs : list Listing) : list Listing :=
  map (fun rv => set_furnishing (Some (snd rv)) (fst rv)) (combine rs vals).

Definition add_furnishing_status (rng : nat -> nat) (df : DataFrame) : result DataFrame :=
  if negb (has_column "furnishing" df)
  then Ok {| columns := add_column "furnishing" (columns df);
             rows := assign_furnishing
                       (random_choice rng furnishing_options (List.length (rows df)))
                       (rows df) |}
  else Ok df.

(** *** [validate_data] *)

Definition Qlt_bool (x y : Q) : bool := negb (Qle_bool y x).

(** [(df[col] ... ).any()]; a comparison with NaN is false. *)
Definition any_cell (cell : Listing -> option Q) (p : Q -> bool) (df : DataFrame) : bool :=
  existsb (fun r => match cell r with Some x => p x | None => false end) (rows df).

Definition issue_if (b : bool) (msg : string) : list string :=
  if b then [msg] else [].

(** The frame is returned unchanged, with the warnings printed. *)
Definition validate_data (df : DataFrame) : result (DataFrame * list string) :=
  if negb (has_column "price" df) then Raise (KeyError "price")
  else
    let issues :=
     (issue_if (any_cell price (fun x => Qlt_bool x 0) df) "Negative prices found"
      ++ issue_if (has_column "area_sqft" df
                   && any_cell area_sqft (fun x => Qlt_bool x 0) df)
                  "Negative area values found"
      ++ issue_if (any_cell price (fun x => Qlt_bool x 1000) df)
                  "Suspiciously low prices found"
      ++ issue_if (any_cell price (fun x => Qlt_bool 10000000 x) df)
                  "Suspiciously high prices found")%list in
    Ok (df, issues).

(** *** [process_all] *)

Definition process_all (rng : nat -> nat) (df : DataFrame)
  : result (DataFrame * list string) :=
  df1 <- remove_duplicates df ;;
  df2 <- handle_missing_values df1 ;;
  df3 <- clean_price df2 ;;
  df4 <- clean_text_fields df3 ;;
  df5 <- calculate_derived_metrics df4 ;;
  df6 <- add_furnishing_status rng df5 ;;
  validate_data df6.

(** ** Text beyond ASCII

    [clean_text_fields] over Python's [str]: a text is the list of its
    code points, and [str.strip], [re.sub(r'\s+', ' ')] and [str.title]
    read the classes and the case mappings of the code points from the
    Unicode database of the interpreter, which is an argument here.  A
    column is absent, or holds text and missing cells, or is of a kind on
    which the [.str] accessor of pandas raises (a column of numbers, or
    one that [pd.read_csv] found empty in every row). *)

Module Unicode.

Local Open Scope N_scope.

Definition text : Type := list N.

Record ucd : Type := mkUcd {
  isspace : N -> bool;               (* [str.isspace], the class of [\s] *)
  is_cased : N -> bool;
  is_case_ignorable : N -> bool;
  to_lower_full : N -> list N;
  to_title_full : N -> list N
}.

Section Str.

Variable db : ucd.

Fixpoint lstrip (s : text) : text :=
  match s with
  | [] => []
  | c :: s' => if isspace db c then lstrip s' else s
  end.

Fixpoint rstrip (s : text) : text :=
  match s with
  | [] => []
  | c :: s' =>
      match rstrip s' with
      | [] => if isspace db c then [] else [c]
      | r => c :: r
      end
  end.

(** [s.strip()] *)
Definition strip (s : text) : text := rstrip (lstrip s).

(** [re.sub(r'\s+', ' ', s)] *)
Fixpoint collapse_from (in_run : bool) (s : text) : text :=
  match s with
  | [] => []
  | c :: s' =>
      if isspace db c
      then if in_run then collapse_from true s' else 32 :: collapse_from true s'
      else c :: collapse_from false s'
  end.

Definition collapse (s : text) : text := collapse_from false s.

(** The first code point of [s] that is not case-ignorable. *)
Fixpoint first_significant (s : text) : option N :=
  match s with
  | [] => None
  | c :: s' => if is_case_ignorable db c then first_significant s' else Some c
  end.

(** A capital sigma is lower-cased to the final sigma when a cased letter
    stands before it and none after it, case-ignorable code points apart.
    [before] is the text before the sigma, the nearest code point first. *)
Definition final_sigma (before after : text) : bool :=
  match first_significant before with
  | Some c =>
      is_cased db c
      && match first_significant after with
         | Some c' => negb (is_cased db c')
         | None => true
         end
  | None => false
  end.

Definition lower_at (before : text) (c : N) (after : text) : list N :=
  if c =? 931 then [if final_sigma before after then 962 else 963]
  else to_lower_full db c.

(** [s.title()]: a code point is lower-cased when the code point before it
    is cased, and title-cased otherwise; either mapping may give several
    code points. *)
Fixpoint title_from (previous_is_cased : bool) (before s : text) : text :=
  match s with
  | [] => []
  | c :: s' =>
      ((if previous_is_cased then lower_at before c s' else to_title_full db c)
       ++ title_from (is_cased db c) (c :: before) s')%list
  end.

Definition title (s : text) : text := title_from false [] s.

Inductive column : Type :=
| Absent
| NotText
| Texts (cells : list (option text)).

(** [self.df[col].str.f()] *)
Definition str_method (f : text -> text) (c : column) : result column :=
  match c with
  | Texts cells => Ok (Texts (map (option_map f) cells))
  | _ => Raise (AttributeError "Can only use .str accessor with string values!")
  end.

(** One pass of the loop of [clean_text_fields]. *)
Definition clean_column (is_location : bool) (c : column) : result column :=
  match c with
  | Absent => Ok Absent
  | _ =>
      c1 <- str_method strip c ;;
      c2 <- str_method collapse c1 ;;
      if is_location then str_method title c2 else Ok c2
  end.

Record TextColumns : Type := mkTextColumns {
  title_column : column;
  location_column : column
}.

Definition clean_text_fields (cols : TextColumns) : result TextColumns :=
  t <- clean_column false (title_column cols) ;;
  l <- clean_column true (location_column cols) ;;
  Ok (mkTextColumns t l).

End Str.

(** The code points of an ASCII text, and back. *)
Fixpoint codes (s : string) : text :=
  match s with
  | EmptyString => []
  | String c s' => N_of_ascii c :: codes s'
  end.

Fixpoint chars (t : text) : string :=
  match t with
  | [] => EmptyString
  | n :: t' => String (ascii_of_N n) (chars t')
  end.

Definition ascii_code (n : N) : bool := n <? 128.

Definition ascii_column (c : column) : bool :=
  match c with
  | Texts cells =>
      forallb (fun cell => match cell with
                           | Some t => forallb ascii_code t
                           | None => true
                           end) cells
  | _ => true
  end.

Definition ascii_columns (cols : TextColumns) : bool :=
  ascii_column (title_column cols) && ascii_column (location_column cols).

(** The database gives the ASCII characters their classes and their case
    mappings. *)
Definition ascii_entries (db : ucd) : Prop :=
  forall c : ascii,
    (N_of_ascii c <? 128) = true ->
    isspace db (N_of_ascii c) = Text.is_space c
    /\ is_cased db (N_of_ascii c) = Text.is_cased c
    /\ to_lower_full db (N_of_ascii c) = [N_of_ascii (Text.to_lower c)]
    /\ to_title_full db (N_of_ascii c) = [N_of_ascii (Text.to_upper c)].

(** The entries of the Unicode database for the ASCII range, for the
    blank characters, for U+0130 (capital I with dot above) and for U+0307
    (combining dot above).  No other code point occurs in the texts below
    or in what is computed from them. *)
Definition ucd_excerpt : ucd :=
  mkUcd
    (fun n => ((9 <=? n) && (n <=? 13)) || ((28 <=? n) && (n <=? 32))
              || (n =? 133) || (n =? 160) || (n =? 5760)
              || ((8192 <=? n) && (n <=? 8202))
              || (n =? 8232) || (n =? 8233) || (n =? 8239) || (n =? 8287)
              || (n =? 12288))
    (fun n => ((65 <=? n) && (n <=? 90)) || ((97 <=? n) && (n <=? 122)) || (n =? 304))
    (fun n => (n =? 39) || (n =? 46) || (n =? 58) || (n =? 94) || (n =? 96) || (n =? 775))
    (fun n => if (65 <=? n) && (n <=? 90) then [n + 32]
              else if n =? 304 then [105; 775]
              else [n])
    (fun n => if (97 <=? n) && (n <=? 122) then [n - 32] else [n]).

End Unicode.

(** ** Auxiliary notions used in the statements *)

(** Where a scan of a normalised text stands: nothing read yet, just past
    a blank, or just past a character that is not blank. *)
Inductive scan_pos : Type := AtStart | AfterBlank | AfterChar.

Definition in_run_of (p : scan_pos) : bool :=
  match p with AfterBlank => true | _ => false end.

(** A text in normal form: no blank at either end, and every blank is a
    single space between two other characters. *)
Fixpoint tidy (p : scan_pos) (s : string) : bool :=
  match s with
  | EmptyString => negb (in_run_of p)
  | String c s' =>
      if Text.is_space c
      then match p with
           | AfterChar => Ascii.eqb c " "%char && tidy AfterBlank s'
           | _ => false
           end
      else tidy AfterChar s'
  end.

Definition starts_blank (s : string) : bool :=
  match s with
  | EmptyString => false
  | String c _ => Text.is_space c
  end.

(** The two normalisers of [clean_text_fields], on one cell. *)
Definition clean (s : string) : string := Text.collapse (Text.strip s).
Definition clean_titled (s : string) : string :=
  Text.title (Text.collapse (Text.strip s)).

(** [subseq l1 l2]: [l1] is [l2] with some elements left out, the others
    in the order they have in [l2]. *)
Inductive subseq {A : Type} : list A -> list A -> Prop :=
| subseq_nil : subseq [] []
| subseq_skip x l1 l2 : subseq l1 l2 -> subseq l1 (x :: l2)
| subseq_keep x l1 l2 : subseq l1 l2 -> subseq (x :: l1) (x :: l2).

(** The index labels of a frame, in row order. *)
Definition labels (df : DataFrame) : list nat := map idx (rows df).

(** The stages that [process_all] runs, in its order. *)
Inductive stage : Type :=
| RemoveDuplicates
| HandleMissingValues
| CleanPrice
| CleanTextFields
| CalculateDerivedMetrics
| AddFurnishingStatus
| ValidateData.

Definition run_stage (rng : nat -> nat) (s : stage) (df : DataFrame)
  : result DataFrame :=
  match s with
  | RemoveDuplicates => remove_duplicates df
  | HandleMissingValues => handle_missing_values df
  | CleanPrice => clean_price df
  | CleanTextFields => clean_text_fields df
  | CalculateDerivedMetrics => calculate_derived_metrics df
  | AddFurnishingStatus => add_furnishing_status rng df
  | ValidateData => out <- validate_data df ;; Ok (fst out)
  end.

(** A furnishing cell that holds one of the three options. *)
Definition furnished (r : Listing) : Prop :=
  exists v, furnishing r = Some v /\ In v furnishing_options.

(** A record with the three critical cells present. *)
Definition complete (r : Listing) : Prop :=
  title r <> None /\ price r <> None /\ location r <> None.

(** What the impute phase makes of a record, the statistics being taken
    over [kept]: the mode of [bhk] (its smallest value when several tie)
    and the median of [area_sqft]. *)
Definition imputed (df : DataFrame) (kept : list Listing) (r : Listing) : Listing :=
  set_area_sqft
    (if has_column "area_sqft" df
     then fillna (median (map area_sqft kept)) (area_sqft r)
     else area_sqft r)
    (set_bhk
       (if has_column "bhk" df
        then fillna (hd_error (mode (map bhk kept))) (bhk r)
        else bhk r)
       r).

(** The key a record has after [clean_text_fields]. *)
Definition norm_key (k : key) : key :=
  (option_map clean (fst k), option_map clean_titled (snd k)).

(** The index label of a record with its furnishing cell. *)
Definition furnishing_cell (r : Listing) : nat * option string :=
  (idx r, furnishing r).

(** A reading [f] of a record that does not depend on a given cell. *)
Section Ignores.

Context {X : Type} (f : Listing -> X).

Definition ignores_bhk : Prop := forall v r, f (set_bhk v r) = f r.
Definition ignores_area_sqft : Prop := forall v r, f (set_area_sqft v r) = f r.
Definition ignores_title : Prop := forall v r, f (set_title v r) = f r.
Definition ignores_location : Prop := forall v r, f (set_location v r) = f r.
Definition ignores_price_per_sqft : Prop :=
  forall v r, f (set_price_per_sqft v r) = f r.
Definition ignores_furnishing : Prop := forall v r, f (set_furnishing v r) = f r.

End Ignores.

(** ** Concrete frames *)

(** A record as [pd.read_csv] delivers it: text and price present, the
    derived cells not yet there. *)
Definition listing (i : nat) (t l : string) (p : Z) (b : option Z) (a : option Q)
  : Listing :=
  mkListing i (Some t) (Some l) (Some (inject_Z p)) b a None None.

(** The sample frame of the module's [__main__] block. *)
Definition sample_data : DataFrame :=
  {| columns := ["title"; "price"; "location"; "bhk"; "area_sqft"];
     rows :=
       [ listing 0 "2 BHK Apartment in Vasant Kunj" "Vasant Kunj" 35000 (Some 2%Z) (Some 1200%Q);
         listing 1 "3 BHK Villa in Defence Colony" "Defence Colony" 75000 (Some 3%Z) (Some 2500%Q);
         listing 2 "1 BHK Flat in Karol Bagh" "Karol Bagh" 18000 (Some 1%Z) (Some 600%Q);
         listing 3 "2 BHK Apartment in Dwarka" "Dwarka" 28000 (Some 2%Z) (Some 1100%Q);
         listing 4 "3 BHK Penthouse in Greater Kailash" "Greater Kailash" 95000 (Some 3%Z) (Some 2800%Q);
         listing 5 "1 BHK Studio in Lajpat Nagar" "Lajpat Nagar" 15000 (Some 1%Z) (Some 500%Q);
         listing 6 "2 BHK Apartment in Rohini" "Rohini" 25000 (Some 2%Z) (Some 1000%Q);
         listing 7 "4 BHK Villa in Chanakyapuri" "Chanakyapuri" 150000 (Some 4%Z) (Some 3500%Q) ] |}.

(** The sample frame with two more records: one priced far above the
    rest, one with neither price nor [bhk] nor area. *)
Definition sample_with_outlier : DataFrame :=
  {| columns := columns sample_data;
     rows := (rows sample_data
              ++ [ listing 8 "5 BHK Palace in Lutyens" "Lutyens" 5000000 None (Some 9000%Q);
                   mkListing 9 (Some "Plot in Narela") (Some "Narela") None None
                             (Some 100000%Q) None None;
                   listing 10 "2 BHK Flat in Saket" "Saket" 30000 None None ])%list |}.

(** Two records whose keys differ only in blanks and letter case. *)
Definition near_duplicates : DataFrame :=
  {| columns := ["title"; "price"; "location"];
     rows :=
       [ listing 0 "2 BHK Apartment in Dwarka" "Dwarka" 28000 None None;
         listing 1 " 2 BHK  Apartment in Dwarka" "dwarka " 28000 None None ] |}.

(** One record with an area of zero. *)
Definition zero_area : DataFrame :=
  {| columns := ["title"; "price"; "location"; "area_sqft"];
     rows := [ listing 0 "Plot in Narela" "Narela" 35000 None (Some 0%Q) ] |}.

(** One record whose price is missing. *)
Definition unpriced : DataFrame :=
  {| columns := ["title"; "price"; "location"];
     rows := [ mkListing 0 (Some "2 BHK Apartment in Rohini") (Some "Rohini")
                         None None None None None ] |}.

(** A frame that has the [furnishing] column, with one cell missing. *)
Definition partly_furnished : DataFrame :=
  {| columns := ["title"; "price"; "location"; "furnishing"];
     rows :=
       [ mkListing 0 (Some "2 BHK Apartment in Rohini") (Some "Rohini")
                   (Some 25000%Q) None None (Some "Semi-Furnished") None;
         mkListing 1 (Some "1 BHK Flat in Karol Bagh") (Some "Karol Bagh")
                   (Some 18000%Q) None None None None ] |}.

(** No record; the critical columns, [bhk] and [area_sqft]. *)
Definition empty_listing_frame : DataFrame :=
  {| columns := ["title"; "price"; "location"; "bhk"; "area_sqft"]; rows := [] |}.

(** A disk whose only file has a [title] and a [bhk] column, and neither
    [price] nor [location]. *)
Definition titles_only : DataFrame :=
  {| columns := ["title"; "bhk"];
     rows := [ mkListing 0 (Some "2 BHK Apartment in Rohini") None None
                         (Some 2%Z) None None None ] |}.

Definition disk_with_titles_only (path : string) : result DataFrame :=
  if String.eqb path "data/raw/raw_rentals.csv" then Ok titles_only
  else Raise (ReadError path).

(** A generator whose every draw is the first option. *)
Definition first_option : nat -> nat := fun _ => 0.

(** The same record twice. *)
Definition twice_listed : DataFrame :=
  {| columns := ["title"; "location"; "price"; "area_sqft"];
     rows := [ listing 0 "A" "X" 35000 None (Some 1200%Q);
               listing 1 "A" "X" 35000 None (Some 1200%Q) ] |}.

(** The price column of the specification's outlier scenario. *)
Definition outlier_scenario : DataFrame :=
  {| columns := ["title"; "price"; "location"];
     rows :=
       map (fun ip => listing (fst ip) "t" "l" (snd ip) None None)
           (combine (seq 0 10)
                    [15000; 18000; 25000; 28000; 35000; 68000; 75000; 95000;
                     150000; 5000000]%Z) |}.

(** One record with a price of 800. *)
Definition low_price_scenario : DataFrame :=
  {| columns := ["title"; "price"; "location"; "area_sqft"];
     rows := [ listing 0 "t" "l" 800 None (Some 500%Q) ] |}.

(** ** Further notions, for the properties beyond the claims *)

(** The first record of [rs] that has the key of [r]. *)
Definition first_with_key (r : Listing) (rs : list Listing) : option Listing :=
  find (fun x => key_eqb (key_of x) (key_of r)) rs.

(** [m] is a present value of the column that no present value outnumbers,
    and the least of the values that occur as often. *)
Definition most_frequent (col : list (option Z)) (m : Z) : Prop :=
  In (Some m) col
  /\ forall x, In (Some x) col ->
       count x (present col) <= count m (present col)
       /\ (count x (present col) = count m (present col) -> (m <= x)%Z).

(** [v] lies between two present values of the column. *)
Definition within_observed (col : list (option Q)) (v : Q) : Prop :=
  exists a b, In (Some a) col /\ In (Some b) col /\ (a <= v <= b)%Q.

(** The warnings of [validate_data], in the order of its checks. *)
Definition validation_messages : list string :=
  [ "Negative prices found"; "Negative area values found";
    "Suspiciously low prices found"; "Suspiciously high prices found" ].

(** Some record has a present cell for which [P] holds. *)
Definition some_cell (cell : Listing -> option Q) (P : Q -> Prop) (df : DataFrame) : Prop :=
  exists r x, In r (rows df) /\ cell r = Some x /\ P x.

(** What [clean_text_fields] makes of a record of the frame [df]. *)
Definition text_cleaned (df : DataFrame) (r : Listing) : Listing :=
  set_location
    (if has_column "location" df then option_map clean_titled (location r)
     else location r)
    (set_title
       (if has_column "title" df then option_map clean (title r) else title r)
       r).

(** A text in normal form that title-casing leaves as it is. *)
Definition normal_text (s : string) : Prop := tidy AtStart s = true.

Definition normal_location (s : string) : Prop :=
  tidy AtStart s = true /\ Text.title s = s.

(** The cells of a record that identify it and price it. *)
Definition priced_key (r : Listing) : key * option Q := (key_of r, price r).

(** The cells that [price_per_sqft] is computed from, with its value. *)
Definition metric_cells (r : Listing) : option Q * option Q * option xnum :=
  (price r, area_sqft r, price_per_sqft r).

(** A text without its blanks, and a text in lower case. *)
Fixpoint squeeze (s : string) : string :=
  match s with
  | EmptyString => EmptyString
  | String c s' => if Text.is_space c then squeeze s' else String c (squeeze s')
  end.

Fixpoint lower (s : string) : string :=
  match s with
  | EmptyString => EmptyString
  | String c s' => String (Text.to_lower c) (lower s')
  end.

(** Two records that differ at most in the blanks of the title and in the
    blanks and the letter case of the location. *)
Definition same_but_spacing_and_case (r r' : Listing) : Prop :=
  idx r' = idx r
  /\ price r' = price r
  /\ bhk r' = bhk r
  /\ area_sqft r' = area_sqft r
  /\ furnishing r' = furnishing r
  /\ price_per_sqft r' = price_per_sqft r
  /\ option_map squeeze (title r') = option_map squeeze (title r)
  /\ option_map (fun s => squeeze (lower s)) (location r')
     = option_map (fun s => squeeze (lower s)) (location r).

(** ASCII text. *)
Definition is_ascii (c : ascii) : bool := nat_of_ascii c <? 128.

Fixpoint ascii_text (s : string) : bool :=
  match s with
  | EmptyString => true
  | String c s' => is_ascii c && ascii_text s'
  end.

Definition ascii_cell (c : option string) : bool :=
  match c with
  | Some s => ascii_text s
  | None => true
  end.

(** A frame whose titles and locations are ASCII text. *)
Definition ascii_frame (df : DataFrame) : bool :=
  forallb (fun r => ascii_cell (title r) && ascii_cell (location r)) (rows df).

(** The two text columns of a frame, as Python holds them. *)
Definition text_column (present : bool) (cells : list (option string)) : Unicode.column :=
  if present then Unicode.Texts (map (option_map Unicode.codes) cells)
  else Unicode.Absent.

Definition text_columns (df : DataFrame) : Unicode.TextColumns :=
  Unicode.mkTextColumns
    (text_column (has_column "title" df) (map title (rows df)))
    (text_column (has_column "location" df) (map location (rows df))).

(** The text DILLI HAAT with the two capital letters I dotted (U+0130). *)
Definition dilli_haat : Unicode.text := [68; 304; 76; 76; 304; 32; 72; 65; 65; 84]%N.

Definition dotted_location : Unicode.TextColumns :=
  Unicode.mkTextColumns Unicode.Absent (Unicode.Texts [Some dilli_haat]).

(** What [clean_text_fields] makes of it, and what it makes of that: the
    small i keeps the dot as a mark of its own (U+0307), and the letter
    after the mark is capitalised the second time. *)
Definition dilli_haat_once : Unicode.text :=
  [68; 105; 775; 108; 108; 105; 775; 32; 72; 97; 97; 116]%N.

Definition dilli_haat_twice : Unicode.text :=
  [68; 105; 775; 76; 108; 105; 775; 32; 72; 97; 97; 116]%N.

(** How many values of [xs] lie below [x], and how many do not lie above
    it. *)
Definition count_below (x : Q) (xs : list Q) : nat :=
  List.length (filter (fun y => Qlt_bool y x) xs).

Definition count_upto (x : Q) (xs : list Q) : nat :=
  List.length (filter (fun y => Qle_bool y x) xs).

(** [x] is the value that stands at position [k], counted from 0, when
    [xs] is put in ascending order. *)
Definition order_statistic (xs : list Q) (k : nat) (x : Q) : Prop :=
  In x xs /\ count_below x xs <= k /\ k < count_upto x xs.

(** [v] is the median of [xs]: the middle value in ascending order, or the
    mean of the two middle values. *)
Definition is_median (xs : list Q) (v : Q) : Prop :=
  exists lo hi,
    order_statistic xs ((List.length xs - 1) / 2) lo
    /\ order_statistic xs (List.length xs / 2) hi
    /\ (v == (lo + hi) / 2)%Q.

(** The cells of a record that the resolver does not fill. *)
Definition unfilled_cells (r : Listing)
  : nat * option string * option string * option Q * option string * option xnum :=
  (idx r, title r, location r, price r, furnishing r, price_per_sqft r).

(** [r'] has the [bhk] of [r], or the most frequent [bhk] of [kept], the
    least on a tie, where [r] has none. *)
Definition bhk_filled (df : DataFrame) (kept : list Listing) (r r' : Listing) : Prop :=
  if has_column "bhk" df
  then match bhk r with
       | Some b => bhk r' = Some b
       | None => exists m, bhk r' = Some m /\ most_frequent (map bhk kept) m
       end
  else bhk r' = bhk r.

(** [r'] has the area of [r], or the median area of [kept] where [r] has
    none; it has none only when no record of [kept] has one. *)
Definition area_sqft_filled (df : DataFrame) (kept : list Listing) (r r' : Listing) : Prop :=
  if has_column "area_sqft" df
  then match area_sqft r, area_sqft r' with
       | Some a, cell => cell = Some a
       | None, Some v => is_median (present (map area_sqft kept)) v
       | None, None => present (map area_sqft kept) = []
       end
  else area_sqft r' = area_sqft r.

(** Five records: the fourth has no price, the fifth neither [bhk] nor
    area.  With the fourth, 1 and 3 occur twice each and the median area
    is 800; without it, 3 is the mode and 1000 the median. *)
Definition dropped_and_filled : DataFrame :=
  {| columns := ["title"; "price"; "location"; "bhk"; "area_sqft"];
     rows :=
       [ listing 0 "1 BHK Flat in Karol Bagh" "Karol Bagh" 18000 (Some 1%Z) (Some 600%Q);
         listing 1 "3 BHK Villa in Defence Colony" "Defence Colony" 75000
                 (Some 3%Z) (Some 2000%Q);
         listing 2 "3 BHK Penthouse in Saket" "Saket" 95000 (Some 3%Z) (Some 1000%Q);
         mkListing 3 (Some "1 BHK Studio in Narela") (Some "Narela") None
                   (Some 1%Z) (Some 50%Q) None None;
         listing 4 "Flat in Rohini" "Rohini" 25000 None None ] |}.

(** * The scraper of [src/scraper.py]

    The three extractors read a number out of a free text with a regular
    expression.  Each expression is modelled by a matcher written for it;
    the comments say why backtracking cannot find a match that the matcher
    misses.  Text is ASCII as before: [\d] is a decimal digit and [\s] a
    blank of [Text.is_space].  An HTML element is the text of the four
    children that [parse_listing] selects. *)

Module Scraper.

Definition is_digit (c : ascii) : bool :=
  let n := nat_of_ascii c in (48 <=? n) && (n <=? 57).

Definition is_comma (c : ascii) : bool := Ascii.eqb c ","%char.

(** The class [[\d,]]. *)
Definition in_number_class (c : ascii) : bool := is_digit c || is_comma c.

(** [text.replace(',', '')] *)
Fixpoint remove_commas (s : string) : string :=
  match s with
  | EmptyString => EmptyString
  | String c s' => if is_comma c then remove_commas s' else String c (remove_commas s')
  end.

(** [text.upper()] and [text.lower()] *)
Fixpoint upper (s : string) : string :=
  match s with
  | EmptyString => EmptyString
  | String c s' => String (Text.to_upper c) (upper s')
  end.

Fixpoint take_while (p : ascii -> bool) (s : string) : string :=
  match s with
  | EmptyString => EmptyString
  | String c s' => if p c then String c (take_while p s') else EmptyString
  end.

Fixpoint drop_while (p : ascii -> bool) (s : string) : string :=
  match s with
  | EmptyString => EmptyString
  | String c s' => if p c then drop_while p s' else s
  end.

Fixpoint all_chars (p : ascii -> bool) (s : string) : bool :=
  match s with
  | EmptyString => true
  | String c s' => p c && all_chars p s'
  end.

Definition is_empty (s : string) : bool :=
  match s with EmptyString => true | _ => false end.

(** The value of a text of decimal digits, most significant first. *)
Fixpoint digits_value_from (acc : Z) (s : string) : Z :=
  match s with
  | EmptyString => acc
  | String c s' =>
      digits_value_from (10 * acc + Z.of_nat (nat_of_ascii c - 48))%Z s'
  end.

Definition digits_value (s : string) : Z := digits_value_from 0%Z s.

Section Int.

(** [sys.get_int_max_str_digits()]: the longest digit text that [int]
    converts (4300 unless changed); 0 switches the check off. *)
Variable max_str_digits : nat.

(** [int(s)] for a text of the class [[\d,]]: the empty text and a text
    with a comma are not literals. *)
Definition py_int (s : string) : result Z :=
  if is_empty s || negb (all_chars is_digit s)
  then Raise (ValueError "invalid literal for int() with base 10")
  else if (0 <? max_str_digits) && (max_str_digits <? String.length s)
  then Raise (ValueError "Exceeds the limit for integer string conversion")
  else Ok (digits_value s).

(** [re.findall(pattern, s)[0]] for a pattern with at most one group: the
    matcher [m] is tried at every position from the left, and the first
    match gives the text. *)
Fixpoint search (m : string -> option string) (s : string) : option string :=
  match m s with
  | Some g => Some g
  | None =>
      match s with
      | EmptyString => None
      | String _ s' => search m s'
      end
  end.

(** [[\d,]+] at the start of [s]: the longest run of the class, if it is
    not empty. *)
Definition match_number (s : string) : option string :=
  if is_empty (take_while in_number_class s) then None
  else Some (take_while in_number_class s).

(** [extract_price] *)
Definition extract_price (text : option string) : result (option Z) :=
  match text with
  | None => Ok None
  | Some t =>
      if is_empty t then Ok None
      else match search match_number (remove_commas t) with
           | None => Ok None
           | Some g => v <- py_int g ;; Ok (Some v)
           end
  end.

(** [(\d+)\s*BHK] at the start of [s].  The digits and the blanks are
    taken greedily; giving some back leaves a digit or a blank in front of
    [BHK], so nothing else can match here. *)
Definition match_bhk (s : string) : option string :=
  if is_empty (take_while is_digit s) then None
  else if String.prefix "BHK" (drop_while Text.is_space (drop_while is_digit s))
  then Some (take_while is_digit s)
  else None.

(** [extract_bhk] *)
Definition extract_bhk (text : option string) : result (option Z) :=
  match text with
  | None => Ok None
  | Some t =>
      if is_empty t then Ok None
      else match search match_bhk (upper t) with
           | None => Ok None
           | Some g => v <- py_int g ;; Ok (Some v)
           end
  end.

Definition skip_dot (s : string) : string :=
  match s with
  | String "."%char s' => s'
  | _ => s
  end.

(** [(?:sq\.?\s*ft|sqft)] at the start of [s]: [sq], the dot taken or
    not, blanks, [ft]; or [sqft]. *)
Definition match_unit (s : string) : bool :=
  match s with
  | String "s"%char (String "q"%char r) =>
      String.prefix "ft" (drop_while Text.is_space (skip_dot r))
      || String.prefix "ft" (drop_while Text.is_space r)
  | _ => false
  end
  || String.prefix "sqft" s.

(** [([\d,]+)\s*(?:sq\.?\s*ft|sqft)] at the start of [s]; as for
    [match_bhk], giving back part of the run or of the blanks cannot
    help. *)
Definition match_area (s : string) : option string :=
  if is_empty (take_while in_number_class s) then None
  else if match_unit (drop_while Text.is_space (drop_while in_number_class s))
  then Some (take_while in_number_class s)
  else None.

(** [extract_area] *)
Definition extract_area (text : option string) : result (option Z) :=
  match text with
  | None => Ok None
  | Some t =>
      if is_empty t then Ok None
      else match search match_area (lower t) with
           | None => Ok None
           | Some g => v <- py_int (remove_commas g) ;; Ok (Some v)
           end
  end.

(** What [select_one] finds in a listing element: the text of the child,
    or [None] when there is no such child. *)
Record Element : Type := mkElement {
  title_text : option string;
  price_text : option string;
  location_text : option string;
  details_text : option string
}.

(** The dictionary that [parse_listing] builds. *)
Record RawListing : Type := mkRawListing {
  raw_title : option string;
  raw_price : option Z;
  raw_location : option string;
  raw_bhk : option Z;
  raw_area_sqft : option Z
}.

(** The body of the [try] of [parse_listing]. *)
Definition parse_fields (e : Element) : result RawListing :=
  p <- match price_text e with
       | Some t => extract_price (Some t)
       | None => Ok None
       end ;;
  b <- match details_text e with
       | Some t => extract_bhk (Some t)
       | None => Ok None
       end ;;
  a <- match details_text e with
       | Some t => extract_area (Some t)
       | None => Ok None
       end ;;
  Ok {| raw_title := option_map Text.strip (title_text e);
        raw_price := p;
        raw_location := option_map Text.strip (location_text e);
        raw_bhk := b;
        raw_area_sqft := a |}.

(** [parse_listing]: any exception gives [None]. *)
Definition parse_listing (e : Element) : option RawListing :=
  match parse_fields e with
  | Ok r => Some r
  | Raise _ => None
  end.

(** [f"{base_url}?page={page}"] *)
Definition page_url (base_url : string) (page : nat) : string :=
  base_url ++ "?page=" ++ NilEmpty.string_of_uint (Nat.to_uint page).

Section Pages.

(** [scrape_page] followed by [soup.select('.listing-item')]: the listing
    elements of the page at a URL, or [None] when the request fails. *)
Variable fetch : string -> option (list Element).

(** The inner loop: every listing that parses is appended. *)
Fixpoint append_parsed (all_listings : list RawListing) (els : list Element)
  : list RawListing :=
  match els with
  | [] => all_listings
  | e :: els' =>
      match parse_listing e with
      | Some parsed => append_parsed (all_listings ++ [parsed])%list els'
      | None => append_parsed all_listings els'
      end
  end.

(** The outer loop over the page numbers; [requested] records the URLs
    asked for, in order. *)
Fixpoint scrape_pages (pages : list nat) (base_url : string)
    (all_listings : list RawListing) (requested : list string)
  : list RawListing * list string :=
  match pages with
  | [] => (all_listings, requested)
  | page :: pages' =>
      let url := page_url base_url page in
      match fetch url with
      | None => scrape_pages pages' base_url all_listings (requested ++ [url])%list
      | Some els =>
          scrape_pages pages' base_url (append_parsed all_listings els)
                       (requested ++ [url])%list
      end
  end.

(** [scrape_multiple_pages]: the listings that [pd.DataFrame] receives. *)
Definition scrape_multiple_pages (base_url : string) (num_pages : nat)
  : list RawListing * list string :=
  scrape_pages (seq 1 num_pages) base_url [] [].

End Pages.

End Int.

End Scraper.

(** [stops p s]: [s] is empty or starts with a character outside [p]. *)
Definition stops (p : ascii -> bool) (s : string) : bool :=
  match s with
  | EmptyString => true
  | String c _ => negb (p c)
  end.

Definition non (p : ascii -> bool) (c : ascii) : bool := negb (p c).

(** A digit text that [int] converts under the limit [max_str_digits]. *)
Definition within_limit (max_str_digits : nat) (s : string) : Prop :=
  max_str_digits = 0 \/ String.length s <= max_str_digits.

(** The listings of a page that parse, in page order. *)
Definition parsed_of (max_str_digits : nat) (els : list Scraper.Element)
  : list Scraper.RawListing :=
  flat_map (fun e => match Scraper.parse_listing max_str_digits e with
                     | Some r => [r]
                     | None => []
                     end) els.

Definition raises {A : Type} (r : result A) : Prop :=
  match r with Raise _ => True | Ok _ => False end.

(** * The geocoder of [src/geocoder.py]

    The geocoding service is outside the program: [geolocator n address]
    is what the [n]-th call of [self.geolocator.geocode] answers.  The
    state of a [LocationGeocoder] is its cache, the cache file it wrote
    last, and the number of calls made so far.  A dictionary is the list
    of its items in insertion order.  The pauses of [time.sleep] have no
    part in the model. *)

Module Geocoder.

(** The dictionary that is cached for an address. *)
Record Coordinates : Type := mkCoordinates {
  latitude : Q;
  longitude : Q;
  display_name : string
}.

(** What one call of the service gives: a place, [None], one of the
    errors that [geocode_location] catches ([GeocoderTimedOut],
    [GeocoderServiceError]), or another exception. *)
Inductive response : Type :=
| Found (r : Coordinates)
| NotFound
| ServiceError
| OtherError (e : exn).

Definition dict (V : Type) : Type := list (string * V).

(** [d.get(k)] *)
Definition dict_get {V : Type} (k : string) (d : dict V) : option V :=
  option_map snd (find (fun kv => String.eqb (fst kv) k) d).

(** [d[k] = v] *)
Fixpoint dict_set {V : Type} (k : string) (v : V) (d : dict V) : dict V :=
  match d with
  | [] => [(k, v)]
  | (k', v') :: d' =>
      if String.eqb k' k then (k, v) :: d' else (k', v') :: dict_set k v d'
  end.

Record State : Type := mkState {
  cache : dict Coordinates;
  cache_file : option (dict Coordinates);   (* [None]: no file yet *)
  calls : nat
}.

Section Service.

Variable geolocator : nat -> string -> response.

Definition max_retries : nat := 3.

(** The retry loop of [geocode_location], with [n] attempts left. *)
Fixpoint attempts (n : nat) (cache_key : string) (st : State)
  : result (option Coordinates) * State :=
  match n with
  | 0 => (Ok None, st)
  | S n' =>
      let st1 := mkState (cache st) (cache_file st) (S (calls st)) in
      match geolocator (calls st) cache_key with
      | Found r =>
          let c := dict_set cache_key r (cache st) in
          (Ok (Some r), mkState c (Some c) (S (calls st)))
      | NotFound => (Ok None, st1)
      | ServiceError => attempts n' cache_key st1
      | OtherError e => (Raise e, st1)
      end
  end.

(** [f"{location}, {city}, {country}"] *)
Definition cache_key_of (location city country : string) : string :=
  location ++ ", " ++ city ++ ", " ++ country.

Definition geocode_location (st : State) (location city country : string)
  : result (option Coordinates) * State :=
  let cache_key := cache_key_of location city country in
  match dict_get cache_key (cache st) with
  | Some r => (Ok (Some r), st)
  | None => attempts max_retries cache_key st
  end.

(** A row of the frame with its two coordinate cells. *)
Record Located : Type := mkLocated {
  listing : Listing;
  lat : option Q;
  lon : option Q
}.

Record GeoFrame : Type := mkGeoFrame {
  geo_columns : list string;
  geo_rows : list Located
}.

(** [Series.unique()]: the cells in order of first appearance, a missing
    cell counted once. *)
Fixpoint unique_from (seen cells : list (option string)) : list (option string) :=
  match cells with
  | [] => []
  | c :: cells' =>
      if existsb (cell_eqb c) seen then unique_from seen cells'
      else c :: unique_from (c :: seen) cells'
  end.

Definition unique (cells : list (option string)) : list (option string) :=
  unique_from [] cells.

(** A cell in an f-string; [pd.read_csv] leaves NaN in a missing cell. *)
Definition format_cell (c : option string) : string :=
  match c with
  | Some s => s
  | None => "nan"
  end.

(** [df[location_column] == location]: NaN equals nothing. *)
Definition mask (loc : option string) (row : Located) : bool :=
  match loc, location (listing row) with
  | Some s, Some s' => String.eqb s' s
  | _, _ => false
  end.

(** [df.loc[mask, 'latitude'] = la; df.loc[mask, 'longitude'] = lo] *)
Definition assign_where (m : Located -> bool) (la lo : Q) (rs : list Located)
  : list Located :=
  map (fun row => if m row then mkLocated (listing row) (Some la) (Some lo) else row) rs.

(** The fallback of [geocode_dataframe] for the [idx]-th location. *)
Definition default_coords (idx : nat) : Q * Q :=
  (28.6139 + inject_Z (Z.of_nat idx) * 0.01, 77.2090 + inject_Z (Z.of_nat idx) * 0.01)%Q.

(** The first loop of [geocode_dataframe], from position [idx] on. *)
Fixpoint locate_all (idx : nat) (locations : list (option string))
    (city country : string) (location_coords : list (option string * (Q * Q)))
    (st : State)
  : result (list (option string * (Q * Q))) * State :=
  match locations with
  | [] => (Ok location_coords, st)
  | loc :: locations' =>
      match geocode_location st (format_cell loc) city country with
      | (Raise e, st') => (Raise e, st')
      | (Ok (Some r), st') =>
          locate_all (S idx) locations' city country
                     (location_coords ++ [(loc, (latitude r, longitude r))])%list st'
      | (Ok None, st') =>
          locate_all (S idx) locations' city country
                     (location_coords ++ [(loc, default_coords idx)])%list st'
      end
  end.

(** The second loop: the coordinates are written row by row. *)
Definition apply_coords (location_coords : list (option string * (Q * Q)))
    (rs : list Located) : list Located :=
  fold_left (fun acc item => assign_where (mask (fst item))
                                          (fst (snd item)) (snd (snd item)) acc)
            location_coords rs.

Definition with_coordinate_columns (df : DataFrame) : list string :=
  add_column "longitude" (add_column "latitude" (columns df)).

(** [df['latitude'] = None; df['longitude'] = None] *)
Definition blank_rows (df : DataFrame) : list Located :=
  map (fun r => mkLocated r None None) (rows df).

(** [geocode_dataframe], with the default [location_column]. *)
Definition geocode_dataframe (st : State) (df : DataFrame) (city country : string)
  : result GeoFrame * State :=
  if negb (has_column "location" df) then (Raise (KeyError "location"), st)
  else
    match locate_all 1 (unique (map location (rows df))) city country [] st with
    | (Raise e, st') => (Raise e, st')
    | (Ok location_coords, st') =>
        (Ok (mkGeoFrame (with_coordinate_columns df)
                        (apply_coords location_coords (blank_rows df))), st')
    end.

End Service.

(** The table of [add_sample_coordinates]. *)
Definition delhi_coords : list (string * (Q * Q)) :=
  [ ("Vasant Kunj", (28.5217, 77.1587)); ("Defence Colony", (28.5675, 77.2376));
    ("Karol Bagh", (28.6517, 77.1905)); ("Dwarka", (28.5921, 77.0460));
    ("Greater Kailash", (28.5494, 77.2466)); ("Lajpat Nagar", (28.5678, 77.2434));
    ("Rohini", (28.7489, 77.1177)); ("Chanakyapuri", (28.5983, 77.1892));
    ("Janakpuri", (28.6219, 77.0919)); ("Saket", (28.5244, 77.2066));
    ("Connaught Place", (28.6304, 77.2177)); ("Nehru Place", (28.5494, 77.2501));
    ("Pitampura", (28.7000, 77.1311)); ("Mayur Vihar", (28.6078, 77.2952));
    ("Noida", (28.5355, 77.3910)) ]%Q.

Definition lat_isna (row : Located) : bool := negb (is_some (lat row)).

(** [add_sample_coordinates], with the default [location_column]. *)
Definition add_sample_coordinates (df : DataFrame) : result GeoFrame :=
  if negb (has_column "location" df) then Raise (KeyError "location")
  else
    let rs := fold_left (fun acc item => assign_where (mask (Some (fst item)))
                                                      (fst (snd item)) (snd (snd item)) acc)
                        delhi_coords (blank_rows df) in
    let rs' := if existsb lat_isna rs
               then assign_where lat_isna 28.6139%Q 77.2090%Q rs
               else rs in
    Ok (mkGeoFrame (with_coordinate_columns df) rs').

End Geocoder.

(** A service that knows Dwarka only, and fails once before it answers
    for any other address. *)
Definition sample_service (n : nat) (address : string) : Geocoder.response :=
  if String.eqb address "Dwarka, Delhi, India"
  then Geocoder.Found (Geocoder.mkCoordinates 28.5921 77.0460 "Dwarka, Delhi, India")
  else if Nat.eqb n 0 then Geocoder.ServiceError else Geocoder.NotFound.

(** A service that is down. *)
Definition no_service (n : nat) (address : string) : Geocoder.response :=
  Geocoder.ServiceError.

(** A geocoder with an empty cache and no cache file. *)
Definition no_cache : Geocoder.State := Geocoder.mkState [] None 0.

(** The table as [apply_coords] takes it. *)
Definition delhi_keyed : list (option string * (Q * Q)) :=
  map (fun item : string * (Q * Q) => (Some (fst item), snd item)) Geocoder.delhi_coords.

(** One step of [apply_coords] on one row. *)
Definition write_coords (item : option string * (Q * Q)) (row : Geocoder.Located)
  : Geocoder.Located :=
  if Geocoder.mask (fst item) row
  then Geocoder.mkLocated (Geocoder.listing row) (Some (fst (snd item))) (Some (snd (snd item)))
  else row.

(** Both coordinates of a row are present, or both are missing. *)
Definition located (row : Geocoder.Located) : Prop :=
  Geocoder.lat row <> None /\ Geocoder.lon row <> None.

Definition unlocated (row : Geocoder.Located) : Prop :=
  Geocoder.lat row = None /\ Geocoder.lon row = None.

(** The place of a row. *)
Definition place (row : Geocoder.Located) : option string :=
  location (Geocoder.listing row).

(** The rectangle around Delhi that holds the sample coordinates. *)
Definition in_delhi_box (la lo : Q) : Prop :=
  (28.52 <= la <= 28.75 /\ 77.04 <= lo <= 77.40)%Q.

(** * Properties *)

Unset Implicit Arguments.

(** ** Text normalisation *)

Module TextFacts.
Import Text.

Ltac by_cases_on_char c :=
  destruct c as [[|] [|] [|] [|] [|] [|] [|] [|]]; vm_compute; reflexivity.

Lemma is_space_to_upper c : is_space (to_upper c) = is_space c.
Proof. by_cases_on_char c. Qed.

Lemma is_space_to_lower c : is_space (to_lower c) = is_space c.
Proof. by_cases_on_char c. Qed.

Lemma is_cased_to_upper c : is_cased (to_upper c) = is_cased c.
Proof. by_cases_on_char c. Qed.

Lemma is_cased_to_lower c : is_cased (to_lower c) = is_cased c.
Proof. by_cases_on_char c. Qed.

Lemma to_upper_idem c : to_upper (to_upper c) = to_upper c.
Proof. by_cases_on_char c. Qed.

Lemma to_lower_idem c : to_lower (to_lower c) = to_lower c.
Proof. by_cases_on_char c. Qed.

Lemma blank_to_upper c : is_space c = true -> to_upper c = c.
Proof.
  destruct c as [[|] [|] [|] [|] [|] [|] [|] [|]]; vm_compute;
    intros H; (reflexivity || discriminate H).
Qed.

Lemma blank_to_lower c : is_space c = true -> to_lower c = c.
Proof.
  destruct c as [[|] [|] [|] [|] [|] [|] [|] [|]]; vm_compute;
    intros H; (reflexivity || discriminate H).
Qed.

(** *** [strip] *)

Lemma starts_blank_lstrip s : starts_blank (lstrip s) = false.
Proof.
  induction s as [|c s IH]; simpl; [reflexivity|].
  destruct (is_space c) eqn:E; [exact IH|]. simpl. exact E.
Qed.

Lemma starts_blank_rstrip s :
  starts_blank s = false -> starts_blank (rstrip s) = false.
Proof.
  destruct s as [|c s]; simpl; intros H; [reflexivity|].
  rewrite H. destruct (rstrip s); simpl; exact H.
Qed.

Lemma rstrip_rstrip s : rstrip (rstrip s) = rstrip s.
Proof.
  induction s as [|c s IH]; simpl; [reflexivity|].
  destruct (rstrip s) as [|d r] eqn:E.
  - destruct (is_space c) eqn:Ec; simpl; [reflexivity|]. rewrite Ec. reflexivity.
  - change (rstrip (String c (String d r))) with
      (match rstrip (String d r) with
       | EmptyString => if is_space c then EmptyString else String c EmptyString
       | r' => String c r'
       end).
    rewrite IH. reflexivity.
Qed.

(** What it takes for [rstrip] to leave a non-empty text alone. *)
Lemma rstrip_cons_fixed c s :
  rstrip (String c s) = String c s ->
  (s = EmptyString /\ is_space c = false) \/ (s <> EmptyString /\ rstrip s = s).
Proof.
  simpl. destruct (rstrip s) as [|d r] eqn:E.
  - destruct (is_space c) eqn:Ec; intros H; [discriminate H|].
    injection H as H. left. split; [symmetry; exact H | reflexivity].
  - intros H. injection H as H. right. split; [congruence | exact H].
Qed.

Lemma strip_fixed s :
  starts_blank (strip s) = false /\ rstrip (strip s) = strip s.
Proof.
  unfold strip. split.
  - apply starts_blank_rstrip, starts_blank_lstrip.
  - apply rstrip_rstrip.
Qed.

(** *** Normal forms *)

Lemma tidy_collapse p s :
  rstrip s = s ->
  (p = AtStart -> starts_blank s = false) ->
  (p = AfterBlank -> s <> EmptyString) ->
  tidy p (collapse_from (in_run_of p) s) = true.
Proof.
  revert p. induction s as [|c s IH]; intros p Hr Hs Hb.
  - destruct p; simpl; try reflexivity. exfalso. apply Hb; reflexivity.
  - apply rstrip_cons_fixed in Hr. simpl.
    destruct (is_space c) eqn:Ec.
    + destruct Hr as [[_ Hc] | [Hne Hr]]; [congruence|].
      destruct p; simpl.
      * specialize (Hs eq_refl). simpl in Hs. congruence.
      * apply (IH AfterBlank); [exact Hr | discriminate | intros _; exact Hne].
      * apply (IH AfterBlank); [exact Hr | discriminate | intros _; exact Hne].
    + assert (Hr' : rstrip s = s).
      { destruct Hr as [[-> _] | [_ Hr]]; [reflexivity | exact Hr]. }
      simpl. rewrite Ec.
      apply (IH AfterChar); [exact Hr' | discriminate | discriminate].
Qed.

Lemma tidy_clean s : tidy AtStart (collapse (strip s)) = true.
Proof.
  destruct (strip_fixed s) as [Hs Hr].
  apply (tidy_collapse AtStart); [exact Hr | intros _; exact Hs | discriminate].
Qed.

Lemma tidy_lstrip s : tidy AtStart s = true -> lstrip s = s.
Proof.
  destruct s as [|c s]; simpl; [reflexivity|].
  destruct (is_space c); [discriminate | reflexivity].
Qed.

Lemma tidy_rstrip p s : tidy p s = true -> rstrip s = s.
Proof.
  revert p. induction s as [|c s IH]; intros p H; [reflexivity|].
  simpl in H. destruct (is_space c) eqn:Ec.
  - destruct p; try discriminate H.
    apply andb_prop in H. destruct H as [_ H].
    simpl. rewrite (IH _ H). destruct s; [discriminate H | reflexivity].
  - simpl. rewrite (IH _ H). rewrite Ec. destruct s; reflexivity.
Qed.

Lemma tidy_collapse_fixed p s :
  tidy p s = true -> collapse_from (in_run_of p) s = s.
Proof.
  revert p. induction s as [|c s IH]; intros p H; [reflexivity|].
  simpl in H. simpl. destruct (is_space c) eqn:Ec.
  - destruct p; try discriminate H.
    apply andb_prop in H. destruct H as [Hc H].
    apply Ascii.eqb_eq in Hc. subst c. simpl.
    f_equal. exact (IH AfterBlank H).
  - f_equal. exact (IH AfterChar H).
Qed.

Lemma tidy_strip s : tidy AtStart s = true -> strip s = s.
Proof.
  intros H. unfold strip. rewrite (tidy_lstrip _ H). exact (tidy_rstrip _ _ H).
Qed.

(** *** [title] *)

Lemma tidy_title p b s : tidy p s = true -> tidy p (title_from b s) = true.
Proof.
  revert p b. induction s as [|c s IH]; intros p b H; [exact H|].
  simpl in H. simpl.
  assert (Hsp : is_space (if b then to_lower c else to_upper c) = is_space c).
  { destruct b; [apply is_space_to_lower | apply is_space_to_upper]. }
  rewrite Hsp. destruct (is_space c) eqn:Ec.
  - destruct p; try discriminate H.
    apply andb_prop in H. destruct H as [Hc H].
    assert (Hid : (if b then to_lower c else to_upper c) = c).
    { destruct b; [apply blank_to_lower | apply blank_to_upper]; exact Ec. }
    rewrite Hid, Hc. simpl. apply IH. exact H.
  - apply IH. exact H.
Qed.

Lemma title_from_idem b s : title_from b (title_from b s) = title_from b s.
Proof.
  revert b. induction s as [|c s IH]; intros b; [reflexivity|].
  simpl. f_equal.
  - destruct b; [apply to_lower_idem | apply to_upper_idem].
  - assert (Hc : is_cased (if b then to_lower c else to_upper c) = is_cased c).
    { destruct b; [apply is_cased_to_lower | apply is_cased_to_upper]. }
    rewrite Hc. apply IH.
Qed.

Lemma clean_idem s : clean (clean s) = clean s.
Proof.
  unfold clean. pose proof (tidy_clean s) as H.
  rewrite (tidy_strip _ H). exact (tidy_collapse_fixed AtStart _ H).
Qed.

Lemma clean_titled_idem s : clean_titled (clean_titled s) = clean_titled s.
Proof.
  unfold clean_titled, title.
  pose proof (tidy_title AtStart false _ (tidy_clean s)) as H.
  rewrite (tidy_strip _ H).
  pose proof (tidy_collapse_fixed AtStart _ H) as Hc. simpl in Hc.
  fold (collapse (title_from false (collapse (strip s)))) in Hc.
  rewrite Hc. apply title_from_idem.
Qed.

End TextFacts.

(** ** [clean_text_fields] *)

Lemma has_column_set_rows c df rs : has_column c (set_rows df rs) = has_column c df.
Proof. reflexivity. Qed.

Section CleanText.
Import TextFacts.

Lemma map_title_clean rs :
  map_title Text.collapse (map_title Text.strip rs)
  = map (fun r => set_title (option_map clean (title r)) r) rs.
Proof.
  unfold map_title. rewrite map_map. apply map_ext. intros [i t l p b a f pp].
  destruct t; reflexivity.
Qed.

Lemma map_location_clean rs :
  map_location Text.title (map_location Text.collapse (map_location Text.strip rs))
  = map (fun r => set_location (option_map clean_titled (location r)) r) rs.
Proof.
  unfold map_location. rewrite !map_map. apply map_ext. intros [i t l p b a f pp].
  destruct l; reflexivity.
Qed.

Lemma clean_title_rows_idem rs :
  map (fun r => set_title (option_map clean (title r)) r)
      (map (fun r => set_title (option_map clean (title r)) r) rs)
  = map (fun r => set_title (option_map clean (title r)) r) rs.
Proof.
  rewrite map_map. apply map_ext. intros [i t l p b a f pp].
  destruct t; simpl; [rewrite clean_idem|]; reflexivity.
Qed.

Lemma clean_location_rows_idem rs :
  map (fun r => set_location (option_map clean_titled (location r)) r)
      (map (fun r => set_location (option_map clean_titled (location r)) r) rs)
  = map (fun r => set_location (option_map clean_titled (location r)) r) rs.
Proof.
  rewrite map_map. apply map_ext. intros [i t l p b a f pp].
  destruct l; simpl; [rewrite clean_titled_idem|]; reflexivity.
Qed.

(** The two columns are cleaned independently of each other. *)
Lemma clean_rows_commute rs :
  map (fun r => set_title (option_map clean (title r)) r)
      (map (fun r => set_location (option_map clean_titled (location r)) r) rs)
  = map (fun r => set_location (option_map clean_titled (location r)) r)
      (map (fun r => set_title (option_map clean (title r)) r) rs).
Proof. rewrite !map_map. apply map_ext. intros r. reflexivity. Qed.

(** On the text of the frames a second pass changes nothing. *)
Lemma clean_text_fields_twice (df : DataFrame) :
  (df1 <- clean_text_fields df ;; clean_text_fields df1) = clean_text_fields df.
Proof.
  unfold clean_text_fields, bind. f_equal.
  unfold clean_location, clean_title.
  destruct (has_column "title" df) eqn:Ht;
    destruct (has_column "location" df) eqn:Hl;
    repeat (rewrite ?has_column_set_rows, ?Ht, ?Hl; cbv iota);
    try reflexivity; unfold set_rows; cbn [rows columns]; f_equal.
  - rewrite !map_title_clean, !map_location_clean.
    rewrite clean_rows_commute, clean_title_rows_idem.
    apply clean_location_rows_idem.
  - rewrite !map_title_clean. apply clean_title_rows_idem.
  - rewrite !map_location_clean. apply clean_location_rows_idem.
Qed.

End CleanText.

(** ** Row order *)

Section Order.

Context {A : Type}.

Lemma subseq_refl (l : list A) : subseq l l.
Proof. induction l; constructor; assumption. Qed.

Lemma subseq_trans (l1 l2 l3 : list A) :
  subseq l1 l2 -> subseq l2 l3 -> subseq l1 l3.
Proof.
  intros H12 H23. revert l1 H12.
  induction H23 as [|x l2 l3 H23 IH|x l2 l3 H23 IH]; intros l1 H12.
  - exact H12.
  - constructor. apply IH. exact H12.
  - inversion H12; subst.
    + constructor. apply IH. assumption.
    + apply subseq_keep. apply IH. assumption.
Qed.

Lemma subseq_filter_map {B : Type} (f : B -> A) (p : B -> bool) (l : list B) :
  subseq (map f (filter p l)) (map f l).
Proof.
  induction l as [|x l IH]; simpl; [constructor|].
  destruct (p x); simpl; constructor; exact IH.
Qed.

Lemma subseq_In (l1 l2 : list A) x : subseq l1 l2 -> In x l1 -> In x l2.
Proof.
  induction 1 as [|y l1 l2 H IH|y l1 l2 H IH]; simpl; intros Hx.
  - exact Hx.
  - right. apply IH. exact Hx.
  - destruct Hx as [->|Hx]; [left; reflexivity | right; apply IH; exact Hx].
Qed.

End Order.

Lemma length_random_choice rng options n :
  List.length (random_choice rng options n) = n.
Proof. unfold random_choice. rewrite length_map. apply length_seq. Qed.

Lemma map_fst_combine {X Y : Type} (l : list X) (l' : list Y) :
  List.length l = List.length l' -> map fst (combine l l') = l.
Proof.
  revert l'. induction l as [|x l IH]; intros [|y l'] H; simpl in *;
    try discriminate; [reflexivity|]. f_equal. apply IH. lia.
Qed.

Lemma labels_assign_furnishing vals rs :
  List.length vals = List.length rs ->
  map idx (assign_furnishing vals rs) = map idx rs.
Proof.
  intros H. unfold assign_furnishing. rewrite map_map.
  rewrite <- (map_fst_combine rs vals) at 2 by (symmetry; exact H).
  rewrite map_map. reflexivity.
Qed.

(** [validate_data] returns the frame it was given. *)
Lemma validate_data_frame df out issues :
  validate_data df = Ok (out, issues) -> out = df.
Proof.
  unfold validate_data. destruct (negb _); [discriminate|]. intros [= <- _]. reflexivity.
Qed.

(** ** [add_furnishing_status] *)

Lemma has_add_column c cols : existsb (String.eqb c) (add_column c cols) = true.
Proof.
  unfold add_column. destruct (existsb (String.eqb c) cols) eqn:E; [exact E|].
  rewrite existsb_app. simpl. rewrite String.eqb_refl. apply orb_true_r.
Qed.

Lemma random_choice_In rng n v :
  In v (random_choice rng furnishing_options n) -> In v furnishing_options.
Proof.
  unfold random_choice. rewrite in_map_iff. intros [i [<- _]].
  apply nth_In. apply Nat.mod_upper_bound. discriminate.
Qed.

Lemma assign_furnishing_furnished vals rs :
  (forall v, In v vals -> In v furnishing_options) ->
  Forall furnished (assign_furnishing vals rs).
Proof.
  intros Hv. apply Forall_forall. intros r Hr.
  unfold assign_furnishing in Hr. apply in_map_iff in Hr.
  destruct Hr as [[r0 v] [<- Hin]]. exists v. split; [reflexivity|].
  apply Hv. exact (in_combine_r _ _ _ _ Hin).
Qed.

Lemma length_assign_furnishing vals rs :
  List.length vals = List.length rs ->
  List.length (assign_furnishing vals rs) = List.length rs.
Proof.
  intros H. unfold assign_furnishing. rewrite length_map, length_combine. lia.
Qed.

Lemma add_furnishing_status_absent rng df :
  has_column "furnishing" df = false ->
  exists out,
    add_furnishing_status rng df = Ok out
    /\ has_column "furnishing" out = true
    /\ labels out = labels df
    /\ Forall furnished (rows out).
Proof.
  intros H. unfold add_furnishing_status. rewrite H. simpl.
  eexists. split; [reflexivity|]. split; [|split].
  - apply has_add_column.
  - apply labels_assign_furnishing, length_random_choice.
  - apply assign_furnishing_furnished. intros v. apply random_choice_In.
Qed.

(** C9.  When the [furnishing] column is absent the stage adds it, keeps
    every record, and gives each one of the three options; when the column
    is present, whatever its cells hold, the stage returns the frame
    unchanged. *)
Theorem add_furnishing_status_spec (rng : nat -> nat) (df : DataFrame) :
  (has_column "furnishing" df = false ->
   exists out,
     add_furnishing_status rng df = Ok out
     /\ has_column "furnishing" out = true
     /\ labels out = labels df
     /\ Forall furnished (rows out))
  /\ (has_column "furnishing" df = true -> add_furnishing_status rng df = Ok df).
Proof.
  split.
  - apply add_furnishing_status_absent.
  - intros H. unfold add_furnishing_status. rewrite H. reflexivity.
Qed.

(** ** [calculate_derived_metrics] *)

Lemma fdiv_nonzero p a :
  ~ (a == 0)%Q -> fdiv (Some p) (Some a) = Some (Fin (p / a)%Q).
Proof.
  intros H. unfold fdiv. destruct (Qeq_bool a 0) eqn:E; [|reflexivity].
  apply Qeq_bool_iff in E. contradiction.
Qed.

Lemma fdiv_zero p a :
  (a == 0)%Q ->
  fdiv (Some p) (Some a)
  = match (p ?= 0)%Q with Eq => None | Gt => Some PInf | Lt => Some NInf end.
Proof.
  intros H. unfold fdiv. apply Qeq_bool_iff in H. rewrite H. reflexivity.
Qed.

(** C3, as the code has it.  The stage never raises.  With both columns
    present, every record gets [price_per_sqft = round(price / area_sqft, 2)]
    when both cells are present and the area is not zero, and no value when
    either cell is missing.  A zero area is not guarded: the cell becomes
    plus or minus infinity by the sign of the price, and is left without a
    value only when the price is zero too.  Without one of the columns the
    frame is returned as it is. *)
Theorem calculate_derived_metrics_spec (df : DataFrame) :
  exists out,
    calculate_derived_metrics df = Ok out
    /\ (has_column "price" df && has_column "area_sqft" df = false -> out = df)
    /\ (has_column "price" df && has_column "area_sqft" df = true ->
        rows out = map (fun r => set_price_per_sqft (per_sqft r) r) (rows df))
    /\ (forall r p a,
          price r = Some p -> area_sqft r = Some a -> ~ (a == 0)%Q ->
          per_sqft r = Some (Fin (round2 (p / a))))
    /\ (forall r, price r = None \/ area_sqft r = None -> per_sqft r = None)
    /\ (forall r p a,
          price r = Some p -> area_sqft r = Some a -> (a == 0)%Q ->
          per_sqft r = match (p ?= 0)%Q with
                       | Eq => None
                       | Gt => Some PInf
                       | Lt => Some NInf
                       end).
Proof.
  unfold calculate_derived_metrics.
  destruct (has_column "price" df && has_column "area_sqft" df);
    eexists; (split; [reflexivity|]);
    (split; [intros H; try discriminate H; reflexivity|]);
    (split; [intros H; try discriminate H; reflexivity|]).
  all: unfold per_sqft; repeat split.
  all: try (intros r p a Hp Ha Hz; rewrite Hp, Ha;
            first [ rewrite (fdiv_nonzero _ _ Hz); reflexivity
                  | rewrite (fdiv_zero _ _ Hz); destruct (p ?= 0)%Q; reflexivity ]).
  all: intros r [H|H]; rewrite H; [|destruct (price r)]; reflexivity.
Qed.

(** ** Order statistics *)

Section SortFacts.

Lemma Qle_bool_false x y : Qle_bool x y = false -> (y <= x)%Q.
Proof.
  intros H. apply Qlt_le_weak, Qnot_le_lt. intros Hle.
  apply Qle_bool_iff in Hle. congruence.
Qed.

Lemma insert_sorted_perm {A : Type} (leb : A -> A -> bool) x l :
  Permutation (x :: l) (insert_sorted leb x l).
Proof.
  induction l as [|y l IH]; simpl; [apply Permutation_refl|].
  destruct (leb x y); [apply Permutation_refl|].
  eapply perm_trans; [apply perm_swap|]. apply perm_skip. exact IH.
Qed.

Lemma sort_perm {A : Type} (leb : A -> A -> bool) l : Permutation l (sort leb l).
Proof.
  induction l as [|x l IH]; simpl; [constructor|].
  eapply perm_trans; [apply perm_skip; exact IH | apply insert_sorted_perm].
Qed.

Lemma insert_sorted_HdRel a x l :
  (a <= x)%Q -> HdRel Qle a l -> HdRel Qle a (insert_sorted Qle_bool x l).
Proof.
  intros Hax Hl. destruct l as [|y l]; simpl; [constructor; exact Hax|].
  destruct (Qle_bool x y); constructor; [exact Hax|].
  inversion Hl; assumption.
Qed.

Lemma insert_sorted_Sorted x l :
  Sorted Qle l -> Sorted Qle (insert_sorted Qle_bool x l).
Proof.
  induction 1 as [|y l Hs IH Hd]; simpl; [repeat constructor|].
  destruct (Qle_bool x y) eqn:E.
  - constructor; [constructor; assumption|]. constructor.
    apply Qle_bool_iff. exact E.
  - constructor; [exact IH|]. apply insert_sorted_HdRel; [|exact Hd].
    apply Qle_bool_false. exact E.
Qed.

Lemma sort_Sorted l : Sorted Qle (sort Qle_bool l).
Proof.
  induction l as [|x l IH]; simpl; [constructor | apply insert_sorted_Sorted, IH].
Qed.

Lemma present_In {A : Type} (col : list (option A)) x :
  In x (present col) <-> In (Some x) col.
Proof.
  induction col as [|[y|] col IH]; simpl; [tauto| |].
  - rewrite IH. split; (intros [H|H]; [left; congruence | right; exact H]).
  - rewrite IH. split; [intros H; right; exact H | intros [H|H]; [discriminate | exact H]].
Qed.

Lemma length_present {A : Type} (col : list (option A)) :
  List.length (present col) <= List.length col.
Proof. induction col as [|[y|] col IH]; simpl; lia. Qed.

End SortFacts.

(** ** [clean_price] *)

Section CleanPrice.

Lemma in_bounds_iff lo hi cell :
  in_bounds lo hi cell = true
  <-> exists p l u, cell = Some p /\ lo = Some l /\ hi = Some u /\ (l <= p <= u)%Q.
Proof.
  unfold in_bounds. split.
  - destruct cell as [p|], lo as [l|], hi as [u|]; try discriminate.
    intros H. apply andb_prop in H. destruct H as [H1 H2].
    exists p, l, u. repeat split; apply Qle_bool_iff; assumption.
  - intros [p [l [u [-> [-> [-> [H1 H2]]]]]]].
    apply andb_true_intro. split; apply Qle_bool_iff; assumption.
Qed.

(** The bounds as the stage computes them from the two quartiles. *)
Lemma bounds_formula col q1 q3 :
  quantile col (1 # 4) = Some q1 -> quantile col (3 # 4) = Some q3 ->
  lower_bound col = Some (q1 - 3 * (q3 - q1))%Q
  /\ upper_bound col = Some (q3 + 3 * (q3 - q1))%Q.
Proof. intros H1 H3. unfold lower_bound, upper_bound. rewrite H1, H3. split; reflexivity. Qed.

Ltac floor_at v :=
  match goal with
  | |- context [Qfloor ?q] => change (Qfloor q) with v
  end.

(** With one, two or three prices, the bounds enclose every one of them. *)
Lemma small_sample_in_bounds col p :
  List.length col < 4 -> In (Some p) col ->
  in_bounds (lower_bound col) (upper_bound col) (Some p) = true.
Proof.
  intros Hlen Hin.
  assert (Hp : In p (sort Qle_bool (present col))).
  { apply (Permutation_in _ (sort_perm Qle_bool _)), present_In, Hin. }
  assert (Hl : List.length (sort Qle_bool (present col)) < 4).
  { rewrite <- (Permutation_length (sort_perm Qle_bool (present col))).
    pose proof (length_present col). lia. }
  pose proof (sort_Sorted (present col)) as Hs.
  unfold lower_bound, upper_bound, quantile.
  destruct (sort Qle_bool (present col)) as [|a [|b [|c [|d s]]]];
    [destruct Hp | | | | simpl in Hl; lia].
  - destruct Hp as [<-|[]]. unfold quantile_sorted. cbn [List.length Nat.sub].
    repeat floor_at 0%Z. cbn [nth Z.to_nat Nat.min Nat.add nan_map2].
    apply andb_true_intro. split; apply Qle_bool_iff; cbn [Z.of_nat]; lra.
  - inversion Hs as [|? ? _ Hab]; subst. inversion Hab as [|? ? Hle]; subst.
    unfold quantile_sorted. cbn [List.length Nat.sub].
    repeat floor_at 0%Z. cbn [nth Z.to_nat Nat.min Nat.add nan_map2].
    change (inject_Z (Z.of_nat 1)) with 1%Q. change (inject_Z 0) with 0%Q.
    apply andb_true_intro.
    destruct Hp as [<-|[<-|[]]]; split; apply Qle_bool_iff; lra.
  - inversion Hs as [|? ? Hs' Hab]; subst. inversion Hab as [|? ? Hle]; subst.
    inversion Hs' as [|? ? _ Hbc]; subst. inversion Hbc as [|? ? Hle']; subst.
    unfold quantile_sorted. cbn [List.length Nat.sub].
    change (Qfloor (inject_Z (Z.of_nat 2) * (1 # 4))) with 0%Z.
    change (Qfloor (inject_Z (Z.of_nat 2) * (3 # 4))) with 1%Z.
    change (Z.to_nat 0) with 0. change (Z.to_nat 1) with 1.
    cbn [nth Nat.min Nat.add nan_map2].
    change (inject_Z (Z.of_nat 2)) with 2%Q. change (inject_Z 0) with 0%Q.
    change (inject_Z 1) with 1%Q.
    apply andb_true_intro.
    destruct Hp as [<-|[<-|[<-|[]]]]; split; apply Qle_bool_iff; lra.
Qed.

End CleanPrice.

(** C4, as the code has it.  The stage never raises.  With a [price]
    column it keeps, in order, exactly the records whose price is present
    and lies within [Q1 - 3 IQR, Q3 + 3 IQR], the quartiles being those of
    the prices before filtering; a record with a missing price fails both
    comparisons and is removed.  A frame with fewer than four records loses
    no record that has a price, so it is returned whole when every price is
    present.  Without a [price] column the frame is returned as it is. *)
Theorem clean_price_spec (df : DataFrame) :
  exists out,
    clean_price df = Ok out
    /\ (has_column "price" df = false -> out = df)
    /\ (has_column "price" df = true ->
        let col := map price (rows df) in
        columns out = columns df
        /\ rows out
           = filter (fun r => in_bounds (lower_bound col) (upper_bound col) (price r))
                    (rows df)
        /\ (forall q1 q3,
              quantile col (1 # 4) = Some q1 -> quantile col (3 # 4) = Some q3 ->
              forall r, In r (rows df) ->
                (In r (rows out)
                 <-> exists p, price r = Some p
                               /\ (q1 - 3 * (q3 - q1) <= p <= q3 + 3 * (q3 - q1))%Q))
        /\ (List.length (rows df) < 4 ->
            rows out = filter (fun r => is_some (price r)) (rows df))
        /\ (List.length (rows df) < 4 ->
            Forall (fun r => price r <> None) (rows df) -> out = df)).
Proof.
  unfold clean_price. destruct (has_column "price" df) eqn:Hc; simpl negb; cbv iota;
    eexists; (split; [reflexivity|]); (split; [intros H; try discriminate H; reflexivity|]);
    intros H; [|discriminate H].
  cbv zeta. cbn [columns rows set_rows].
  assert (Hsmall : List.length (rows df) < 4 ->
            filter (fun r => in_bounds (lower_bound (map price (rows df)))
                                       (upper_bound (map price (rows df))) (price r))
                   (rows df)
            = filter (fun r => is_some (price r)) (rows df)).
  { intros Hlen. apply filter_ext_in. intros r Hr.
    destruct (price r) as [p|] eqn:Ep; [|reflexivity].
    apply small_sample_in_bounds; [rewrite length_map; exact Hlen|].
    rewrite <- Ep. apply in_map. exact Hr. }
  split; [reflexivity|]. split; [reflexivity|]. split; [|split].
  - intros q1 q3 H1 H3 r Hr. rewrite filter_In, in_bounds_iff.
    destruct (bounds_formula _ _ _ H1 H3) as [-> ->]. split.
    + intros [_ [p [l [u [Hp [[= <-] [[= <-] Hb]]]]]]]. exists p. split; assumption.
    + intros [p [Hp Hb]]. split; [exact Hr|]. exists p. eexists. eexists.
      repeat split; try eassumption; apply Hb.
  - exact Hsmall.
  - intros Hlen Hall. destruct df as [cols rs]. unfold set_rows. cbn [columns rows] in *.
    f_equal. rewrite (Hsmall Hlen). clear Hsmall Hlen Hc H.
    induction Hall as [|r rs Hr Hall IH]; [reflexivity|]. simpl.
    destruct (price r); [|congruence]. simpl. f_equal. exact IH.
Qed.

(** ** [handle_missing_values] *)

Section MissingValues.

Lemma subseq_filter {A : Type} (p : A -> bool) (l : list A) : subseq (filter p l) l.
Proof.
  induction l as [|x l IH]; simpl; [constructor|].
  destruct (p x); constructor; exact IH.
Qed.

Lemma has_critical_complete r : has_critical r = true <-> complete r.
Proof.
  unfold has_critical, complete.
  destruct (title r), (price r), (location r); simpl; split;
    try discriminate; try reflexivity;
    try (intros _; repeat split; discriminate);
    intros [H1 [H2 H3]]; exfalso;
    first [apply H1; reflexivity | apply H2; reflexivity | apply H3; reflexivity].
Qed.

Lemma dropna_In rs r : In r (dropna rs) <-> In r rs /\ complete r.
Proof. unfold dropna. rewrite filter_In, has_critical_complete. reflexivity. Qed.

Lemma area_sqft_fill_bhk m rs : map area_sqft (fill_bhk m rs) = map area_sqft rs.
Proof. unfold fill_bhk. rewrite map_map. apply map_ext. reflexivity. Qed.

Lemma imputed_complete df kept r : complete r -> complete (imputed df kept r).
Proof. intros H. exact H. Qed.

(** The two fills, one after the other, are [imputed] on every record. *)
Lemma impute_rows df kept m :
  has_column "bhk" df = true -> mode (map bhk kept) = m ->
  forall rs,
    (match m with
     | [] => None
     | v :: _ =>
         Some (if has_column "area_sqft" df
               then fill_area_sqft (median (map area_sqft kept)) (fill_bhk v rs)
               else fill_bhk v rs)
     end)
    = match m with
      | [] => None
      | _ :: _ => Some (map (imputed df kept) rs)
      end.
Proof.
  intros Hb Hm rs. destruct m as [|v m]; [reflexivity|]. f_equal.
  unfold imputed. rewrite Hb, Hm. cbn [hd_error].
  destruct (has_column "area_sqft" df); unfold fill_area_sqft, fill_bhk;
    rewrite ?map_map; apply map_ext; intros [i t l p b a f pp]; reflexivity.
Qed.

(** The stage in closed form. *)
Lemma handle_missing_values_eq df :
  let kept := dropna (rows df) in
  let filled := mkDataFrame (columns df) (map (imputed df kept) kept) in
  handle_missing_values df
  = match missing_label critical_fields df with
    | Some c => Raise (KeyError c)
    | None =>
        if has_column "bhk" df
        then match mode (map bhk kept) with
             | [] => Raise (KeyError "0")
             | _ :: _ => Ok filled
             end
        else Ok filled
    end.
Proof.
  intros kept filled. unfold filled.
  unfold handle_missing_values, impute_bhk, impute_area_sqft, bind.
  rewrite !has_column_set_rows. cbn [rows set_rows]. fold kept.
  destruct (missing_label critical_fields df) as [c|]; [reflexivity|].
  destruct (has_column "bhk" df) eqn:Hb.
  - destruct (mode (map bhk kept)) as [|m ms] eqn:Hm; [reflexivity|].
    rewrite !has_column_set_rows. cbn [rows set_rows]. rewrite area_sqft_fill_bhk.
    pose proof (impute_rows df kept (m :: ms) Hb Hm kept) as H. injection H as H.
    rewrite <- H. destruct (has_column "area_sqft" df); reflexivity.
  - unfold imputed. rewrite Hb.
    rewrite ?has_column_set_rows.
    destruct (has_column "area_sqft" df); unfold set_rows, fill_area_sqft;
      cbn [columns rows]; [reflexivity|]. do 2 f_equal.
    rewrite <- (map_id kept) at 1. apply map_ext. intros [i t l p b a f pp]. reflexivity.
Qed.

Lemma handle_missing_values_result df out :
  handle_missing_values df = Ok out ->
  columns out = columns df
  /\ rows out = map (imputed df (dropna (rows df))) (dropna (rows df)).
Proof.
  rewrite handle_missing_values_eq. cbv zeta.
  destruct (missing_label critical_fields df); [discriminate|].
  destruct (has_column "bhk" df); [destruct (mode _); [discriminate|]|];
    intros [= <-]; split; reflexivity.
Qed.

Lemma handle_missing_values_returns df :
  (exists out, handle_missing_values df = Ok out)
  <-> missing_label critical_fields df = None
      /\ (has_column "bhk" df = true -> mode (map bhk (dropna (rows df))) <> []).
Proof.
  rewrite handle_missing_values_eq. cbv zeta.
  destruct (missing_label critical_fields df).
  { split; [intros [out H]; discriminate H | intros [H _]; discriminate H]. }
  destruct (has_column "bhk" df).
  - destruct (mode _) as [|m ms].
    + split; [intros [out H]; discriminate H|].
      intros [_ H]. exfalso. exact (H eq_refl eq_refl).
    + split; [intros _; split; [reflexivity | intros _; discriminate]|].
      intros _. eexists. reflexivity.
  - split; [intros _; split; [reflexivity | intros H; discriminate H]|].
    intros _. eexists. reflexivity.
Qed.

End MissingValues.

(** ** What the stages leave alone

    [f] reads a record; the hypotheses of a lemma name the cells that [f]
    must not depend on. *)

Section Projection.

Context {X : Type} (f : Listing -> X).

Lemma read_drop_duplicates seen rs :
  subseq (map f (drop_duplicates_from seen rs)) (map f rs).
Proof.
  revert seen. induction rs as [|r rs IH]; intros seen; simpl; [constructor|].
  destruct (existsb (key_eqb (key_of r)) seen); simpl; constructor; apply IH.
Qed.

Lemma read_remove_duplicates df out :
  remove_duplicates df = Ok out -> subseq (map f (rows out)) (map f (rows df)).
Proof.
  unfold remove_duplicates.
  destruct (empty df); [intros [= <-]; apply subseq_refl|].
  destruct (missing_label _ df); [discriminate|].
  intros [= <-]. apply read_drop_duplicates.
Qed.

Lemma read_handle_missing_values df out :
  ignores_bhk f -> ignores_area_sqft f ->
  handle_missing_values df = Ok out -> subseq (map f (rows out)) (map f (rows df)).
Proof.
  intros Hb Ha H.
  destruct (handle_missing_values_result df out H) as [_ ->].
  rewrite map_map.
  rewrite (map_ext (fun r => f (imputed df (dropna (rows df)) r)) f).
  - apply subseq_filter_map.
  - intros r. unfold imputed. rewrite Ha, Hb. reflexivity.
Qed.

Lemma read_clean_price df out :
  clean_price df = Ok out -> subseq (map f (rows out)) (map f (rows df)).
Proof.
  unfold clean_price. destruct (negb _); intros [= <-]; [apply subseq_refl|].
  apply subseq_filter_map.
Qed.

Lemma read_clean_text_fields df out :
  ignores_title f -> ignores_location f ->
  clean_text_fields df = Ok out -> map f (rows out) = map f (rows df).
Proof.
  intros Ht Hl. unfold clean_text_fields, clean_location, clean_title. intros [= <-].
  destruct (has_column "title" df); rewrite ?has_column_set_rows;
    destruct (has_column "location" df); unfold set_rows, map_title, map_location;
    cbn [rows]; rewrite ?map_map; try reflexivity; apply map_ext; intros r;
    rewrite ?Hl, ?Ht; reflexivity.
Qed.

Lemma read_calculate_derived_metrics df out :
  ignores_price_per_sqft f ->
  calculate_derived_metrics df = Ok out -> map f (rows out) = map f (rows df).
Proof.
  intros Hp. unfold calculate_derived_metrics.
  destruct (_ && _); intros [= <-]; [|reflexivity].
  cbn [rows]. rewrite map_map. apply map_ext. intros r. apply Hp.
Qed.

Lemma read_assign_furnishing vals rs :
  ignores_furnishing f -> List.length vals = List.length rs ->
  map f (assign_furnishing vals rs) = map f rs.
Proof.
  intros Hf H. unfold assign_furnishing. rewrite map_map.
  rewrite <- (map_fst_combine rs vals) at 2 by (symmetry; exact H).
  rewrite map_map. apply map_ext. intros [r v]. apply Hf.
Qed.

Lemma read_add_furnishing_status rng df out :
  ignores_furnishing f \/ has_column "furnishing" df = true ->
  add_furnishing_status rng df = Ok out -> map f (rows out) = map f (rows df).
Proof.
  unfold add_furnishing_status. intros [Hf|Hc].
  - destruct (negb _); intros [= <-]; [|reflexivity].
    apply read_assign_furnishing; [exact Hf | apply length_random_choice].
  - rewrite Hc. intros [= <-]. reflexivity.
Qed.

End Projection.

(** ** The columns along the pipeline *)

Section Columns.

Lemma columns_remove_duplicates df out :
  remove_duplicates df = Ok out -> columns out = columns df.
Proof.
  unfold remove_duplicates. destruct (empty df); [intros [= <-]; reflexivity|].
  destruct (missing_label _ df); [discriminate|]. intros [= <-]. reflexivity.
Qed.

Lemma columns_handle_missing_values df out :
  handle_missing_values df = Ok out -> columns out = columns df.
Proof.
  intros H. apply (handle_missing_values_result df out H).
Qed.

Lemma columns_clean_price df out :
  clean_price df = Ok out -> columns out = columns df.
Proof. unfold clean_price. destruct (negb _); intros [= <-]; reflexivity. Qed.

Lemma columns_clean_text_fields df out :
  clean_text_fields df = Ok out -> columns out = columns df.
Proof.
  unfold clean_text_fields, clean_location, clean_title. intros [= <-].
  destruct (has_column "title" df); rewrite ?has_column_set_rows;
    destruct (has_column "location" df); reflexivity.
Qed.

Lemma has_column_as_columns c df df' :
  columns df' = columns df -> has_column c df' = has_column c df.
Proof. unfold has_column. intros ->. reflexivity. Qed.

Lemma has_column_calculate_derived_metrics c df out :
  c <> "price_per_sqft" ->
  calculate_derived_metrics df = Ok out -> has_column c out = has_column c df.
Proof.
  intros Hc. unfold calculate_derived_metrics.
  destruct (_ && _); intros [= <-]; [|reflexivity].
  unfold has_column, add_column. cbn [columns].
  destruct (existsb (String.eqb "price_per_sqft") (columns df)); [reflexivity|].
  rewrite existsb_app. cbn [existsb].
  destruct (String.eqb_spec c "price_per_sqft") as [E|_]; [contradiction|].
  rewrite !orb_false_r. reflexivity.
Qed.

Lemma missing_label_has_column subset df c :
  missing_label subset df = None -> In c subset -> has_column c df = true.
Proof.
  induction subset as [|c' subset IH]; simpl; [intros _ []|].
  destruct (has_column c' df) eqn:E; [|discriminate].
  intros H [<-|Hin]; [exact E | exact (IH H Hin)].
Qed.

End Columns.

(** The stages of a successful run, one by one. *)
Lemma process_all_stages rng df out issues :
  process_all rng df = Ok (out, issues) ->
  exists df1 df2 df3 df4 df5,
    remove_duplicates df = Ok df1
    /\ handle_missing_values df1 = Ok df2
    /\ clean_price df2 = Ok df3
    /\ clean_text_fields df3 = Ok df4
    /\ calculate_derived_metrics df4 = Ok df5
    /\ add_furnishing_status rng df5 = Ok out
    /\ validate_data out = Ok (out, issues).
Proof.
  unfold process_all, bind.
  destruct (remove_duplicates df) as [df1|] eqn:E1; [|discriminate].
  destruct (handle_missing_values df1) as [df2|] eqn:E2; [|discriminate].
  destruct (clean_price df2) as [df3|] eqn:E3; [|discriminate].
  destruct (clean_text_fields df3) as [df4|] eqn:E4; [|discriminate].
  destruct (calculate_derived_metrics df4) as [df5|] eqn:E5; [|discriminate].
  destruct (add_furnishing_status rng df5) as [df6|] eqn:E6; [|discriminate].
  intros H. pose proof (validate_data_frame _ _ _ H) as ->.
  exists df1, df2, df3, df4, df5. repeat split; assumption.
Qed.

(** ** Row order along the pipeline *)

(** C10.  Every stage keeps the rows it does not delete in the order they
    had: the labels of its output are the labels of its input with some
    left out, none moved and none added.  The same then holds from the
    input of [process_all] to its output. *)
Theorem stages_preserve_row_order (rng : nat -> nat) (df : DataFrame) :
  (forall s out, run_stage rng s df = Ok out -> subseq (labels out) (labels df))
  /\ (forall out issues,
        process_all rng df = Ok (out, issues) -> subseq (labels out) (labels df)).
Proof.
  unfold labels. split.
  - intros s out H. destruct s; simpl in H.
    + exact (read_remove_duplicates idx _ _ H).
    + exact (read_handle_missing_values idx _ _
               (fun v r => eq_refl) (fun v r => eq_refl) H).
    + exact (read_clean_price idx _ _ H).
    + rewrite (read_clean_text_fields idx _ _
                 (fun v r => eq_refl) (fun v r => eq_refl) H).
      apply subseq_refl.
    + rewrite (read_calculate_derived_metrics idx _ _ (fun v r => eq_refl) H).
      apply subseq_refl.
    + rewrite (read_add_furnishing_status idx rng _ _
                 (or_introl (fun v r => eq_refl)) H).
      apply subseq_refl.
    + unfold bind in H. destruct (validate_data df) as [[d i]|] eqn:E; [|discriminate].
      injection H as <-. rewrite (validate_data_frame _ _ _ E). apply subseq_refl.
  - intros out issues H.
    destruct (process_all_stages _ _ _ _ H)
      as [df1 [df2 [df3 [df4 [df5 [E1 [E2 [E3 [E4 [E5 [E6 _]]]]]]]]]]].
    rewrite (read_add_furnishing_status idx rng _ _
               (or_introl (fun v r => eq_refl)) E6).
    rewrite (read_calculate_derived_metrics idx _ _ (fun v r => eq_refl) E5).
    rewrite (read_clean_text_fields idx _ _
               (fun v r => eq_refl) (fun v r => eq_refl) E4).
    eapply subseq_trans; [exact (read_clean_price idx _ _ E3)|].
    eapply subseq_trans;
      [exact (read_handle_missing_values idx _ _
                (fun v r => eq_refl) (fun v r => eq_refl) E2)|].
    exact (read_remove_duplicates idx _ _ E1).
Qed.

(** ** Keys *)

Section Keys.

Lemma cell_eqb_eq a b : cell_eqb a b = true <-> a = b.
Proof.
  destruct a as [x|], b as [y|]; simpl; try (split; [discriminate|congruence]).
  - rewrite String.eqb_eq. split; congruence.
  - split; reflexivity.
Qed.

Lemma key_eqb_eq k1 k2 : key_eqb k1 k2 = true <-> k1 = k2.
Proof.
  destruct k1 as [t1 l1], k2 as [t2 l2]. unfold key_eqb. simpl.
  rewrite andb_true_iff, !cell_eqb_eq. split; [intros [-> ->]; reflexivity|].
  intros [= -> ->]. split; reflexivity.
Qed.

Lemma seen_In k seen : existsb (key_eqb k) seen = true <-> In k seen.
Proof.
  rewrite existsb_exists. split.
  - intros [k' [Hin Heq]]. apply key_eqb_eq in Heq. subst k'. exact Hin.
  - intros Hin. exists k. split; [exact Hin | apply key_eqb_eq; reflexivity].
Qed.

Lemma drop_duplicates_fresh seen rs k :
  In k seen -> ~ In k (map key_of (drop_duplicates_from seen rs)).
Proof.
  revert seen. induction rs as [|r rs IH]; intros seen Hk; simpl; [tauto|].
  destruct (existsb (key_eqb (key_of r)) seen) eqn:E; [apply IH; exact Hk|].
  simpl. intros [H|H].
  - subst k. apply seen_In in Hk. congruence.
  - revert H. apply IH. right. exact Hk.
Qed.

Lemma drop_duplicates_NoDup seen rs :
  NoDup (map key_of (drop_duplicates_from seen rs)).
Proof.
  revert seen. induction rs as [|r rs IH]; intros seen; simpl; [constructor|].
  destruct (existsb (key_eqb (key_of r)) seen); [apply IH|].
  simpl. constructor; [|apply IH].
  apply drop_duplicates_fresh. left. reflexivity.
Qed.

Lemma subseq_NoDup {A : Type} (l1 l2 : list A) :
  subseq l1 l2 -> NoDup l2 -> NoDup l1.
Proof.
  induction 1 as [|x l1 l2 H IH|x l1 l2 H IH]; intros Hn.
  - exact Hn.
  - apply IH. inversion Hn; assumption.
  - inversion Hn as [|? ? Hx Hn']; subst. constructor; [|apply IH; exact Hn'].
    intros Hin. apply Hx. exact (subseq_In _ _ _ H Hin).
Qed.

Lemma remove_duplicates_NoDup df out :
  remove_duplicates df = Ok out -> columns df <> [] ->
  NoDup (map key_of (rows out)).
Proof.
  unfold remove_duplicates. destruct (empty df) eqn:Ee.
  - intros [= <-] Hcols. unfold empty in Ee.
    destruct (rows df); [constructor|].
    destruct (columns df); [contradiction | discriminate].
  - destruct (missing_label _ df); [discriminate|].
    intros [= <-] _. apply drop_duplicates_NoDup.
Qed.

Lemma key_of_cleaned rs :
  map key_of
      (map_location Text.title
         (map_location Text.collapse
            (map_location Text.strip
               (map_title Text.collapse (map_title Text.strip rs)))))
  = map norm_key (map key_of rs).
Proof.
  rewrite map_title_clean, map_location_clean, !map_map.
  apply map_ext. intros r. reflexivity.
Qed.

(** C1, as the code has it.  [remove_duplicates] leaves no two records
    with the same (title, location) pair as the cells read at that point.
    After the whole pipeline the pairs of the final records are the
    normalised forms of pairwise distinct pairs of the input, in input
    order; two input pairs that differ only in blanks or letter case are
    distinct, so both records can survive with equal final pairs. *)
Theorem keys_distinct_before_normalisation (rng : nat -> nat) (df : DataFrame) :
  (forall out,
     remove_duplicates df = Ok out -> columns df <> [] ->
     NoDup (map key_of (rows out)))
  /\ (forall out issues,
        process_all rng df = Ok (out, issues) ->
        exists ks,
          NoDup ks
          /\ subseq ks (map key_of (rows df))
          /\ map key_of (rows out) = map norm_key ks).
Proof.
  split; [exact (remove_duplicates_NoDup df)|].
  intros out issues H.
  destruct (process_all_stages _ _ _ _ H)
    as [df1 [df2 [df3 [df4 [df5 [E1 [E2 [E3 [E4 [E5 [E6 _]]]]]]]]]]].
  assert (Hcrit : missing_label critical_fields df1 = None).
  { apply (handle_missing_values_returns df1). exists df2. exact E2. }
  assert (Hcols3 : columns df3 = columns df1).
  { rewrite (columns_clean_price _ _ E3). apply (columns_handle_missing_values _ _ E2). }
  assert (Ht : has_column "title" df3 = true).
  { rewrite (has_column_as_columns _ _ _ Hcols3).
    apply (missing_label_has_column _ _ _ Hcrit). simpl. tauto. }
  assert (Hl : has_column "location" df3 = true).
  { rewrite (has_column_as_columns _ _ _ Hcols3).
    apply (missing_label_has_column _ _ _ Hcrit). simpl. tauto. }
  assert (Hsub3 : subseq (map key_of (rows df3)) (map key_of (rows df1))).
  { eapply subseq_trans; [exact (read_clean_price key_of _ _ E3)|].
    apply (read_handle_missing_values key_of _ _); [intros v r; reflexivity .. | exact E2]. }
  exists (map key_of (rows df3)). split; [|split].
  - apply (subseq_NoDup _ _ Hsub3).
    apply (remove_duplicates_NoDup _ _ E1).
    intros Hnil. rewrite <- (columns_remove_duplicates _ _ E1) in Hnil.
    unfold has_column in Ht. rewrite Hcols3, Hnil in Ht. discriminate Ht.
  - eapply subseq_trans; [exact Hsub3 | exact (read_remove_duplicates key_of _ _ E1)].
  - rewrite (read_add_furnishing_status key_of rng _ _
               (or_introl (fun v r => eq_refl)) E6).
    rewrite (read_calculate_derived_metrics key_of _ _ (fun v r => eq_refl) E5).
    unfold clean_text_fields, clean_location, clean_title in E4.
    rewrite Ht, has_column_set_rows, Hl in E4. injection E4 as <-.
    apply key_of_cleaned.
Qed.

End Keys.

(** ** Furnishing along the pipeline *)

(** C5, as the code has it.  When the input has no [furnishing] column,
    every record of the final frame holds one of the three options.  When
    the input has the column, no stage writes to it: every final record
    carries the furnishing cell it had in the input, missing if it was
    missing there. *)
Theorem process_all_furnishing (rng : nat -> nat) (df out : DataFrame)
    (issues : list string) :
  process_all rng df = Ok (out, issues) ->
  (has_column "furnishing" df = false -> Forall furnished (rows out))
  /\ (has_column "furnishing" df = true ->
      subseq (map furnishing_cell (rows out)) (map furnishing_cell (rows df))).
Proof.
  intros H.
  destruct (process_all_stages _ _ _ _ H)
    as [df1 [df2 [df3 [df4 [df5 [E1 [E2 [E3 [E4 [E5 [E6 _]]]]]]]]]]].
  assert (Hc : has_column "furnishing" df5 = has_column "furnishing" df).
  { rewrite (has_column_calculate_derived_metrics "furnishing" _ _ ltac:(discriminate) E5).
    rewrite (has_column_as_columns _ _ _ (columns_clean_text_fields _ _ E4)).
    rewrite (has_column_as_columns _ _ _ (columns_clean_price _ _ E3)).
    rewrite (has_column_as_columns _ _ _ (columns_handle_missing_values _ _ E2)).
    apply has_column_as_columns, (columns_remove_duplicates _ _ E1). }
  split; intros Hf; rewrite <- Hc in Hf.
  - destruct (add_furnishing_status_absent rng df5 Hf) as [out' [E6' [_ [_ Hall]]]].
    rewrite E6 in E6'. injection E6' as <-. exact Hall.
  - rewrite (read_add_furnishing_status furnishing_cell rng _ _ (or_intror Hf) E6).
    rewrite (read_calculate_derived_metrics furnishing_cell _ _ (fun v r => eq_refl) E5).
    rewrite (read_clean_text_fields furnishing_cell _ _
               (fun v r => eq_refl) (fun v r => eq_refl) E4).
    eapply subseq_trans; [exact (read_clean_price furnishing_cell _ _ E3)|].
    eapply subseq_trans;
      [exact (read_handle_missing_values furnishing_cell _ _
                (fun v r => eq_refl) (fun v r => eq_refl) E2)|].
    exact (read_remove_duplicates furnishing_cell _ _ E1).
Qed.

(** ** A frame without records *)

Section NoRecords.

Variable cols : list string.

Lemma remove_duplicates_no_rows :
  remove_duplicates (mkDataFrame cols []) = Ok (mkDataFrame cols []).
Proof. reflexivity. Qed.

Lemma handle_missing_values_no_rows :
  missing_label critical_fields (mkDataFrame cols []) = None ->
  handle_missing_values (mkDataFrame cols [])
  = if has_column "bhk" (mkDataFrame cols [])
    then Raise (KeyError "0")
    else Ok (mkDataFrame cols []).
Proof.
  intros H. unfold handle_missing_values, impute_bhk, impute_area_sqft, bind.
  rewrite H, !has_column_set_rows.
  destruct (has_column "bhk" (mkDataFrame cols [])); [reflexivity|].
  rewrite has_column_set_rows.
  destruct (has_column "area_sqft" (mkDataFrame cols [])); reflexivity.
Qed.

Lemma clean_price_no_rows :
  clean_price (mkDataFrame cols []) = Ok (mkDataFrame cols []).
Proof. unfold clean_price. destruct (negb _); reflexivity. Qed.

Lemma clean_text_fields_no_rows :
  clean_text_fields (mkDataFrame cols []) = Ok (mkDataFrame cols []).
Proof.
  unfold clean_text_fields, clean_location, clean_title.
  destruct (has_column "title" (mkDataFrame cols [])); rewrite ?has_column_set_rows;
    destruct (has_column "location" (mkDataFrame cols [])); reflexivity.
Qed.

Lemma calculate_derived_metrics_no_rows :
  exists cols',
    calculate_derived_metrics (mkDataFrame cols []) = Ok (mkDataFrame cols' [])
    /\ has_column "price" (mkDataFrame cols' []) = has_column "price" (mkDataFrame cols []).
Proof.
  destruct (calculate_derived_metrics (mkDataFrame cols [])) as [out|] eqn:E.
  - exists (columns out). split.
    + f_equal. unfold calculate_derived_metrics in E.
      destruct (_ && _); injection E as <-; reflexivity.
    + exact (has_column_calculate_derived_metrics "price" _ _ ltac:(discriminate) E).
  - unfold calculate_derived_metrics in E. destruct (_ && _); discriminate E.
Qed.

Lemma add_furnishing_status_no_rows rng :
  has_column "price" (mkDataFrame cols []) = true ->
  exists cols',
    add_furnishing_status rng (mkDataFrame cols []) = Ok (mkDataFrame cols' [])
    /\ has_column "price" (mkDataFrame cols' []) = true.
Proof.
  intros Hp. unfold add_furnishing_status.
  destruct (negb (has_column "furnishing" (mkDataFrame cols [])));
    eexists; (split; [reflexivity|]); [|exact Hp].
  unfold has_column, add_column in *. cbn [columns] in *.
  destruct (existsb (String.eqb "furnishing") cols); [exact Hp|].
  rewrite existsb_app, Hp. reflexivity.
Qed.

Lemma validate_data_no_rows :
  has_column "price" (mkDataFrame cols []) = true ->
  validate_data (mkDataFrame cols []) = Ok (mkDataFrame cols [], []).
Proof.
  intros Hp. unfold validate_data. rewrite Hp.
  unfold any_cell. cbn [rows existsb negb]. rewrite andb_false_r. reflexivity.
Qed.

End NoRecords.

(** C2, where the code departs from it.  On a frame without records that
    has the three critical columns, the pipeline stops in
    [handle_missing_values] as soon as there is a [bhk] column: the mode of
    an empty column is empty and [mode()[0]] raises.  Without a [bhk]
    column the run completes with no record and no warning. *)
Theorem process_all_no_records (rng : nat -> nat) (cols : list string) :
  missing_label critical_fields (mkDataFrame cols []) = None ->
  (has_column "bhk" (mkDataFrame cols []) = true ->
   handle_missing_values (mkDataFrame cols []) = Raise (KeyError "0")
   /\ process_all rng (mkDataFrame cols []) = Raise (KeyError "0"))
  /\ (has_column "bhk" (mkDataFrame cols []) = false ->
      exists cols', process_all rng (mkDataFrame cols []) = Ok (mkDataFrame cols' [], [])).
Proof.
  intros Hcrit.
  pose proof (handle_missing_values_no_rows cols Hcrit) as H2.
  unfold process_all. rewrite remove_duplicates_no_rows. cbn [bind].
  split; intros Hb; rewrite Hb in H2; rewrite H2; cbn [bind].
  - split; reflexivity.
  - rewrite clean_price_no_rows. cbn [bind].
    rewrite clean_text_fields_no_rows. cbn [bind].
    destruct (calculate_derived_metrics_no_rows cols) as [cols5 [-> Hp5]]. cbn [bind].
    assert (Hp : has_column "price" (mkDataFrame cols []) = true).
    { apply (missing_label_has_column _ _ _ Hcrit). simpl. tauto. }
    rewrite Hp in Hp5.
    destruct (add_furnishing_status_no_rows cols5 rng Hp5) as [cols6 [-> Hp6]]. cbn [bind].
    exists cols6. apply validate_data_no_rows. exact Hp6.
Qed.

(** ** [load_data] *)

(** C6, as the code has it.  [load_data] reads the path it is given, or
    else the path the processor was built with, and raises [ValueError]
    when there is neither.  It raises exactly what [pd.read_csv] raises on
    that path, and otherwise returns the frame [pd.read_csv] parsed: the
    columns of the frame are not looked at. *)
Theorem load_data_spec (read_csv : string -> result DataFrame)
    (input_file filepath : option string) :
  (forall p, filepath = Some p -> p <> "" ->
     load_data read_csv input_file filepath = read_csv p)
  /\ (forall p, truthy filepath = false -> input_file = Some p -> p <> "" ->
        load_data read_csv input_file filepath = read_csv p)
  /\ (truthy filepath = false -> truthy input_file = false ->
      load_data read_csv input_file filepath
      = Raise (ValueError "No input file specified")).
Proof.
  unfold load_data. split; [|split].
  - intros p -> Hp. simpl. destruct (String.eqb_spec p ""); [contradiction | reflexivity].
  - intros p -> -> Hp. simpl. destruct (String.eqb_spec p ""); [contradiction | reflexivity].
  - intros -> ->. reflexivity.
Qed.

(** ** The end-to-end scenarios of the specification *)

(** The sample frame of [__main__] passes the pipeline whole and without a
    warning. *)
Example sample_data_processed :
  exists out,
    process_all first_option sample_data = Ok (out, [])
    /\ labels out = labels sample_data
    /\ map price_per_sqft (rows out)
       = map (fun q => Some (Fin q))
             [29.17; 30.00; 30.00; 25.45; 33.93; 30.00; 25.00; 42.86]%Q.
Proof. eexists. split; [vm_compute; reflexivity|]. split; reflexivity. Qed.

(** The price of 5000000 lies outside the bounds and is removed. *)
Example outlier_removed :
  exists out,
    clean_price outlier_scenario = Ok out
    /\ labels out = [0; 1; 2; 3; 4; 5; 6; 7; 8].
Proof. eexists. split; [vm_compute; reflexivity | reflexivity]. Qed.

(** A price of 800 passes every stage and is reported by the validator. *)
Example low_price_reported :
  exists out,
    process_all first_option low_price_scenario
    = Ok (out, ["Suspiciously low prices found"])
    /\ labels out = [0].
Proof. eexists. split; [vm_compute; reflexivity | reflexivity]. Qed.

(** ** The claims that fail, at concrete frames *)

(** C1 fails: two records whose (title, location) pairs differ only in
    blanks and letter case pass [remove_duplicates] and leave the pipeline
    with the same pair. *)
Lemma near_duplicates_survive :
  exists out issues,
    process_all first_option near_duplicates = Ok (out, issues)
    /\ map key_of (rows out)
       = [ (Some "2 BHK Apartment in Dwarka", Some "Dwarka");
           (Some "2 BHK Apartment in Dwarka", Some "Dwarka") ]
    /\ ~ NoDup (map key_of (rows out)).
Proof.
  eexists. eexists. split; [vm_compute; reflexivity|].
  split; [reflexivity|].
  intros H. inversion H as [|k ks Hk _]. apply Hk. left. reflexivity.
Qed.

(** C3 fails: an area of zero gives an infinite [price_per_sqft]. *)
Lemma zero_area_gives_infinity :
  exists out r,
    calculate_derived_metrics zero_area = Ok out
    /\ In r (rows out)
    /\ area_sqft r = Some 0%Q
    /\ price_per_sqft r = Some PInf.
Proof.
  eexists. eexists. split; [vm_compute; reflexivity|].
  split; [left; reflexivity|]. split; reflexivity.
Qed.

(** C4 fails: a frame of one record loses it when its price is missing. *)
Lemma unpriced_record_removed :
  List.length (rows unpriced) < 4
  /\ exists out,
       clean_price unpriced = Ok out
       /\ List.length (rows unpriced) = 1
       /\ rows out = [].
Proof.
  split; [simpl; lia|]. eexists. split; [vm_compute; reflexivity|].
  split; reflexivity.
Qed.

(** C5 fails: a furnishing cell that is missing in the input is missing in
    the final frame. *)
Lemma missing_furnishing_survives :
  exists out issues r,
    process_all first_option partly_furnished = Ok (out, issues)
    /\ In r (rows out)
    /\ furnishing r = None.
Proof.
  eexists. eexists. eexists. split; [vm_compute; reflexivity|].
  split; [right; left; reflexivity | reflexivity].
Qed.

(** C6 fails: a file without [price] and [location] is loaded and returned. *)
Lemma load_without_required_columns :
  load_data disk_with_titles_only None (Some "data/raw/raw_rentals.csv")
  = Ok titles_only
  /\ has_column "price" titles_only = false
  /\ has_column "location" titles_only = false.
Proof. repeat split. Qed.

(** ** The theorems at concrete frames *)

(** Of a record listed twice the first copy is kept, and the two pairs of
    [near_duplicates] are distinct before they are normalised. *)
Lemma keys_distinct_before_normalisation_witness :
  (exists out,
     remove_duplicates twice_listed = Ok out
     /\ labels out = [0]
     /\ NoDup (map key_of (rows out)))
  /\ (exists out issues ks,
        process_all first_option near_duplicates = Ok (out, issues)
        /\ NoDup ks
        /\ subseq ks (map key_of (rows near_duplicates))
        /\ map key_of (rows out) = map norm_key ks).
Proof.
  split.
  - eexists. split; [reflexivity|]. split; [reflexivity|].
    apply (proj1 (keys_distinct_before_normalisation first_option twice_listed));
      [reflexivity | discriminate].
  - destruct (process_all first_option near_duplicates) as [[out issues]|e] eqn:E;
      [|vm_compute in E; discriminate E].
    destruct (proj2 (keys_distinct_before_normalisation first_option near_duplicates)
                out issues E) as [ks H].
    exists out, issues, ks. split; [reflexivity | exact H].
Defined.

(** The frame without records of [empty_listing_frame] stops the pipeline. *)
Lemma process_all_no_records_witness :
  handle_missing_values empty_listing_frame = Raise (KeyError "0")
  /\ process_all first_option empty_listing_frame = Raise (KeyError "0").
Proof.
  exact (proj1 (process_all_no_records first_option (columns empty_listing_frame) eq_refl)
               eq_refl).
Defined.

(** The first sample record: 35000 / 1200 rounds to 29.17. *)
Lemma calculate_derived_metrics_spec_witness :
  per_sqft (listing 0 "2 BHK Apartment in Vasant Kunj" "Vasant Kunj" 35000
                    (Some 2%Z) (Some 1200%Q))
  = Some (Fin (round2 (35000 / 1200))).
Proof.
  destruct (calculate_derived_metrics_spec sample_data) as [out [_ [_ [_ [H _]]]]].
  apply (H _ 35000%Q 1200%Q); [reflexivity | reflexivity | discriminate].
Defined.

(** Two records with a price: none is removed. *)
Lemma clean_price_spec_witness :
  exists out, clean_price near_duplicates = Ok out /\ out = near_duplicates.
Proof.
  destruct (clean_price_spec near_duplicates) as [out [E [_ H]]].
  exists out. split; [exact E|].
  destruct (H eq_refl) as [_ [_ [_ [_ Hsmall]]]].
  apply Hsmall; [simpl; lia | repeat constructor; discriminate].
Defined.

(** The sample frame has no [furnishing] column and gets one; the cells of
    [partly_furnished] stay as they are. *)
Lemma process_all_furnishing_witness :
  (exists out issues,
     process_all first_option sample_data = Ok (out, issues)
     /\ Forall furnished (rows out))
  /\ (exists out issues,
        process_all first_option partly_furnished = Ok (out, issues)
        /\ subseq (map furnishing_cell (rows out))
                  (map furnishing_cell (rows partly_furnished))).
Proof.
  split.
  - destruct (process_all first_option sample_data) as [[out issues]|e] eqn:E;
      [|vm_compute in E; discriminate E].
    exists out, issues. split; [reflexivity|].
    exact (proj1 (process_all_furnishing first_option sample_data out issues E) eq_refl).
  - destruct (process_all first_option partly_furnished) as [[out issues]|e] eqn:E;
      [|vm_compute in E; discriminate E].
    exists out, issues. split; [reflexivity|].
    exact (proj2 (process_all_furnishing first_option partly_furnished out issues E) eq_refl).
Defined.

(** A file that can be read is returned; no path at all is an error. *)
Lemma load_data_spec_witness :
  load_data disk_with_titles_only None (Some "data/raw/raw_rentals.csv")
  = disk_with_titles_only "data/raw/raw_rentals.csv"
  /\ load_data disk_with_titles_only None None
     = Raise (ValueError "No input file specified").
Proof.
  split.
  - apply (proj1 (load_data_spec disk_with_titles_only None
                    (Some "data/raw/raw_rentals.csv")) _ eq_refl).
    discriminate.
  - exact (proj2 (proj2 (load_data_spec disk_with_titles_only None None))
                 eq_refl eq_refl).
Defined.

(** The sample frame gets a furnishing column; [partly_furnished] is
    returned as it is. *)
Lemma add_furnishing_status_spec_witness :
  (exists out,
     add_furnishing_status first_option sample_data = Ok out
     /\ Forall furnished (rows out))
  /\ add_furnishing_status first_option partly_furnished = Ok partly_furnished.
Proof.
  split.
  - destruct (proj1 (add_furnishing_status_spec first_option sample_data) eq_refl)
      as [out [E [_ [_ H]]]].
    exists out. split; assumption.
  - exact (proj2 (add_furnishing_status_spec first_option partly_furnished) eq_refl).
Defined.

(** [clean_price] removes the record at label 8 from [sample_with_outlier]
    and the one at label 9, which has no price; the others keep their order. *)
Lemma stages_preserve_row_order_witness :
  exists out,
    run_stage first_option CleanPrice sample_with_outlier = Ok out
    /\ labels out = [0; 1; 2; 3; 4; 5; 6; 7; 10]
    /\ subseq (labels out) (labels sample_with_outlier).
Proof.
  destruct (run_stage first_option CleanPrice sample_with_outlier) as [out|e] eqn:E;
    [|vm_compute in E; discriminate E].
  exists out. split; [reflexivity|]. split.
  - vm_compute in E. injection E as <-. reflexivity.
  - exact (proj1 (stages_preserve_row_order first_option sample_with_outlier)
                 CleanPrice out E).
Defined.

(** * Further properties of the pipeline *)

(** ** [remove_duplicates]: which record of a key is kept *)

Section KeepFirst.

Lemma first_with_key_In r rs r' :
  first_with_key r rs = Some r' -> In r' rs /\ key_of r' = key_of r.
Proof.
  unfold first_with_key. intros H. apply find_some in H.
  destruct H as [Hin Hk]. apply key_eqb_eq in Hk. split; assumption.
Qed.

Lemma first_with_key_cons r x rs :
  first_with_key r (x :: rs)
  = if key_eqb (key_of x) (key_of r) then Some x else first_with_key r rs.
Proof. reflexivity. Qed.

Lemma drop_duplicates_first seen rs r :
  In r (drop_duplicates_from seen rs)
  <-> first_with_key r rs = Some r /\ ~ In (key_of r) seen.
Proof.
  revert seen. induction rs as [|x rs IH]; intros seen.
  - simpl. split; [intros [] | intros [H _]; discriminate H].
  - rewrite first_with_key_cons. simpl.
    destruct (existsb (key_eqb (key_of x)) seen) eqn:Ex.
    + apply seen_In in Ex. rewrite IH. split.
      * intros [Hf Hs]. split; [|exact Hs].
        destruct (key_eqb (key_of x) (key_of r)) eqn:Ek; [|exact Hf].
        apply key_eqb_eq in Ek. rewrite <- Ek in Hs. contradiction.
      * intros [Hf Hs]. split; [|exact Hs].
        destruct (key_eqb (key_of x) (key_of r)) eqn:Ek; [|exact Hf].
        injection Hf as ->. contradiction.
    + assert (Hx : ~ In (key_of x) seen).
      { intros Hin. apply seen_In in Hin. congruence. }
      simpl. rewrite IH. split.
      * intros [->|[Hf Hs]].
        -- assert (E : key_eqb (key_of r) (key_of r) = true) by (apply key_eqb_eq; reflexivity).
           rewrite E. split; [reflexivity | exact Hx].
        -- destruct (key_eqb (key_of x) (key_of r)) eqn:Ek.
           ++ apply key_eqb_eq in Ek. exfalso. apply Hs. left. exact Ek.
           ++ split; [exact Hf|]. intros Hin. apply Hs. right. exact Hin.
      * intros [Hf Hs].
        destruct (key_eqb (key_of x) (key_of r)) eqn:Ek.
        -- left. congruence.
        -- right. split; [exact Hf|]. intros [Hk|Hin]; [|contradiction].
           rewrite Hk in Ek.
           assert (E : key_eqb (key_of r) (key_of r) = true) by (apply key_eqb_eq; reflexivity).
           congruence.
Qed.

Lemma first_with_key_exists r rs :
  In r rs -> exists r', first_with_key r rs = Some r'.
Proof.
  intros Hin. unfold first_with_key.
  destruct (find (fun x => key_eqb (key_of x) (key_of r)) rs) as [r'|] eqn:E;
    [exists r'; reflexivity|].
  pose proof (find_none _ _ E r Hin) as H. simpl in H.
  assert (E' : key_eqb (key_of r) (key_of r) = true) by (apply key_eqb_eq; reflexivity).
  congruence.
Qed.

Lemma first_with_key_same r r' rs :
  key_of r' = key_of r -> first_with_key r' rs = first_with_key r rs.
Proof. unfold first_with_key. intros ->. reflexivity. Qed.

Lemma drop_duplicates_fixed seen rs :
  NoDup (map key_of rs) -> (forall r, In r rs -> ~ In (key_of r) seen) ->
  drop_duplicates_from seen rs = rs.
Proof.
  revert seen. induction rs as [|x rs IH]; intros seen Hn Hs; [reflexivity|].
  simpl. inversion Hn as [|k ks Hk Hn']; subst.
  destruct (existsb (key_eqb (key_of x)) seen) eqn:Ex.
  - apply seen_In in Ex. exfalso. apply (Hs x); [left; reflexivity | exact Ex].
  - f_equal. apply IH; [exact Hn'|].
    intros r Hr [Hk'|Hin].
    + apply Hk. rewrite Hk'. apply in_map. exact Hr.
    + apply (Hs r); [right; exact Hr | exact Hin].
Qed.

(** X1.  On a frame that has columns, [remove_duplicates] keeps of every
    (title, location) pair the first record that carries it, and no
    other: a record is in the output exactly when it is the first record
    of the input with its pair, and every pair of the input is still
    there. *)
Theorem remove_duplicates_keeps_first (df out : DataFrame) :
  remove_duplicates df = Ok out -> columns df <> [] ->
  (forall r, In r (rows out) <-> first_with_key r (rows df) = Some r)
  /\ (forall r, In r (rows df) ->
        exists r', In r' (rows out) /\ key_of r' = key_of r).
Proof.
  intros H Hcols.
  assert (Hrows : rows out = drop_duplicates_from [] (rows df)).
  { unfold remove_duplicates in H. destruct (empty df) eqn:Ee.
    - injection H as <-. unfold empty in Ee.
      destruct (rows df); [reflexivity|].
      destruct (columns df); [contradiction | discriminate].
    - destruct (missing_label _ df); [discriminate|]. injection H as <-. reflexivity. }
  rewrite Hrows. split.
  - intros r. rewrite drop_duplicates_first. simpl. tauto.
  - intros r Hin. destruct (first_with_key_exists r _ Hin) as [r' Hf].
    destruct (first_with_key_In _ _ _ Hf) as [_ Hk].
    exists r'. split; [|exact Hk].
    apply drop_duplicates_first. split; [|simpl; tauto].
    rewrite (first_with_key_same r r' _ Hk). exact Hf.
Qed.

(** X2.  [remove_duplicates] is idempotent: on its own output it returns
    that output. *)
Theorem remove_duplicates_idempotent (df out : DataFrame) :
  remove_duplicates df = Ok out -> remove_duplicates out = Ok out.
Proof.
  unfold remove_duplicates at 1. destruct (empty df) eqn:Ee; [intros [= <-]|].
  - unfold remove_duplicates. rewrite Ee. reflexivity.
  - destruct (missing_label _ df) eqn:Em; [discriminate|]. intros [= <-].
    unfold remove_duplicates.
    destruct (empty (set_rows df (drop_duplicates_from [] (rows df)))); [reflexivity|].
    change (missing_label ["title"; "location"]
              (set_rows df (drop_duplicates_from [] (rows df))))
      with (missing_label ["title"; "location"] df).
    rewrite Em. unfold set_rows. cbn [columns rows]. do 2 f_equal.
    apply drop_duplicates_fixed; [apply drop_duplicates_NoDup | intros r _ []].
Qed.

End KeepFirst.

(** ** [handle_missing_values]: the values that are filled in *)

Section Imputation.

Lemma insert_sorted_Z_HdRel a x l :
  (a <= x)%Z -> HdRel Z.le a l -> HdRel Z.le a (insert_sorted Z.leb x l).
Proof.
  intros Hax Hl. destruct l as [|y l]; simpl; [constructor; exact Hax|].
  destruct (Z.leb x y); constructor; [exact Hax|]. inversion Hl; assumption.
Qed.

Lemma insert_sorted_Z_Sorted x l :
  Sorted Z.le l -> Sorted Z.le (insert_sorted Z.leb x l).
Proof.
  induction 1 as [|y l Hs IH Hd]; simpl; [repeat constructor|].
  destruct (Z.leb_spec x y) as [Hle|Hlt].
  - constructor; [constructor; assumption|]. constructor. exact Hle.
  - constructor; [exact IH|]. apply insert_sorted_Z_HdRel; [lia | exact Hd].
Qed.

Lemma sort_Z_Sorted l : Sorted Z.le (sort Z.leb l).
Proof.
  induction l as [|x l IH]; simpl; [constructor | apply insert_sorted_Z_Sorted, IH].
Qed.

(** The head of a sorted list is its least element. *)
Lemma sorted_Z_head m ms x :
  Sorted Z.le (m :: ms) -> In x (m :: ms) -> (m <= x)%Z.
Proof.
  intros Hs Hin. apply Sorted_StronglySorted in Hs; [|intros a b c; apply Z.le_trans].
  inversion Hs as [|? ? _ Hall]; subst. destruct Hin as [<-|Hin]; [lia|].
  rewrite Forall_forall in Hall. apply Hall. exact Hin.
Qed.

Lemma count_le_max_count x l l' :
  In x l' -> count x l <= fold_right Nat.max 0 (map (fun y => count y l) l').
Proof.
  induction l' as [|y l' IH]; simpl; [intros []|].
  intros [->|Hin]; [lia|]. specialize (IH Hin). lia.
Qed.

Lemma max_count_attained l l' :
  l' <> [] ->
  exists x, In x l' /\ count x l = fold_right Nat.max 0 (map (fun y => count y l) l').
Proof.
  induction l' as [|y l' IH]; [intros H; contradiction|]. intros _.
  destruct l' as [|z l''].
  - exists y. split; [left; reflexivity | simpl; lia].
  - destruct (IH ltac:(discriminate)) as [x [Hin Hx]].
    simpl fold_right at 1. simpl map.
    destruct (Nat.le_ge_cases (count y l)
                (fold_right Nat.max 0 (map (fun y0 => count y0 l) (z :: l'')))) as [Hle|Hge].
    + exists x. split; [right; exact Hin|]. simpl in *. lia.
    + exists y. split; [left; reflexivity|]. simpl in *. lia.
Qed.

(** The members of [mode col]: the present values of greatest count. *)
Lemma mode_In col x :
  In x (mode col)
  <-> In x (present col) /\ count x (present col) = max_count (present col).
Proof.
  unfold mode. split.
  - intros H. apply (Permutation_in _ (Permutation_sym (sort_perm Z.leb _))) in H.
    apply nodup_In, filter_In in H. destruct H as [Hin Hc].
    apply Nat.eqb_eq in Hc. split; assumption.
  - intros [Hin Hc]. apply (Permutation_in _ (sort_perm Z.leb _)).
    apply nodup_In, filter_In. split; [exact Hin | apply Nat.eqb_eq; exact Hc].
Qed.

Lemma mode_nonempty col : present col <> [] -> mode col <> [].
Proof.
  intros Hne Hm. destruct (max_count_attained (present col) (present col) Hne) as [x [Hin Hx]].
  assert (H : In x (mode col)) by (apply mode_In; split; assumption).
  rewrite Hm in H. destruct H.
Qed.

(** What [mode()[0]] is: a present value that no other present value
    outnumbers, the least of those that tie with it. *)
Lemma mode_head col m ms :
  mode col = m :: ms ->
  In (Some m) col
  /\ forall x, In (Some x) col ->
       count x (present col) <= count m (present col)
       /\ (count x (present col) = count m (present col) -> (m <= x)%Z).
Proof.
  intros Hm.
  assert (Hmin : In m (mode col)) by (rewrite Hm; left; reflexivity).
  apply mode_In in Hmin. destruct Hmin as [Hin Hc].
  split; [apply present_In; exact Hin|].
  intros x Hx. apply present_In in Hx. split.
  - rewrite Hc. apply count_le_max_count. exact Hx.
  - intros He. apply (sorted_Z_head m ms).
    + rewrite <- Hm. apply sort_Z_Sorted.
    + rewrite <- Hm. apply mode_In. split; [exact Hx | congruence].
Qed.

Lemma present_nil_iff {A : Type} (col : list (option A)) :
  present col = [] <-> Forall (fun c => c = None) col.
Proof.
  induction col as [|[x|] col IH]; simpl.
  - split; [constructor | reflexivity].
  - split; [discriminate | intros H; inversion H; discriminate].
  - rewrite IH. split; [intros H; constructor; [reflexivity | exact H]|].
    intros H. inversion H; assumption.
Qed.

Lemma median_None col : median col = None <-> present col = [].
Proof.
  unfold median. split.
  - destruct (sort Qle_bool (present col)) as [|a s] eqn:E.
    + intros _. pose proof (Permutation_length (sort_perm Qle_bool (present col))) as Hl.
      rewrite E in Hl. destruct (present col); [reflexivity | discriminate Hl].
    + destruct (Nat.even _); discriminate.
  - intros ->. reflexivity.
Qed.

(** The median is one present value, or the mean of two. *)
Lemma median_between col med :
  median col = Some med ->
  exists a b, In (Some a) col /\ In (Some b) col /\ (a <= med <= b)%Q.
Proof.
  unfold median.
  pose proof (sort_perm Qle_bool (present col)) as Hp.
  destruct (sort Qle_bool (present col)) as [|a0 s0] eqn:E; [discriminate|].
  rewrite <- E in *. set (s := sort Qle_bool (present col)) in *.
  assert (Hn : 0 < List.length s) by (rewrite E; simpl; lia).
  assert (Hnth : forall i, i < List.length s -> In (Some (nth i s 0%Q)) col).
  { intros i Hi. apply present_In.
    apply (Permutation_in _ (Permutation_sym Hp)). apply nth_In. exact Hi. }
  assert (Hhalf : List.length s / 2 < List.length s)
    by (apply Nat.div_lt; lia).
  destruct (Nat.even (List.length s)) eqn:Ev; intros [= <-];
    change (fst (Nat.divmod (List.length s) 1 0 1)) with (List.length s / 2).
  - set (x := nth (List.length s / 2 - 1) s 0%Q). set (y := nth (List.length s / 2) s 0%Q).
    assert (Hx : In (Some x) col) by (apply Hnth; lia).
    assert (Hy : In (Some y) col) by (apply Hnth; exact Hhalf).
    unfold Qdiv. change (/ 2)%Q with (1 # 2)%Q.
    destruct (Qlt_le_dec y x) as [Hlt|Hle].
    + exists y, x. repeat split; try assumption; lra.
    + exists x, y. repeat split; try assumption; lra.
  - exists (nth (List.length s / 2) s 0%Q), (nth (List.length s / 2) s 0%Q).
    repeat split; try (apply Hnth; exact Hhalf); lra.
Qed.

End Imputation.

Section ImputedRecords.

Variable df : DataFrame.
Variable kept : list Listing.

Lemma imputed_bhk r :
  bhk (imputed df kept r)
  = if has_column "bhk" df then fillna (hd_error (mode (map bhk kept))) (bhk r) else bhk r.
Proof. reflexivity. Qed.

Lemma imputed_area_sqft r :
  area_sqft (imputed df kept r)
  = if has_column "area_sqft" df
    then fillna (median (map area_sqft kept)) (area_sqft r)
    else area_sqft r.
Proof. reflexivity. Qed.

Lemma imputed_fixed r :
  bhk (imputed df kept r) = bhk r -> area_sqft (imputed df kept r) = area_sqft r ->
  imputed df kept r = r.
Proof.
  rewrite imputed_bhk, imputed_area_sqft. unfold imputed. intros -> ->.
  destruct r; reflexivity.
Qed.

End ImputedRecords.

Lemma Forall2_map_r {A B : Type} (R : A -> B -> Prop) (f : A -> B) (l : list A) :
  (forall x, In x l -> R x (f x)) -> Forall2 R l (map f l).
Proof.
  induction l as [|x l IH]; intros H; simpl; constructor.
  - apply H. left. reflexivity.
  - apply IH. intros y Hy. apply H. right. exact Hy.
Qed.

Lemma handle_missing_values_mode df out :
  handle_missing_values df = Ok out -> has_column "bhk" df = true ->
  exists m ms, mode (map bhk (dropna (rows df))) = m :: ms.
Proof.
  rewrite handle_missing_values_eq. cbv zeta.
  destruct (missing_label critical_fields df); [discriminate|].
  intros H Hb. rewrite Hb in H.
  destruct (mode (map bhk (dropna (rows df)))) as [|m ms]; [discriminate|].
  exists m, ms. reflexivity.
Qed.

Lemma resolved_bhk_present df out :
  handle_missing_values df = Ok out -> has_column "bhk" df = true ->
  Forall (fun r' => bhk r' <> None) (rows out).
Proof.
  intros H Hb.
  destruct (handle_missing_values_result df out H) as [_ Hr].
  destruct (handle_missing_values_mode df out H Hb) as [m [ms Hm]].
  rewrite Hr. apply Forall_forall. intros r' Hin. apply in_map_iff in Hin.
  destruct Hin as [r [<- _]]. rewrite imputed_bhk, Hb, Hm. cbn [hd_error].
  destruct (bhk r); discriminate.
Qed.

(** X3.  With a [bhk] column, the resolver leaves a present [bhk] as it is
    and fills a missing one with a value that occurs among the kept
    records at least as often as any other, the smallest of those that
    tie; afterwards no [bhk] is missing. *)
Theorem handle_missing_values_bhk (df out : DataFrame) :
  handle_missing_values df = Ok out -> has_column "bhk" df = true ->
  let kept := dropna (rows df) in
  Forall2 (fun r r' =>
             match bhk r with
             | Some b => bhk r' = Some b
             | None => exists m, bhk r' = Some m /\ most_frequent (map bhk kept) m
             end) kept (rows out)
  /\ Forall (fun r' => bhk r' <> None) (rows out).
Proof.
  intros H Hb kept.
  destruct (handle_missing_values_result df out H) as [_ Hr].
  destruct (handle_missing_values_mode df out H Hb) as [m [ms Hm]].
  fold kept in Hr, Hm. split; [|exact (resolved_bhk_present df out H Hb)].
  rewrite Hr. apply Forall2_map_r. intros r _.
  rewrite imputed_bhk, Hb, Hm. cbn [hd_error].
  destruct (bhk r) as [b|]; [reflexivity|].
  exists m. split; [reflexivity | exact (mode_head _ _ _ Hm)].
Qed.

(** X4.  With an [area_sqft] column, the resolver leaves a present area as
    it is and fills a missing one with the median of the kept records,
    which lies between two of their areas; an area stays missing only
    when no kept record has one. *)
Theorem handle_missing_values_area_sqft (df out : DataFrame) :
  handle_missing_values df = Ok out -> has_column "area_sqft" df = true ->
  let kept := dropna (rows df) in
  Forall2 (fun r r' =>
             match area_sqft r, area_sqft r' with
             | Some a, cell => cell = Some a
             | None, Some v =>
                 median (map area_sqft kept) = Some v
                 /\ within_observed (map area_sqft kept) v
             | None, None => Forall (fun x => area_sqft x = None) kept
             end) kept (rows out).
Proof.
  intros H Ha kept.
  destruct (handle_missing_values_result df out H) as [_ Hr].
  fold kept in Hr. rewrite Hr.
  apply Forall2_map_r. intros r _. rewrite imputed_area_sqft, Ha.
  destruct (area_sqft r) as [a|]; [reflexivity|]. cbn [fillna].
  destruct (median (map area_sqft kept)) as [v|] eqn:Em.
  - split; [reflexivity | exact (median_between _ _ Em)].
  - apply median_None, present_nil_iff in Em.
    rewrite Forall_map in Em. exact Em.
Qed.

Lemma missing_label_as_columns subset df df' :
  columns df' = columns df -> missing_label subset df' = missing_label subset df.
Proof.
  intros Hc. induction subset as [|c subset IH]; simpl; [reflexivity|].
  rewrite (has_column_as_columns c _ _ Hc), IH. reflexivity.
Qed.

Lemma filter_all {A : Type} (p : A -> bool) (l : list A) :
  (forall x, In x l -> p x = true) -> filter p l = l.
Proof.
  induction l as [|x l IH]; intros H; simpl; [reflexivity|].
  rewrite (H x (or_introl eq_refl)). f_equal. apply IH.
  intros y Hy. apply H. right. exact Hy.
Qed.

Lemma present_some_nonempty {A : Type} (col : list (option A)) :
  col <> [] -> Forall (fun c => c <> None) col -> present col <> [].
Proof.
  destruct col as [|[x|] col]; [contradiction | discriminate |].
  intros _ H. inversion H; contradiction.
Qed.

(** X5.  The resolver is idempotent: on its own output it drops nothing,
    fills nothing and returns that output. *)
Theorem handle_missing_values_idempotent (df out : DataFrame) :
  handle_missing_values df = Ok out -> handle_missing_values out = Ok out.
Proof.
  intros H.
  destruct (handle_missing_values_result df out H) as [Hc Hr].
  pose proof (proj1 (handle_missing_values_returns df) (ex_intro _ out H)) as [Hcrit _].
  set (kept := dropna (rows df)) in *.
  assert (Hcomplete : forall r', In r' (rows out) -> has_critical r' = true).
  { intros r' Hin. rewrite Hr in Hin. apply in_map_iff in Hin.
    destruct Hin as [r [<- Hk]]. apply has_critical_complete, imputed_complete.
    apply dropna_In in Hk. apply Hk. }
  assert (Hdrop : dropna (rows out) = rows out) by (apply filter_all; exact Hcomplete).
  assert (Hfix : map (imputed out (rows out)) (rows out) = rows out).
  { rewrite <- (map_id (rows out)) at 3. apply map_ext_in. intros r' Hin.
    apply imputed_fixed.
    - rewrite imputed_bhk, (has_column_as_columns "bhk" _ _ Hc).
      destruct (has_column "bhk" df) eqn:Hb; [|reflexivity].
      pose proof (resolved_bhk_present df out H Hb) as Hall.
      rewrite Forall_forall in Hall. specialize (Hall r' Hin).
      destruct (bhk r'); [reflexivity | contradiction].
    - rewrite imputed_area_sqft, (has_column_as_columns "area_sqft" _ _ Hc).
      destruct (has_column "area_sqft" df) eqn:Ha; [|reflexivity].
      destruct (area_sqft r') as [a|] eqn:Ea; [reflexivity|]. cbn [fillna].
      assert (Hnone : median (map area_sqft kept) = None).
      { rewrite Hr in Hin. apply in_map_iff in Hin. destruct Hin as [r [<- _]].
        rewrite imputed_area_sqft, Ha in Ea.
        destruct (area_sqft r); [discriminate Ea | exact Ea]. }
      apply median_None. apply present_nil_iff. rewrite Forall_map.
      apply Forall_forall. intros x Hx. rewrite Hr in Hx. apply in_map_iff in Hx.
      destruct Hx as [r [<- Hk]]. rewrite imputed_area_sqft, Ha, Hnone.
      apply median_None, present_nil_iff in Hnone. rewrite Forall_map in Hnone.
      rewrite Forall_forall in Hnone. rewrite (Hnone r Hk). reflexivity. }
  rewrite handle_missing_values_eq. cbv zeta.
  rewrite (missing_label_as_columns _ _ _ Hc), Hcrit, Hdrop, Hfix.
  rewrite (has_column_as_columns "bhk" _ _ Hc).
  assert (Hout : {| columns := columns out; rows := rows out |} = out)
    by (destruct out; reflexivity).
  rewrite Hout.
  destruct (has_column "bhk" df) eqn:Hb; [|reflexivity].
  destruct (mode (map bhk (rows out))) as [|m' ms'] eqn:Hm'; [|reflexivity].
  exfalso. revert Hm'. apply mode_nonempty.
  pose proof (resolved_bhk_present df out H Hb) as Hall.
  destruct (handle_missing_values_mode df out H Hb) as [m [ms Hm]].
  apply present_some_nonempty.
  - rewrite Hr. fold kept in Hm. destruct kept; [discriminate Hm | discriminate].
  - rewrite Forall_map. exact Hall.
Qed.

(** *** The median and the mode, by counting *)

Section MedianFacts.

Lemma filter_length_perm {A : Type} (p : A -> bool) (l l' : list A) :
  Permutation l l' -> List.length (filter p l) = List.length (filter p l').
Proof.
  induction 1 as [|x l l' _ IH|x y l|l l' l'' _ IH1 _ IH2]; simpl.
  - reflexivity.
  - destruct (p x); simpl; congruence.
  - destruct (p x), (p y); reflexivity.
  - congruence.
Qed.

Lemma count_below_least a s : Forall (Qle a) s -> count_below a s = 0.
Proof.
  unfold count_below. induction 1 as [|y s Hy _ IH]; [reflexivity|].
  cbn [filter]. unfold Qlt_bool at 1. apply Qle_bool_iff in Hy. rewrite Hy.
  cbn [negb]. exact IH.
Qed.

(** In a sorted list fewer than [k + 1] values lie below the one at
    position [k], and more than [k] do not lie above it. *)
Lemma sorted_order_statistic s :
  StronglySorted Qle s ->
  forall k, k < List.length s ->
    count_below (nth k s 0%Q) s <= k /\ k < count_upto (nth k s 0%Q) s.
Proof.
  induction 1 as [|a s Hs IH Ha]; intros k Hk; [simpl in Hk; lia|].
  assert (Haa : Qle_bool a a = true) by (apply Qle_bool_iff, Qle_refl).
  destruct k as [|k]; cbn [nth].
  - split.
    + unfold count_below. cbn [filter]. unfold Qlt_bool at 1. rewrite Haa. cbn [negb].
      fold (count_below a s). rewrite (count_below_least a s Ha). lia.
    + unfold count_upto. cbn [filter]. rewrite Haa. simpl. lia.
  - simpl in Hk. assert (Hk' : k < List.length s) by lia.
    destruct (IH k Hk') as [H1 H2].
    assert (Hax : Qle_bool a (nth k s 0%Q) = true).
    { apply Qle_bool_iff. rewrite Forall_forall in Ha. apply Ha, nth_In. exact Hk'. }
    split.
    + unfold count_below in *. cbn [filter].
      destruct (Qlt_bool a (nth k s 0%Q)); simpl; lia.
    + unfold count_upto in *. cbn [filter]. rewrite Hax. simpl. lia.
Qed.

Lemma order_statistic_sorted xs k :
  k < List.length xs -> order_statistic xs k (nth k (sort Qle_bool xs) 0%Q).
Proof.
  intros Hk. pose proof (sort_perm Qle_bool xs) as Hp.
  pose proof (Permutation_length Hp) as Hl.
  assert (Hss : StronglySorted Qle (sort Qle_bool xs)).
  { apply Sorted_StronglySorted; [intros a b c; apply Qle_trans | apply sort_Sorted]. }
  assert (Hk' : k < List.length (sort Qle_bool xs)) by lia.
  destruct (sorted_order_statistic _ Hss k Hk') as [H1 H2].
  split; [apply (Permutation_in _ (Permutation_sym Hp)), nth_In; exact Hk'|].
  unfold count_below, count_upto in *.
  rewrite (filter_length_perm (fun y => Qlt_bool y (nth k (sort Qle_bool xs) 0%Q)) _ _ Hp).
  rewrite (filter_length_perm (fun y => Qle_bool y (nth k (sort Qle_bool xs) 0%Q)) _ _ Hp).
  split; assumption.
Qed.

(** What [Series.median] returns is the median by counting. *)
Lemma median_is_median col v : median col = Some v -> is_median (present col) v.
Proof.
  unfold median. set (xs := present col).
  pose proof (Permutation_length (sort_perm Qle_bool xs)) as Hl.
  destruct (sort Qle_bool xs) as [|a0 s0] eqn:E; [discriminate|].
  rewrite <- E in *. rewrite <- Hl.
  assert (Hn : 0 < List.length xs) by (rewrite Hl, E; simpl; lia).
  destruct (Nat.even (List.length xs)) eqn:Ev; intros [= <-];
    change (fst (Nat.divmod (List.length xs) 1 0 1)) with (List.length xs / 2).
  - apply Nat.even_spec in Ev. destruct Ev as [m Hm].
    assert (E1 : (List.length xs - 1) / 2 = m - 1)
      by (symmetry; apply (Nat.div_unique _ 2 _ 1); lia).
    assert (E2 : List.length xs / 2 = m)
      by (symmetry; apply (Nat.div_unique _ 2 _ 0); lia).
    exists (nth (List.length xs / 2 - 1) (sort Qle_bool xs) 0%Q),
           (nth (List.length xs / 2) (sort Qle_bool xs) 0%Q).
    rewrite E1, E2. split; [apply order_statistic_sorted; lia|].
    split; [apply order_statistic_sorted; lia | apply Qeq_refl].
  - assert (Ho : Nat.odd (List.length xs) = true)
      by (rewrite <- Nat.negb_even, Ev; reflexivity).
    apply Nat.odd_spec in Ho. destruct Ho as [m Hm].
    assert (E1 : (List.length xs - 1) / 2 = m)
      by (symmetry; apply (Nat.div_unique _ 2 _ 0); lia).
    assert (E2 : List.length xs / 2 = m)
      by (symmetry; apply (Nat.div_unique _ 2 _ 1); lia).
    exists (nth (List.length xs / 2) (sort Qle_bool xs) 0%Q),
           (nth (List.length xs / 2) (sort Qle_bool xs) 0%Q).
    rewrite E1, E2. split; [apply order_statistic_sorted; lia|].
    split; [apply order_statistic_sorted; lia|].
    unfold Qdiv. change (/ 2)%Q with (1 # 2)%Q. lra.
Qed.

Lemma mode_nonempty_iff col : mode col <> [] <-> present col <> [].
Proof.
  split; [|apply mode_nonempty].
  intros H Hp. apply H. unfold mode. rewrite Hp. reflexivity.
Qed.

Lemma present_bhk_nonempty rs :
  present (map bhk rs) <> [] <-> exists r, In r rs /\ bhk r <> None.
Proof.
  induction rs as [|r rs IH]; simpl.
  - split; [intros H; contradiction | intros [r [[] _]]].
  - destruct (bhk r) as [b|] eqn:Eb.
    + split; [intros _ | discriminate].
      exists r. split; [left; reflexivity | rewrite Eb; discriminate].
    + rewrite IH. split.
      * intros [x [Hin Hx]]. exists x. split; [right; exact Hin | exact Hx].
      * intros [x [[<-|Hin] Hx]]; [contradiction | exists x; split; assumption].
Qed.

End MedianFacts.

Lemma subseq_dropna l rs :
  subseq l rs -> Forall complete l -> subseq l (dropna rs).
Proof.
  unfold dropna. induction 1 as [|x l1 l2 _ IH|x l1 l2 _ IH]; intros Hall; simpl.
  - constructor.
  - destruct (has_critical x); [apply subseq_skip|]; apply IH; exact Hall.
  - inversion Hall as [|? ? Hx Hrest]; subst.
    rewrite (proj2 (has_critical_complete x) Hx). cbv iota. apply subseq_keep.
    apply IH. exact Hrest.
Qed.

(** C7.  The drop phase keeps, in order, exactly the records that have a
    title, a price and a location, every such record as often as it
    occurs.  When the stage returns, its records
    are the kept ones, each with its other cells as they were, a missing
    [bhk] filled by the mode and a missing [area_sqft] filled by the
    median, both taken over the kept records and not over the input: the
    mode is a value that no other outnumbers among the kept records (the
    least on a tie), the median the middle one of their areas in ascending
    order (the mean of the two middle ones).  Every record then has the
    three critical cells.  The stage returns exactly when the three
    critical columns exist and, with a [bhk] column, some kept record has a
    [bhk]. *)
Theorem handle_missing_values_spec (df : DataFrame) :
  let kept := dropna (rows df) in
  (forall r, In r kept <-> In r (rows df) /\ complete r)
  /\ subseq kept (rows df)
  /\ (forall l, subseq l (rows df) -> Forall complete l -> subseq l kept)
  /\ (forall out,
        handle_missing_values df = Ok out ->
        columns out = columns df
        /\ Forall2 (fun r r' =>
                      unfilled_cells r' = unfilled_cells r
                      /\ bhk_filled df kept r r'
                      /\ area_sqft_filled df kept r r') kept (rows out)
        /\ Forall complete (rows out))
  /\ ((exists out, handle_missing_values df = Ok out)
      <-> missing_label critical_fields df = None
          /\ (has_column "bhk" df = true -> exists r, In r kept /\ bhk r <> None)).
Proof.
  intros kept. split; [intros r; apply dropna_In|].
  split; [apply subseq_filter|].
  split; [intros l Hl Hall; apply subseq_dropna; assumption|]. split.
  - intros out H. destruct (handle_missing_values_result df out H) as [Hc Hr].
    fold kept in Hr. split; [exact Hc|]. split.
    + rewrite Hr. apply Forall2_map_r. intros r _. split; [reflexivity|]. split.
      * unfold bhk_filled. rewrite imputed_bhk.
        destruct (has_column "bhk" df) eqn:Hb; [|reflexivity].
        destruct (handle_missing_values_mode df out H Hb) as [m [ms Hm]].
        fold kept in Hm. rewrite Hm. cbn [hd_error].
        destruct (bhk r) as [b|]; [reflexivity|].
        exists m. split; [reflexivity | exact (mode_head _ _ _ Hm)].
      * unfold area_sqft_filled. rewrite imputed_area_sqft.
        destruct (has_column "area_sqft" df); [|reflexivity].
        destruct (area_sqft r) as [a|]; [reflexivity|]. cbn [fillna].
        destruct (median (map area_sqft kept)) as [v|] eqn:Em.
        -- exact (median_is_median _ _ Em).
        -- apply median_None. exact Em.
    + rewrite Hr. apply Forall_forall. intros r Hin. apply in_map_iff in Hin.
      destruct Hin as [r0 [<- Hr0]]. apply imputed_complete.
      apply dropna_In in Hr0. apply Hr0.
  - rewrite handle_missing_values_returns. fold kept.
    rewrite mode_nonempty_iff, present_bhk_nonempty. reflexivity.
Qed.

(** In [dropped_and_filled] the record without a price is dropped first;
    the last record then gets 3 and 1000, the mode and the median of the
    three records that are left with it, where the input as a whole has
    the mode 1 and the median 800. *)
Lemma handle_missing_values_spec_witness :
  exists out,
    handle_missing_values dropped_and_filled = Ok out
    /\ labels out = [0; 1; 2; 4]
    /\ nth_error (map bhk (rows out)) 3 = Some (Some 3%Z)
    /\ nth_error (map area_sqft (rows out)) 3 = Some (Some 1000%Q)
    /\ hd_error (mode (map bhk (rows dropped_and_filled))) = Some 1%Z
    /\ median (map area_sqft (rows dropped_and_filled)) = Some (1600 # 2)%Q
    /\ Forall complete (rows out).
Proof.
  destruct (handle_missing_values dropped_and_filled) as [out|e] eqn:E;
    [|vm_compute in E; discriminate E].
  destruct (handle_missing_values_spec dropped_and_filled) as [_ [_ [_ [H _]]]].
  destruct (H out E) as [_ [_ Hc]].
  exists out. split; [reflexivity|].
  split; [vm_compute in E; injection E as <-; reflexivity|].
  split; [vm_compute in E; injection E as <-; reflexivity|].
  split; [vm_compute in E; injection E as <-; reflexivity|].
  split; [reflexivity|]. split; [reflexivity | exact Hc].
Defined.


(** ** [clean_price]: the quartiles and what always survives *)

Section Quartiles.

Lemma sorted_nth_le s i j :
  Sorted Qle s -> i <= j -> j < List.length s -> (nth i s 0 <= nth j s 0)%Q.
Proof.
  intros Hs. apply Sorted_StronglySorted in Hs; [|intros a b c; apply Qle_trans].
  revert i j. induction Hs as [|x s Hs IH Hall]; intros i j Hij Hj; [simpl in Hj; lia|].
  destruct i as [|i], j as [|j]; simpl in *; try lia.
  - apply Qle_refl.
  - rewrite Forall_forall in Hall. apply Hall. apply nth_In. lia.
  - apply IH; lia.
Qed.

(** Where the position [(n - 1) q] falls, for [q] between 0 and 1. *)
Lemma position_bounds (n : nat) (q : Q) :
  (0 <= q <= 1)%Q ->
  let h := (inject_Z (Z.of_nat (n - 1)) * q)%Q in
  Z.to_nat (Qfloor h) <= n - 1
  /\ (0 <= h - inject_Z (Qfloor h) < 1)%Q
  /\ (0 <= Qfloor h)%Z.
Proof.
  intros Hq h.
  assert (Hn : (0 <= inject_Z (Z.of_nat (n - 1)))%Q).
  { change 0%Q with (inject_Z 0). rewrite <- Zle_Qle. lia. }
  assert (Hh : (0 <= h <= inject_Z (Z.of_nat (n - 1)))%Q) by (unfold h; split; nra).
  assert (H0 : (0 <= Qfloor h)%Z).
  { change 0%Z with (Qfloor 0). apply Qfloor_resp_le, Hh. }
  assert (H1 : (Qfloor h <= Z.of_nat (n - 1))%Z).
  { rewrite <- (Qfloor_Z (Z.of_nat (n - 1))). apply Qfloor_resp_le, Hh. }
  split; [lia|]. split; [|exact H0].
  pose proof (Qfloor_le h) as Hl. pose proof (Qlt_floor h) as Hu.
  rewrite inject_Z_plus in Hu. change (inject_Z 1) with 1%Q in Hu. split; lra.
Qed.

Lemma quantile_sorted_eq s q :
  s <> [] ->
  quantile_sorted s q
  = Some (nth (Z.to_nat (Qfloor (inject_Z (Z.of_nat (List.length s - 1)) * q))) s 0
          + (nth (Nat.min (Z.to_nat (Qfloor (inject_Z (Z.of_nat (List.length s - 1)) * q)) + 1)
                          (List.length s - 1)) s 0
             - nth (Z.to_nat (Qfloor (inject_Z (Z.of_nat (List.length s - 1)) * q))) s 0)
            * (inject_Z (Z.of_nat (List.length s - 1)) * q
               - inject_Z (Qfloor (inject_Z (Z.of_nat (List.length s - 1)) * q))))%Q.
Proof. destruct s; [contradiction | reflexivity]. Qed.

(** A quantile of a sorted sample lies between the two order statistics
    around its position. *)
Lemma quantile_sorted_between s q :
  Sorted Qle s -> s <> [] -> (0 <= q <= 1)%Q ->
  let n := List.length s in
  let lo := Z.to_nat (Qfloor (inject_Z (Z.of_nat (n - 1)) * q)) in
  exists v,
    quantile_sorted s q = Some v
    /\ lo <= n - 1
    /\ (nth lo s 0 <= v <= nth (Nat.min (lo + 1) (n - 1)) s 0)%Q.
Proof.
  intros Hs Hne Hq n lo.
  destruct (position_bounds n q Hq) as [Hlo [Hg _]].
  fold lo in Hlo.
  assert (Hn : 0 < n) by (unfold n; destruct s; [contradiction | simpl; lia]).
  assert (Hab : (nth lo s 0 <= nth (Nat.min (lo + 1) (n - 1)) s 0)%Q).
  { apply sorted_nth_le; [exact Hs | lia | fold n; lia]. }
  rewrite (quantile_sorted_eq s q Hne). fold n. fold lo.
  eexists. split; [reflexivity|]. split; [exact Hlo|].
  set (g := (inject_Z (Z.of_nat (n - 1)) * q
             - inject_Z (Qfloor (inject_Z (Z.of_nat (n - 1)) * q)))%Q) in *.
  set (a := nth lo s 0%Q) in *.
  set (b := nth (Nat.min (lo + 1) (n - 1)) s 0%Q) in *.
  split; nra.
Qed.

(** The first quartile is never above the third, and the element at the
    position of the third quartile lies within the bounds. *)
Lemma quartiles_ordered s :
  Sorted Qle s -> s <> [] ->
  exists q1 q3 x,
    quantile_sorted s (1 # 4) = Some q1
    /\ quantile_sorted s (3 # 4) = Some q3
    /\ (q1 <= q3)%Q
    /\ In x s
    /\ (q1 - 3 * (q3 - q1) <= x <= q3 + 3 * (q3 - q1))%Q.
Proof.
  intros Hs Hne.
  set (n := List.length s).
  assert (Hn : 0 < n) by (unfold n; destruct s; [contradiction | simpl; lia]).
  assert (H14 : (0 <= 1 # 4 <= 1)%Q) by lra.
  assert (H34 : (0 <= 3 # 4 <= 1)%Q) by lra.
  destruct (quantile_sorted_between s (1 # 4) Hs Hne H14) as [q1 [E1 [L1 B1]]].
  destruct (quantile_sorted_between s (3 # 4) Hs Hne H34) as [q3 [E3 [L3 B3]]].
  destruct (position_bounds n (1 # 4) H14) as [_ [G1 P1]].
  destruct (position_bounds n (3 # 4) H34) as [_ [G3 P3]].
  fold n in L1, L3, B1, B3.
  set (N := inject_Z (Z.of_nat (n - 1))) in *.
  assert (HN : (0 <= N)%Q).
  { unfold N. change 0%Q with (inject_Z 0). rewrite <- Zle_Qle. lia. }
  set (f1 := Qfloor (N * (1 # 4))) in *. set (f3 := Qfloor (N * (3 # 4))) in *.
  assert (Hf : (f1 <= f3)%Z) by (apply Qfloor_resp_le; lra).
  set (lo1 := Z.to_nat f1) in *. set (lo3 := Z.to_nat f3) in *.
  exists q1, q3, (nth lo3 s 0%Q).
  split; [exact E1|]. split; [exact E3|].
  assert (Hin : In (nth lo3 s 0%Q) s) by (apply nth_In; fold n; lia).
  destruct (Z.eq_dec f1 f3) as [Heq|Hneq].
  - (* both quartiles between the same two order statistics *)
    assert (Hlo : lo1 = lo3) by (unfold lo1, lo3; congruence).
    rewrite (quantile_sorted_eq s _ Hne) in E1.
    rewrite (quantile_sorted_eq s _ Hne) in E3.
    fold n in E1, E3. fold N in E1, E3. fold f1 in E1. fold f3 in E3.
    fold lo1 in E1. fold lo3 in E3. rewrite <- Hlo in *. rewrite <- Heq in *.
    injection E1 as <-. injection E3 as <-.
    set (a := nth lo1 s 0%Q) in *.
    set (b := nth (Nat.min (lo1 + 1) (n - 1)) s 0%Q) in *.
    assert (Hab : (a <= b)%Q) by lra.
    assert (Hf0 : (0 <= inject_Z f1)%Q).
    { change 0%Q with (inject_Z 0). rewrite <- Zle_Qle. exact P1. }
    split; [nra|]. split; [exact Hin|]. split; nra.
  - assert (Hlt : lo1 + 1 <= lo3) by (unfold lo1, lo3; lia).
    assert (Hmid : (nth (Nat.min (lo1 + 1) (n - 1)) s 0 <= nth lo3 s 0)%Q).
    { apply sorted_nth_le; [exact Hs | lia | fold n; lia]. }
    split; [lra|]. split; [exact Hin|]. split; lra.
Qed.

End Quartiles.

Section PriceFilter.

Variable df : DataFrame.

Lemma priced_sample_nonempty :
  (exists r, In r (rows df) /\ price r <> None) ->
  sort Qle_bool (present (map price (rows df))) <> [].
Proof.
  intros [r [Hin Hp]] Hnil.
  destruct (price r) as [p|] eqn:Ep; [|contradiction].
  assert (H : In p (sort Qle_bool (present (map price (rows df))))).
  { apply (Permutation_in _ (sort_perm Qle_bool _)), present_In.
    rewrite <- Ep. apply in_map. exact Hin. }
  rewrite Hnil in H. destruct H.
Qed.

Lemma kept_by_clean_price out r :
  clean_price df = Ok out -> has_column "price" df = true ->
  In r (rows df) ->
  in_bounds (lower_bound (map price (rows df))) (upper_bound (map price (rows df))) (price r) = true ->
  In r (rows out).
Proof.
  unfold clean_price. intros H Hc Hin Hb. rewrite Hc in H. simpl in H.
  injection H as <-. cbn [rows set_rows]. apply filter_In. split; assumption.
Qed.

(** X6.  When some record has a price, the first quartile is not above
    the third, so the bounds enclose the whole interquartile range: no
    record whose price lies between the two quartiles is ever removed. *)
Theorem clean_price_keeps_interquartile (out : DataFrame) :
  clean_price df = Ok out -> has_column "price" df = true ->
  (exists r, In r (rows df) /\ price r <> None) ->
  exists q1 q3,
    quantile (map price (rows df)) (1 # 4) = Some q1
    /\ quantile (map price (rows df)) (3 # 4) = Some q3
    /\ (q1 <= q3)%Q
    /\ forall r p, In r (rows df) -> price r = Some p -> (q1 <= p <= q3)%Q ->
         In r (rows out).
Proof.
  intros H Hc Hsome.
  destruct (quartiles_ordered _ (sort_Sorted (present (map price (rows df)))) (priced_sample_nonempty Hsome))
    as [q1 [q3 [x [E1 [E3 [Hq _]]]]]].
  exists q1, q3. split; [exact E1|]. split; [exact E3|]. split; [exact Hq|].
  intros r p Hin Hp Hb. apply (kept_by_clean_price out r H Hc Hin).
  destruct (bounds_formula (map price (rows df)) q1 q3 E1 E3) as [-> ->].
  rewrite Hp. apply in_bounds_iff. exists p. eexists. eexists.
  repeat split; try reflexivity; lra.
Qed.

(** X7.  The filter never removes every priced record: when some record
    has a price, the output is not empty, and every record of the output
    has a price. *)
Theorem clean_price_keeps_some (out : DataFrame) :
  clean_price df = Ok out -> has_column "price" df = true ->
  (exists r, In r (rows df) /\ price r <> None) ->
  rows out <> [] /\ Forall (fun r => price r <> None) (rows out).
Proof.
  intros H Hc Hsome. split.
  - destruct (quartiles_ordered _ (sort_Sorted (present (map price (rows df)))) (priced_sample_nonempty Hsome))
      as [q1 [q3 [x [E1 [E3 [Hq [Hx Hb]]]]]]].
    apply (Permutation_in _ (Permutation_sym (sort_perm Qle_bool _))), present_In in Hx.
    apply in_map_iff in Hx. destruct Hx as [r [Hp Hin]].
    assert (Hr : In r (rows out)).
    { apply (kept_by_clean_price out r H Hc Hin).
      destruct (bounds_formula (map price (rows df)) q1 q3 E1 E3) as [-> ->].
      rewrite Hp. apply in_bounds_iff. exists x. eexists. eexists.
      repeat split; try reflexivity; apply Hb. }
    intros Hnil. rewrite Hnil in Hr. destruct Hr.
  - unfold clean_price in H. rewrite Hc in H. simpl in H. injection H as <-.
    cbn [rows set_rows]. apply Forall_forall. intros r Hr.
    apply filter_In in Hr. destruct Hr as [_ Hb].
    destruct (price r); [discriminate | discriminate Hb].
Qed.

End PriceFilter.

(** ** [calculate_derived_metrics]: how far rounding moves a value *)

Section Rounding.

Lemma rint_close y :
  (inject_Z (rint y) - (1 # 2) <= y <= inject_Z (rint y) + (1 # 2))%Q.
Proof.
  unfold rint. pose proof (Qfloor_le y) as Hl. pose proof (Qlt_floor y) as Hu.
  rewrite inject_Z_plus in Hu. change (inject_Z 1) with 1%Q in Hu.
  destruct (Qcompare_spec (y - inject_Z (Qfloor y)) (1 # 2)) as [He|Hlt|Hgt].
  - destruct (Z.even (Qfloor y)).
    + split; lra.
    + rewrite inject_Z_plus. change (inject_Z 1) with 1%Q. split; lra.
  - split; lra.
  - rewrite inject_Z_plus. change (inject_Z 1) with 1%Q. split; lra.
Qed.

Lemma rint_nonneg y : (0 <= y)%Q -> (0 <= rint y)%Z.
Proof.
  intros Hy. assert (Hf : (0 <= Qfloor y)%Z).
  { change 0%Z with (Qfloor 0). apply Qfloor_resp_le. exact Hy. }
  unfold rint. destruct (_ ?= _)%Q; [destruct (Z.even _)| |]; lia.
Qed.

Lemma round2_hundredths x : (round2 x == rint (x * 100) # 100)%Q.
Proof.
  unfold round2, Qdiv. change (/ 100)%Q with (1 # 100)%Q.
  unfold Qeq, Qmult, inject_Z. simpl. lia.
Qed.

Lemma round2_close x : (x - (1 # 200) <= round2 x <= x + (1 # 200))%Q.
Proof.
  pose proof (rint_close (x * 100)) as H.
  unfold round2, Qdiv. change (/ 100)%Q with (1 # 100)%Q. split; lra.
Qed.

Lemma round2_nonneg x : (0 <= x)%Q -> (0 <= round2 x)%Q.
Proof.
  intros Hx. rewrite round2_hundredths.
  assert (H : (0 <= rint (x * 100))%Z) by (apply rint_nonneg; lra).
  unfold Qle. simpl. lia.
Qed.

(** X8.  With both columns present, a record with a price and an area
    other than zero gets a finite [price_per_sqft], a whole number of
    hundredths within 0.005 of [price / area_sqft], and not negative when
    the price is not negative and the area is positive. *)
Theorem price_per_sqft_accuracy (df out : DataFrame) :
  calculate_derived_metrics df = Ok out ->
  has_column "price" df = true -> has_column "area_sqft" df = true ->
  Forall (fun r =>
            forall p a, price r = Some p -> area_sqft r = Some a -> ~ (a == 0)%Q ->
            exists v,
              price_per_sqft r = Some (Fin v)
              /\ (p / a - (1 # 200) <= v <= p / a + (1 # 200))%Q
              /\ (exists k, (v == k # 100)%Q)
              /\ ((0 <= p)%Q -> (0 < a)%Q -> (0 <= v)%Q))
         (rows out).
Proof.
  unfold calculate_derived_metrics. intros H Hp Ha. rewrite Hp, Ha in H.
  injection H as <-. cbn [rows]. apply Forall_forall. intros r' Hin.
  apply in_map_iff in Hin. destruct Hin as [r [<- _]].
  cbn [price area_sqft price_per_sqft set_price_per_sqft].
  intros p a Ep Ea Hz. unfold per_sqft. rewrite Ep, Ea, (fdiv_nonzero p a Hz).
  exists (round2 (p / a)). split; [reflexivity|]. split; [apply round2_close|].
  split; [exists (rint (p / a * 100)); apply round2_hundredths|].
  intros Hp0 Ha0. apply round2_nonneg.
  apply Qle_shift_div_l; [exact Ha0 | lra].
Qed.

End Rounding.

(** ** [validate_data]: which warnings are raised *)

Section Validation.

Lemma Qlt_bool_iff x y : Qlt_bool x y = true <-> (x < y)%Q.
Proof.
  unfold Qlt_bool. rewrite negb_true_iff. split.
  - intros H. apply Qnot_le_lt. intros Hle. apply Qle_bool_iff in Hle. congruence.
  - intros H. destruct (Qle_bool y x) eqn:E; [|reflexivity].
    apply Qle_bool_iff in E. lra.
Qed.

Lemma any_cell_iff cell p (P : Q -> Prop) df :
  (forall x, p x = true <-> P x) ->
  any_cell cell p df = true <-> some_cell cell P df.
Proof.
  intros Hp. unfold any_cell, some_cell. rewrite existsb_exists. split.
  - intros [r [Hin H]]. destruct (cell r) as [x|] eqn:E; [|discriminate].
    exists r, x. split; [exact Hin|]. split; [exact E | apply Hp; exact H].
  - intros [r [x [Hin [E H]]]]. exists r. split; [exact Hin|].
    rewrite E. apply Hp. exact H.
Qed.

Lemma issues_members b1 b2 b3 b4 :
  let issues := (issue_if b1 "Negative prices found"
                 ++ issue_if b2 "Negative area values found"
                 ++ issue_if b3 "Suspiciously low prices found"
                 ++ issue_if b4 "Suspiciously high prices found")%list in
  (In "Negative prices found" issues <-> b1 = true)
  /\ (In "Negative area values found" issues <-> b2 = true)
  /\ (In "Suspiciously low prices found" issues <-> b3 = true)
  /\ (In "Suspiciously high prices found" issues <-> b4 = true)
  /\ subseq issues validation_messages.
Proof.
  destruct b1, b2, b3, b4; simpl; repeat split;
    try (intros H; (reflexivity || discriminate H));
    try (intros H; repeat (destruct H as [H|H]; try discriminate H); contradiction);
    try (intros _; tauto);
    unfold validation_messages; repeat (first [apply subseq_keep | apply subseq_skip | apply subseq_nil]).
Qed.

(** X9.  [validate_data] needs the [price] column and returns the frame
    it was given.  Each warning is raised exactly when its condition holds
    for some present cell, a missing cell never raises one, and the
    warnings come in the order of the checks, each at most once.  A
    negative price always raises the low-price warning as well. *)
Theorem validate_data_warnings (df out : DataFrame) (issues : list string) :
  validate_data df = Ok (out, issues) ->
  out = df
  /\ has_column "price" df = true
  /\ (In "Negative prices found" issues
      <-> some_cell price (fun p => (p < 0)%Q) df)
  /\ (In "Negative area values found" issues
      <-> has_column "area_sqft" df = true
          /\ some_cell area_sqft (fun a => (a < 0)%Q) df)
  /\ (In "Suspiciously low prices found" issues
      <-> some_cell price (fun p => (p < 1000)%Q) df)
  /\ (In "Suspiciously high prices found" issues
      <-> some_cell price (fun p => (10000000 < p)%Q) df)
  /\ subseq issues validation_messages
  /\ (In "Negative prices found" issues -> In "Suspiciously low prices found" issues).
Proof.
  unfold validate_data. destruct (has_column "price" df) eqn:Hc; [|discriminate].
  simpl negb. cbv iota. intros [= <- <-].
  split; [reflexivity|]. split; [reflexivity|].
  match goal with
  | |- context [(issue_if ?b1 _ ++ issue_if ?b2 _ ++ issue_if ?b3 _ ++ issue_if ?b4 _)%list] =>
      destruct (issues_members b1 b2 b3 b4) as [H1 [H2 [H3 [H4 Hs]]]]
  end.
  cbv zeta in H1, H2, H3, H4, Hs.
  assert (E1 : forall x, Qlt_bool x 0 = true <-> (x < 0)%Q) by (intros; apply Qlt_bool_iff).
  assert (E3 : forall x, Qlt_bool x 1000 = true <-> (x < 1000)%Q) by (intros; apply Qlt_bool_iff).
  assert (E4 : forall x, Qlt_bool 10000000 x = true <-> (10000000 < x)%Q)
    by (intros; apply Qlt_bool_iff).
  split; [rewrite H1; apply any_cell_iff; exact E1|].
  split; [rewrite H2, andb_true_iff, (any_cell_iff area_sqft _ _ df E1); reflexivity|].
  split; [rewrite H3; apply any_cell_iff; exact E3|].
  split; [rewrite H4; apply any_cell_iff; exact E4|].
  split; [exact Hs|].
  rewrite H1, H3, (any_cell_iff price _ _ df E1), (any_cell_iff price _ _ df E3).
  intros [r [x [Hin [E Hx]]]]. exists r, x. split; [exact Hin|]. split; [exact E | lra].
Qed.

(** X10.  Validation passes, with no warning at all, exactly when every
    present price lies between 1000 and 10000000 and, if there is an
    [area_sqft] column, no present area is negative. *)
Theorem validate_data_passes (df : DataFrame) :
  has_column "price" df = true ->
  (validate_data df = Ok (df, [])
   <-> Forall (fun r =>
                 (forall p, price r = Some p -> (1000 <= p <= 10000000)%Q)
                 /\ (has_column "area_sqft" df = true ->
                     forall a, area_sqft r = Some a -> (0 <= a)%Q))
              (rows df)).
Proof.
  intros Hc.
  destruct (validate_data df) as [[out issues]|e] eqn:E;
    [|unfold validate_data in E; rewrite Hc in E; discriminate E].
  assert (Hm : forall (b1 b2 b3 b4 : bool),
             (issue_if b1 "Negative prices found"
              ++ issue_if b2 "Negative area values found"
              ++ issue_if b3 "Suspiciously low prices found"
              ++ issue_if b4 "Suspiciously high prices found")%list = []
             <-> b1 = false /\ b2 = false /\ b3 = false /\ b4 = false).
  { intros [|] [|] [|] [|]; simpl; split; intros H;
      try discriminate H; try reflexivity; try tauto;
      destruct H as [H1 [H2 [H3 H4]]]; discriminate. }
  unfold validate_data in E. rewrite Hc in E. simpl negb in E. cbv iota zeta in E.
  injection E as <- <-. split.
  - intros H. injection H as H. apply Hm in H. destruct H as [H1 [H2 [H3 H4]]].
    apply Forall_forall. intros r Hin. split.
    + intros p Ep. split.
      * destruct (Qlt_le_dec p 1000) as [Hlt|Hle]; [|exact Hle].
        assert (Ht : any_cell price (fun x => Qlt_bool x 1000) df = true).
        { apply (any_cell_iff price _ (fun x => (x < 1000)%Q));
            [intros; apply Qlt_bool_iff | exists r, p; auto]. }
        congruence.
      * destruct (Qlt_le_dec 10000000 p) as [Hlt|Hle]; [|exact Hle].
        assert (Ht : any_cell price (fun x => Qlt_bool 10000000 x) df = true).
        { apply (any_cell_iff price _ (fun x => (10000000 < x)%Q));
            [intros; apply Qlt_bool_iff | exists r, p; auto]. }
        congruence.
    + intros Ha a Ea. rewrite Ha in H2. simpl in H2.
      destruct (Qlt_le_dec a 0) as [Hlt|Hle]; [|exact Hle].
      assert (Ht : any_cell area_sqft (fun x => Qlt_bool x 0) df = true).
      { apply (any_cell_iff area_sqft _ (fun x => (x < 0)%Q));
          [intros; apply Qlt_bool_iff | exists r, a; auto]. }
      congruence.
  - intros Hall. rewrite Forall_forall in Hall. do 2 f_equal. apply Hm.
    assert (Hnot : forall cell p (P : Q -> Prop),
               (forall x, p x = true <-> P x) ->
               ~ some_cell cell P df -> any_cell cell p df = false).
    { intros cell p P Hp Hn. destruct (any_cell cell p df) eqn:Ea; [|reflexivity].
      exfalso. apply Hn. apply (any_cell_iff cell p P df Hp). exact Ea. }
    repeat split.
    + apply (Hnot price _ (fun x => (x < 0)%Q)); [intros; apply Qlt_bool_iff|].
      intros [r [x [Hin [Ex Hx]]]]. destruct (Hall r Hin) as [Hp _].
      specialize (Hp x Ex). lra.
    + destruct (has_column "area_sqft" df) eqn:Ha; [|reflexivity]. simpl.
      apply (Hnot area_sqft _ (fun x => (x < 0)%Q)); [intros; apply Qlt_bool_iff|].
      intros [r [x [Hin [Ex Hx]]]]. destruct (Hall r Hin) as [_ Hp].
      specialize (Hp eq_refl x Ex). lra.
    + apply (Hnot price _ (fun x => (x < 1000)%Q)); [intros; apply Qlt_bool_iff|].
      intros [r [x [Hin [Ex Hx]]]]. destruct (Hall r Hin) as [Hp _].
      specialize (Hp x Ex). lra.
    + apply (Hnot price _ (fun x => (10000000 < x)%Q)); [intros; apply Qlt_bool_iff|].
      intros [r [x [Hin [Ex Hx]]]]. destruct (Hall r Hin) as [Hp _].
      specialize (Hp x Ex). lra.
Qed.

End Validation.

(** ** The pipeline as a whole *)

Section Pipeline.

Lemma clean_text_fields_rows df out :
  clean_text_fields df = Ok out ->
  columns out = columns df /\ rows out = map (text_cleaned df) (rows df).
Proof.
  intros H. split; [exact (columns_clean_text_fields df out H)|].
  unfold clean_text_fields, clean_location, clean_title in H. injection H as <-.
  unfold text_cleaned.
  destruct (has_column "title" df); rewrite ?has_column_set_rows;
    destruct (has_column "location" df); unfold set_rows; cbn [rows].
  - rewrite map_title_clean, map_location_clean, map_map.
    apply map_ext; intros [i t l p b a f pp]; reflexivity.
  - rewrite map_title_clean. apply map_ext; intros [i t l p b a f pp]; reflexivity.
  - rewrite map_location_clean. apply map_ext; intros [i t l p b a f pp]; reflexivity.
  - rewrite <- (map_id (rows df)) at 1.
    apply map_ext; intros [i t l p b a f pp]; reflexivity.
Qed.

Lemma Forall_subseq {A : Type} (P : A -> Prop) (l1 l2 : list A) :
  subseq l1 l2 -> Forall P l2 -> Forall P l1.
Proof.
  intros Hs H. rewrite Forall_forall in *. intros x Hx.
  apply H. exact (subseq_In _ _ _ Hs Hx).
Qed.

Lemma rows_clean_price df out :
  clean_price df = Ok out -> subseq (rows out) (rows df).
Proof.
  intros H. pose proof (read_clean_price (fun r => r) df out H) as Hs.
  rewrite !map_id in Hs. exact Hs.
Qed.

(** The frame after the three filtering stages, and what the later stages
    make of its keys and prices. *)
Lemma process_all_filtered rng df out issues :
  process_all rng df = Ok (out, issues) ->
  exists df1 df2 df3,
    remove_duplicates df = Ok df1
    /\ handle_missing_values df1 = Ok df2
    /\ clean_price df2 = Ok df3
    /\ has_column "title" df3 = true
    /\ has_column "price" df3 = true
    /\ has_column "location" df3 = true
    /\ columns df3 = columns df
    /\ Forall complete (rows df3)
    /\ map priced_key (rows out)
       = map (fun r => (norm_key (key_of r), price r)) (rows df3).
Proof.
  intros H.
  destruct (process_all_stages _ _ _ _ H)
    as [df1 [df2 [df3 [df4 [df5 [E1 [E2 [E3 [E4 [E5 [E6 _]]]]]]]]]]].
  exists df1, df2, df3. split; [exact E1|]. split; [exact E2|]. split; [exact E3|].
  assert (Hcrit : missing_label critical_fields df1 = None).
  { apply (handle_missing_values_returns df1). exists df2. exact E2. }
  assert (Hcols3 : columns df3 = columns df1).
  { rewrite (columns_clean_price _ _ E3). apply (columns_handle_missing_values _ _ E2). }
  assert (Hhas : forall c, In c critical_fields -> has_column c df3 = true).
  { intros c Hc. rewrite (has_column_as_columns _ _ _ Hcols3).
    apply (missing_label_has_column _ _ _ Hcrit). exact Hc. }
  assert (Ht : has_column "title" df3 = true) by (apply Hhas; simpl; tauto).
  assert (Hp : has_column "price" df3 = true) by (apply Hhas; simpl; tauto).
  assert (Hl : has_column "location" df3 = true) by (apply Hhas; simpl; tauto).
  split; [exact Ht|]. split; [exact Hp|]. split; [exact Hl|].
  split; [rewrite Hcols3; apply (columns_remove_duplicates _ _ E1)|].
  split.
  - apply (Forall_subseq _ _ _ (rows_clean_price _ _ E3)).
    destruct (handle_missing_values_result df1 df2 E2) as [_ Hr]. rewrite Hr.
    apply Forall_forall. intros r Hin. apply in_map_iff in Hin.
    destruct Hin as [r0 [<- Hk]]. apply imputed_complete.
    apply dropna_In in Hk. apply Hk.
  - rewrite (read_add_furnishing_status priced_key rng _ _
               (or_introl (fun v r => eq_refl)) E6).
    rewrite (read_calculate_derived_metrics priced_key _ _ (fun v r => eq_refl) E5).
    destruct (clean_text_fields_rows df3 df4 E4) as [_ ->].
    rewrite map_map. apply map_ext. intros r.
    unfold text_cleaned. rewrite Ht, Hl. reflexivity.
Qed.

Lemma norm_key_complete r k p :
  complete r -> (k, p) = (norm_key (key_of r), price r) ->
  exists t l,
    fst k = Some (clean t) /\ snd k = Some (clean_titled l)
    /\ title r = Some t /\ location r = Some l /\ p <> None.
Proof.
  intros [Ht [Hp Hl]] [= -> ->]. unfold norm_key, key_of. simpl.
  destruct (title r) as [t|]; [|contradiction].
  destruct (location r) as [l|]; [|contradiction].
  exists t, l. repeat split; assumption.
Qed.

Lemma map_eq_In {A B C : Type} (f : A -> C) (g : B -> C) l l' x :
  map f l = map g l' -> In x l -> exists y, In y l' /\ f x = g y.
Proof.
  revert l'. induction l as [|a l IH]; intros [|b l'] H Hin; simpl in *;
    try discriminate; [destruct Hin|].
  injection H as Hab Hrest. destruct Hin as [<-|Hin].
  - exists b. split; [left; reflexivity | exact Hab].
  - destruct (IH l' Hrest Hin) as [y [Hy E]]. exists y. split; [right; exact Hy | exact E].
Qed.

(** X11.  For a frame whose titles and locations are ASCII text: in the
    frame that [process_all] returns every record has a title, a price
    and a location; the title has no blank at either end and only single
    spaces inside, and so has the location, which is moreover
    title-cased. *)
Theorem process_all_records_clean (rng : nat -> nat) (df out : DataFrame)
    (issues : list string) :
  ascii_frame df = true ->
  process_all rng df = Ok (out, issues) ->
  Forall (fun r =>
            price r <> None
            /\ (exists t, title r = Some t /\ normal_text t)
            /\ (exists l, location r = Some l /\ normal_location l))
         (rows out).
Proof.
  intros _ H.
  destruct (process_all_filtered rng df out issues H)
    as [df1 [df2 [df3 [_ [_ [_ [_ [_ [_ [_ [Hall Hk]]]]]]]]]]].
  rewrite Forall_forall in *. intros r Hin.
  destruct (map_eq_In _ _ _ _ r Hk Hin) as [r3 [Hin3 E]].
  unfold priced_key, key_of in E.
  destruct (norm_key_complete r3 _ _ (Hall r3 Hin3) E) as [t [l [Et [El [_ [_ Hp]]]]]].
  simpl in Et, El. split; [exact Hp|]. split.
  - exists (clean t). split; [exact Et | apply TextFacts.tidy_clean].
  - exists (clean_titled l). split; [exact El|]. split.
    + apply (TextFacts.tidy_title AtStart false), TextFacts.tidy_clean.
    + apply TextFacts.title_from_idem.
Qed.

End Pipeline.

Section PipelineInvariants.

Lemma has_column_add_column c c' cols :
  existsb (String.eqb c) cols = true ->
  existsb (String.eqb c) (add_column c' cols) = true.
Proof.
  intros H. unfold add_column. destruct (existsb (String.eqb c') cols); [exact H|].
  rewrite existsb_app, H. reflexivity.
Qed.

Lemma calculate_derived_metrics_consistent df out :
  calculate_derived_metrics df = Ok out ->
  has_column "price" df = true -> has_column "area_sqft" df = true ->
  has_column "price_per_sqft" out = true
  /\ Forall (fun r => price_per_sqft r = per_sqft r) (rows out).
Proof.
  unfold calculate_derived_metrics. intros H Hp Ha. rewrite Hp, Ha in H.
  injection H as <-. split; [apply has_add_column|].
  cbn [rows]. apply Forall_forall. intros r' Hin. apply in_map_iff in Hin.
  destruct Hin as [r [<- _]]. reflexivity.
Qed.

(** X12.  When the input has an [area_sqft] column, the frame that
    [process_all] returns has a [price_per_sqft] column, and in every
    record it holds the rounded quotient of that record's own price and
    area. *)
Theorem process_all_price_per_sqft (rng : nat -> nat) (df out : DataFrame)
    (issues : list string) :
  process_all rng df = Ok (out, issues) -> has_column "area_sqft" df = true ->
  has_column "price_per_sqft" out = true
  /\ Forall (fun r => price_per_sqft r = per_sqft r) (rows out).
Proof.
  intros H Ha.
  destruct (process_all_stages _ _ _ _ H)
    as [df1 [df2 [df3 [df4 [df5 [E1 [E2 [E3 [E4 [E5 [E6 _]]]]]]]]]]].
  destruct (process_all_filtered rng df out issues H)
    as [d1 [d2 [d3 [F1 [F2 [F3 [_ [Hp [_ [Hc _]]]]]]]]]].
  rewrite E1 in F1. injection F1 as <-. rewrite E2 in F2. injection F2 as <-.
  rewrite E3 in F3. injection F3 as <-.
  assert (Hc4 : columns df4 = columns df3) by exact (columns_clean_text_fields _ _ E4).
  assert (Hp4 : has_column "price" df4 = true)
    by (rewrite (has_column_as_columns _ _ _ Hc4); exact Hp).
  assert (Ha4 : has_column "area_sqft" df4 = true).
  { rewrite (has_column_as_columns _ _ _ Hc4), (has_column_as_columns _ _ _ Hc). exact Ha. }
  destruct (calculate_derived_metrics_consistent df4 df5 E5 Hp4 Ha4) as [Hpp Hall].
  split.
  - unfold add_furnishing_status in E6.
    destruct (negb (has_column "furnishing" df5)); injection E6 as <-; [|exact Hpp].
    apply has_column_add_column. exact Hpp.
  - pose proof (read_add_furnishing_status metric_cells rng _ _
                  (or_introl (fun v r => eq_refl)) E6) as Hm.
    rewrite Forall_forall in *. intros r Hin.
    destruct (map_eq_In _ _ _ _ r Hm Hin) as [r5 [Hin5 E]].
    unfold metric_cells in E. injection E as Ep Ea Epp.
    rewrite Epp, (Hall r5 Hin5). unfold per_sqft. rewrite Ep, Ea. reflexivity.
Qed.

(** X13.  Every price of the frame that [process_all] returns lies within
    the bounds computed from the prices the outlier filter received: the
    stages after the filter leave the prices alone. *)
Theorem process_all_prices_within_bounds (rng : nat -> nat) (df out : DataFrame)
    (issues : list string) :
  process_all rng df = Ok (out, issues) ->
  exists df1 df2,
    remove_duplicates df = Ok df1
    /\ handle_missing_values df1 = Ok df2
    /\ Forall (fun r =>
                 in_bounds (lower_bound (map price (rows df2)))
                           (upper_bound (map price (rows df2))) (price r) = true)
              (rows out).
Proof.
  intros H.
  destruct (process_all_filtered rng df out issues H)
    as [df1 [df2 [df3 [E1 [E2 [E3 [_ [_ [_ [_ [_ Hk]]]]]]]]]]].
  exists df1, df2. split; [exact E1|]. split; [exact E2|].
  assert (Hp2 : has_column "price" df2 = true).
  { rewrite (has_column_as_columns _ _ _ (columns_handle_missing_values _ _ E2)).
    apply (missing_label_has_column critical_fields);
      [apply (handle_missing_values_returns df1); exists df2; exact E2 | simpl; tauto]. }
  unfold clean_price in E3. rewrite Hp2 in E3. simpl in E3. injection E3 as <-.
  cbn [rows set_rows] in Hk.
  apply Forall_forall. intros r Hin.
  destruct (map_eq_In _ _ _ _ r Hk Hin) as [r3 [Hin3 E]].
  pose proof (f_equal snd E) as Ep. cbn [priced_key snd] in Ep. rewrite Ep.
  apply filter_In in Hin3. apply Hin3.
Qed.

Lemma norm_key_idem k : norm_key (norm_key k) = norm_key k.
Proof.
  destruct k as [[t|] [l|]]; unfold norm_key; simpl;
    rewrite ?TextFacts.clean_idem, ?TextFacts.clean_titled_idem; reflexivity.
Qed.

Lemma map_fixed {A : Type} (f : A -> A) (l : list A) :
  (forall x, In x l -> f x = x) -> map f l = l.
Proof.
  intros H. rewrite <- (map_id l) at 2. apply map_ext_in. exact H.
Qed.

(** X14.  For a frame whose titles and locations are ASCII text: a
    second run of the pipeline, on the frame the first run returned,
    merges the records that the first run left with the same normalised
    (title, location) pair, and after it no two records share a pair. *)
Theorem process_all_twice_distinct (rng rng' : nat -> nat)
    (df out out' : DataFrame) (issues issues' : list string) :
  ascii_frame df = true ->
  process_all rng df = Ok (out, issues) ->
  process_all rng' out = Ok (out', issues') ->
  NoDup (map key_of (rows out')).
Proof.
  intros _ H H'.
  destruct (process_all_filtered rng df out issues H)
    as [_ [_ [d3 [_ [_ [_ [_ [_ [_ [_ [_ Hk]]]]]]]]]]].
  destruct (process_all_filtered rng' out out' issues' H')
    as [e1 [e2 [e3 [E1 [E2 [E3 [Ht [_ [_ [Hc [_ Hk']]]]]]]]]]].
  assert (Hkeys : map key_of (rows out) = map norm_key (map key_of (rows d3))).
  { rewrite !map_map.
    pose proof (f_equal (map fst) Hk) as Hf. rewrite !map_map in Hf. exact Hf. }
  assert (Hkeys' : map key_of (rows out') = map norm_key (map key_of (rows e3))).
  { rewrite !map_map.
    pose proof (f_equal (map fst) Hk') as Hf. rewrite !map_map in Hf. exact Hf. }
  assert (Hsub : subseq (map key_of (rows e3)) (map key_of (rows e1))).
  { eapply subseq_trans; [exact (read_clean_price key_of _ _ E3)|].
    apply (read_handle_missing_values key_of _ _); [intros v r; reflexivity .. | exact E2]. }
  assert (Hsub' : subseq (map key_of (rows e3)) (map key_of (rows out))).
  { eapply subseq_trans; [exact Hsub | exact (read_remove_duplicates key_of _ _ E1)]. }
  rewrite Hkeys'. rewrite map_fixed.
  - apply (subseq_NoDup _ _ Hsub). apply (remove_duplicates_NoDup _ _ E1).
    intros Hnil. unfold has_column in Ht. rewrite Hc, Hnil in Ht. discriminate Ht.
  - intros k Hin. apply (subseq_In _ _ _ Hsub') in Hin.
    rewrite Hkeys in Hin. apply in_map_iff in Hin. destruct Hin as [k0 [<- _]].
    apply norm_key_idem.
Qed.

End PipelineInvariants.

(** ** ASCII text stays ASCII *)

Section AsciiFacts.
Import Text.

Lemma is_ascii_to_upper c : is_ascii (to_upper c) = is_ascii c.
Proof. destruct c as [[|] [|] [|] [|] [|] [|] [|] [|]]; reflexivity. Qed.

Lemma is_ascii_to_lower c : is_ascii (to_lower c) = is_ascii c.
Proof. destruct c as [[|] [|] [|] [|] [|] [|] [|] [|]]; reflexivity. Qed.

Lemma ascii_lstrip s : ascii_text s = true -> ascii_text (lstrip s) = true.
Proof.
  induction s as [|c s IH]; intros H; [reflexivity|].
  cbn [lstrip]. destruct (is_space c); [|exact H].
  cbn [ascii_text] in H. apply andb_prop in H. apply IH, H.
Qed.

Lemma ascii_rstrip s : ascii_text s = true -> ascii_text (rstrip s) = true.
Proof.
  induction s as [|c s IH]; intros H; [reflexivity|].
  cbn [ascii_text] in H. apply andb_prop in H. destruct H as [Hc Hs].
  specialize (IH Hs). cbn [rstrip]. destruct (rstrip s) as [|d r].
  - destruct (is_space c); [reflexivity|]. cbn [ascii_text]. rewrite Hc. reflexivity.
  - change (is_ascii c && ascii_text (String d r) = true). rewrite Hc. exact IH.
Qed.

Lemma ascii_collapse_from b s :
  ascii_text s = true -> ascii_text (collapse_from b s) = true.
Proof.
  revert b. induction s as [|c s IH]; intros b H; [reflexivity|].
  cbn [ascii_text] in H. apply andb_prop in H. destruct H as [Hc Hs].
  cbn [collapse_from]. destruct (is_space c).
  - destruct b; [apply IH; exact Hs|].
    change (is_ascii " "%char && ascii_text (collapse_from true s) = true).
    rewrite (IH true Hs). reflexivity.
  - cbn [ascii_text]. rewrite Hc. apply IH. exact Hs.
Qed.

Lemma ascii_title_from b s :
  ascii_text s = true -> ascii_text (title_from b s) = true.
Proof.
  revert b. induction s as [|c s IH]; intros b H; [reflexivity|].
  cbn [ascii_text] in H. apply andb_prop in H. destruct H as [Hc Hs].
  cbn [title_from ascii_text]. rewrite (IH _ Hs).
  destruct b; rewrite ?is_ascii_to_lower, ?is_ascii_to_upper, Hc; reflexivity.
Qed.

Lemma ascii_clean s : ascii_text s = true -> ascii_text (clean s) = true.
Proof.
  intros H. unfold clean, collapse, strip.
  apply ascii_collapse_from, ascii_rstrip, ascii_lstrip. exact H.
Qed.

Lemma ascii_clean_titled s : ascii_text s = true -> ascii_text (clean_titled s) = true.
Proof.
  intros H. unfold clean_titled, title. apply ascii_title_from.
  exact (ascii_clean s H).
Qed.

End AsciiFacts.

(** ** [clean_text_fields]: what it leaves alone *)

Section Spacing.
Import Text.

Lemma squeeze_lstrip s : squeeze (lstrip s) = squeeze s.
Proof.
  induction s as [|c s IH]; simpl; [reflexivity|].
  destruct (is_space c) eqn:E; [exact IH|]. simpl. rewrite E. reflexivity.
Qed.

Lemma squeeze_rstrip s : squeeze (rstrip s) = squeeze s.
Proof.
  induction s as [|c s IH]; simpl; [reflexivity|].
  destruct (rstrip s) as [|d r] eqn:Er.
  - rewrite <- IH. simpl. destruct (is_space c) eqn:E; simpl; rewrite ?E; reflexivity.
  - rewrite <- IH. cbn [squeeze]. reflexivity.
Qed.

Lemma squeeze_collapse b s : squeeze (collapse_from b s) = squeeze s.
Proof.
  revert b. induction s as [|c s IH]; intros b; simpl; [reflexivity|].
  destruct (is_space c) eqn:E.
  - destruct b; simpl; apply IH.
  - simpl. rewrite E, IH. reflexivity.
Qed.

Lemma squeeze_clean s : squeeze (clean s) = squeeze s.
Proof.
  unfold clean, collapse, strip.
  rewrite squeeze_collapse, squeeze_rstrip, squeeze_lstrip. reflexivity.
Qed.

Lemma to_lower_to_upper c : to_lower (to_upper c) = to_lower c.
Proof. TextFacts.by_cases_on_char c. Qed.

Lemma lower_title b s : lower (title_from b s) = lower s.
Proof.
  revert b. induction s as [|c s IH]; intros b; simpl; [reflexivity|].
  rewrite IH. destruct b; [rewrite TextFacts.to_lower_idem | rewrite to_lower_to_upper];
    reflexivity.
Qed.

Lemma squeeze_lower_commute s : squeeze (lower s) = lower (squeeze s).
Proof.
  induction s as [|c s IH]; simpl; [reflexivity|].
  rewrite TextFacts.is_space_to_lower. destruct (is_space c); simpl; rewrite IH; reflexivity.
Qed.

Lemma squeeze_lower_clean_titled s :
  squeeze (lower (clean_titled s)) = squeeze (lower s).
Proof.
  unfold clean_titled, title. rewrite lower_title.
  change (collapse (strip s)) with (clean s).
  rewrite !squeeze_lower_commute, squeeze_clean. reflexivity.
Qed.

(** X15.  On a frame whose titles and locations are ASCII text,
    [clean_text_fields] keeps the columns, the number and the order of the
    records, and changes nothing in a record but the blanks of its title
    and the blanks and the letter case of its location: with the blanks
    taken out, the title is the same text, and so is the location once
    both are put in lower case.  The texts of the result are ASCII
    again. *)
Theorem clean_text_fields_only_spacing_and_case (df out : DataFrame) :
  ascii_frame df = true ->
  clean_text_fields df = Ok out ->
  columns out = columns df
  /\ Forall2 same_but_spacing_and_case (rows df) (rows out)
  /\ ascii_frame out = true.
Proof.
  intros Ha H. destruct (clean_text_fields_rows df out H) as [Hc Hr].
  split; [exact Hc|]. split.
  - rewrite Hr. apply Forall2_map_r. intros r _.
    unfold same_but_spacing_and_case, text_cleaned.
    destruct r as [i t l p b a f pp]. cbn. repeat split.
    + destruct (has_column "title" df); [|reflexivity].
      destruct t as [t|]; [|reflexivity]. simpl. rewrite squeeze_clean. reflexivity.
    + destruct (has_column "location" df); [|reflexivity].
      destruct l as [l|]; [|reflexivity]. simpl.
      rewrite squeeze_lower_clean_titled. reflexivity.
  - unfold ascii_frame in *. rewrite Hr. rewrite forallb_forall in *.
    intros r' Hin. apply in_map_iff in Hin. destruct Hin as [r [<- Hin]].
    specialize (Ha r Hin). apply andb_prop in Ha. destruct Ha as [Ht Hl].
    unfold text_cleaned. destruct r as [i t l p b a f pp].
    cbn [title location set_title set_location] in *.
    apply andb_true_intro. split.
    + destruct (has_column "title" df); [|exact Ht].
      destruct t as [t|]; [|reflexivity]. exact (ascii_clean t Ht).
    + destruct (has_column "location" df); [|exact Hl].
      destruct l as [l|]; [|reflexivity]. exact (ascii_clean_titled l Hl).
Qed.

End Spacing.

(** ** [clean_text_fields] over Python's text *)

Module UnicodeFacts.
Import Unicode.

Lemma ascii_code_of c : ascii_code (N_of_ascii c) = is_ascii c.
Proof. destruct c as [[|] [|] [|] [|] [|] [|] [|] [|]]; reflexivity. Qed.

Lemma not_sigma c : N.eqb (N_of_ascii c) 931 = false.
Proof. destruct c as [[|] [|] [|] [|] [|] [|] [|] [|]]; reflexivity. Qed.

Lemma ucd_excerpt_ascii : ascii_entries ucd_excerpt.
Proof.
  intros c. destruct c as [[|] [|] [|] [|] [|] [|] [|] [|]]; vm_compute;
    intros H; first [discriminate H | repeat split].
Qed.

Lemma codes_chars t :
  forallb ascii_code t = true -> codes (chars t) = t /\ ascii_text (chars t) = true.
Proof.
  induction t as [|n t IH]; intros H; [split; reflexivity|].
  cbn [forallb] in H. apply andb_prop in H. destruct H as [Hn Ht].
  destruct (IH Ht) as [E A].
  assert (Hlt : (n < 256)%N).
  { unfold ascii_code in Hn. apply N.ltb_lt in Hn. lia. }
  cbn [chars codes ascii_text]. rewrite (N_ascii_embedding n Hlt), E, A.
  split; [reflexivity|].
  rewrite <- ascii_code_of, (N_ascii_embedding n Hlt), Hn. reflexivity.
Qed.

Section Refinement.

Variable db : ucd.
Hypothesis Hdb : ascii_entries db.

Lemma entries c :
  is_ascii c = true ->
  isspace db (N_of_ascii c) = Text.is_space c
  /\ is_cased db (N_of_ascii c) = Text.is_cased c
  /\ to_lower_full db (N_of_ascii c) = [N_of_ascii (Text.to_lower c)]
  /\ to_title_full db (N_of_ascii c) = [N_of_ascii (Text.to_upper c)].
Proof. intros H. apply Hdb. rewrite <- ascii_code_of in H. exact H. Qed.

Lemma codes_lstrip s :
  ascii_text s = true -> lstrip db (codes s) = codes (Text.lstrip s).
Proof.
  induction s as [|c s IH]; intros H; [reflexivity|].
  cbn [ascii_text] in H. apply andb_prop in H. destruct H as [Hc Hs].
  destruct (entries c Hc) as [Esp _].
  cbn [codes lstrip Text.lstrip]. rewrite Esp.
  destruct (Text.is_space c); [exact (IH Hs) | reflexivity].
Qed.

Lemma codes_rstrip s :
  ascii_text s = true -> rstrip db (codes s) = codes (Text.rstrip s).
Proof.
  induction s as [|c s IH]; intros H; [reflexivity|].
  cbn [ascii_text] in H. apply andb_prop in H. destruct H as [Hc Hs].
  destruct (entries c Hc) as [Esp _].
  cbn [codes rstrip Text.rstrip]. rewrite (IH Hs), Esp.
  destruct (Text.rstrip s) as [|d r]; cbn [codes]; [|reflexivity].
  destruct (Text.is_space c); reflexivity.
Qed.

Lemma codes_collapse_from b s :
  ascii_text s = true -> collapse_from db b (codes s) = codes (Text.collapse_from b s).
Proof.
  revert b. induction s as [|c s IH]; intros b H; [reflexivity|].
  cbn [ascii_text] in H. apply andb_prop in H. destruct H as [Hc Hs].
  destruct (entries c Hc) as [Esp _].
  cbn [codes collapse_from Text.collapse_from]. rewrite Esp.
  destruct (Text.is_space c).
  - destruct b; [exact (IH true Hs)|]. cbn [codes]. rewrite (IH true Hs). reflexivity.
  - cbn [codes]. rewrite (IH false Hs). reflexivity.
Qed.

Lemma codes_title_from b before s :
  ascii_text s = true ->
  title_from db b before (codes s) = codes (Text.title_from b s).
Proof.
  revert b before. induction s as [|c s IH]; intros b before H; [reflexivity|].
  cbn [ascii_text] in H. apply andb_prop in H. destruct H as [Hc Hs].
  destruct (entries c Hc) as [_ [Ecased [Elow Eup]]].
  cbn [codes title_from Text.title_from]. unfold lower_at.
  rewrite not_sigma, Elow, Eup, Ecased, (IH _ _ Hs).
  destruct b; reflexivity.
Qed.

Lemma codes_clean s :
  ascii_text s = true -> collapse db (strip db (codes s)) = codes (clean s).
Proof.
  intros H. unfold collapse, strip, clean, Text.collapse, Text.strip.
  rewrite (codes_lstrip s H), (codes_rstrip _ (ascii_lstrip s H)).
  apply codes_collapse_from, ascii_rstrip, ascii_lstrip. exact H.
Qed.

Lemma codes_clean_titled s :
  ascii_text s = true ->
  title db (collapse db (strip db (codes s))) = codes (clean_titled s).
Proof.
  intros H. rewrite (codes_clean s H). unfold title, clean_titled, Text.title.
  apply codes_title_from. exact (ascii_clean s H).
Qed.

(** A second pass over one cell, in Python's text. *)
Lemma text_clean_idem t :
  forallb ascii_code t = true ->
  collapse db (strip db (collapse db (strip db t))) = collapse db (strip db t).
Proof.
  intros H. destruct (codes_chars t H) as [E A]. rewrite <- E.
  rewrite (codes_clean _ A), (codes_clean _ (ascii_clean _ A)), TextFacts.clean_idem.
  reflexivity.
Qed.

Lemma text_clean_titled_idem t :
  forallb ascii_code t = true ->
  title db (collapse db (strip db (title db (collapse db (strip db t)))))
  = title db (collapse db (strip db t)).
Proof.
  intros H. destruct (codes_chars t H) as [E A]. rewrite <- E.
  rewrite (codes_clean_titled _ A), (codes_clean_titled _ (ascii_clean_titled _ A)).
  rewrite TextFacts.clean_titled_idem. reflexivity.
Qed.

Lemma clean_column_fixed b c c' :
  ascii_column c = true -> clean_column db b c = Ok c' -> clean_column db b c' = Ok c'.
Proof.
  destruct c as [| |cells]; intros Ha H.
  - injection H as <-. reflexivity.
  - discriminate H.
  - cbn [ascii_column] in Ha. rewrite forallb_forall in Ha.
    destruct b; cbn [clean_column str_method bind] in H; injection H as <-;
      cbn [clean_column str_method bind]; do 2 f_equal; rewrite !map_map;
      apply map_ext_in; intros [t|] Hin; cbn [option_map]; try reflexivity; f_equal.
    + exact (text_clean_titled_idem t (Ha _ Hin)).
    + exact (text_clean_idem t (Ha _ Hin)).
Qed.

Lemma text_columns_twice cols :
  ascii_columns cols = true ->
  (c1 <- clean_text_fields db cols ;; clean_text_fields db c1) = clean_text_fields db cols.
Proof.
  intros H. apply andb_prop in H. destruct H as [Ht Hl]. unfold clean_text_fields.
  destruct (clean_column db false (title_column cols)) as [t|e] eqn:Et; [|reflexivity].
  cbn [bind].
  destruct (clean_column db true (location_column cols)) as [l|e] eqn:El; [|reflexivity].
  cbn [bind title_column location_column].
  rewrite (clean_column_fixed _ _ _ Ht Et), (clean_column_fixed _ _ _ Hl El).
  reflexivity.
Qed.

(** The columns of a frame, cleaned in Python's text. *)
Lemma clean_title_column present cells :
  forallb ascii_cell cells = true ->
  clean_column db false (text_column present cells)
  = Ok (text_column present (map (option_map clean) cells)).
Proof.
  intros Ha. rewrite forallb_forall in Ha. destruct present; [|reflexivity].
  cbn [text_column clean_column str_method bind]. do 2 f_equal. rewrite !map_map.
  apply map_ext_in. intros [s|] Hin; cbn [option_map]; [|reflexivity].
  f_equal. exact (codes_clean s (Ha _ Hin)).
Qed.

Lemma clean_location_column present cells :
  forallb ascii_cell cells = true ->
  clean_column db true (text_column present cells)
  = Ok (text_column present (map (option_map clean_titled) cells)).
Proof.
  intros Ha. rewrite forallb_forall in Ha. destruct present; [|reflexivity].
  cbn [text_column clean_column str_method bind]. do 2 f_equal. rewrite !map_map.
  apply map_ext_in. intros [s|] Hin; cbn [option_map]; [|reflexivity].
  f_equal. exact (codes_clean_titled s (Ha _ Hin)).
Qed.

End Refinement.

End UnicodeFacts.

(** On a frame of ASCII text the method of the frames computes the text
    columns that Python's string methods compute. *)
Lemma text_columns_refined (db : Unicode.ucd) (df : DataFrame) :
  Unicode.ascii_entries db ->
  ascii_frame df = true ->
  Unicode.clean_text_fields db (text_columns df)
  = (out <- clean_text_fields df ;; Ok (text_columns out)).
Proof.
  intros Hdb Ha.
  destruct (clean_text_fields df) as [out|e] eqn:E; [|discriminate E].
  destruct (clean_text_fields_rows df out E) as [Hc Hr]. cbn [bind].
  unfold ascii_frame in Ha. rewrite forallb_forall in Ha.
  unfold Unicode.clean_text_fields, text_columns.
  cbn [Unicode.title_column Unicode.location_column].
  rewrite (UnicodeFacts.clean_title_column db Hdb),
          (UnicodeFacts.clean_location_column db Hdb).
  - cbn [bind]. rewrite !(has_column_as_columns _ df out Hc), Hr, !map_map.
    do 2 f_equal.
    + destruct (has_column "title" df) eqn:Ht; [|reflexivity].
      cbn [text_column]. f_equal. rewrite !map_map. apply map_ext.
      intros [i t l p b a f pp]. unfold text_cleaned. rewrite Ht. reflexivity.
    + destruct (has_column "location" df) eqn:Hl; [|reflexivity].
      cbn [text_column]. f_equal. rewrite !map_map. apply map_ext.
      intros [i t l p b a f pp]. unfold text_cleaned. rewrite Hl. reflexivity.
  - apply forallb_forall. intros c Hin. apply in_map_iff in Hin.
    destruct Hin as [r [<- Hin]]. specialize (Ha r Hin).
    apply andb_prop in Ha. apply Ha.
  - apply forallb_forall. intros c Hin. apply in_map_iff in Hin.
    destruct Hin as [r [<- Hin]]. specialize (Ha r Hin).
    apply andb_prop in Ha. apply Ha.
Qed.

(** C8.  On ASCII text [clean_text_fields] is idempotent.  With a database
    that gives the ASCII characters their classes and case mappings, the
    method applied twice to text columns of ASCII text gives what it gives
    applied once, an [AttributeError] included.  The same holds of the
    frames, and on a frame of ASCII text the method of the frames computes
    the text columns that Python's string methods compute. *)
Theorem clean_text_fields_idempotent (db : Unicode.ucd) (cols : Unicode.TextColumns)
    (df : DataFrame) :
  Unicode.ascii_entries db ->
  Unicode.ascii_columns cols = true ->
  ascii_frame df = true ->
  (c1 <- Unicode.clean_text_fields db cols ;; Unicode.clean_text_fields db c1)
  = Unicode.clean_text_fields db cols
  /\ (df1 <- clean_text_fields df ;; clean_text_fields df1) = clean_text_fields df
  /\ Unicode.clean_text_fields db (text_columns df)
     = (out <- clean_text_fields df ;; Ok (text_columns out)).
Proof.
  intros Hdb Hcols Hdf. split; [exact (UnicodeFacts.text_columns_twice db Hdb cols Hcols)|].
  split; [exact (clean_text_fields_twice df)|].
  exact (text_columns_refined db df Hdb Hdf).
Qed.

(** The frame [near_duplicates], and a title column that holds no text. *)
Lemma clean_text_fields_idempotent_witness :
  (c1 <- Unicode.clean_text_fields Unicode.ucd_excerpt
           (Unicode.mkTextColumns Unicode.NotText Unicode.Absent) ;;
   Unicode.clean_text_fields Unicode.ucd_excerpt c1)
  = Unicode.clean_text_fields Unicode.ucd_excerpt
      (Unicode.mkTextColumns Unicode.NotText Unicode.Absent)
  /\ (df1 <- clean_text_fields near_duplicates ;; clean_text_fields df1)
     = clean_text_fields near_duplicates
  /\ Unicode.clean_text_fields Unicode.ucd_excerpt (text_columns near_duplicates)
     = (out <- clean_text_fields near_duplicates ;; Ok (text_columns out)).
Proof.
  exact (clean_text_fields_idempotent Unicode.ucd_excerpt
           (Unicode.mkTextColumns Unicode.NotText Unicode.Absent) near_duplicates
           UnicodeFacts.ucd_excerpt_ascii eq_refl eq_refl).
Defined.

(** Beyond ASCII the second pass changes the text: the location DILLI HAAT
    with dotted capital I. *)
Theorem clean_text_fields_beyond_ascii :
  Unicode.clean_text_fields Unicode.ucd_excerpt dotted_location
  = Ok (Unicode.mkTextColumns Unicode.Absent (Unicode.Texts [Some dilli_haat_once]))
  /\ (c1 <- Unicode.clean_text_fields Unicode.ucd_excerpt dotted_location ;;
      Unicode.clean_text_fields Unicode.ucd_excerpt c1)
     = Ok (Unicode.mkTextColumns Unicode.Absent (Unicode.Texts [Some dilli_haat_twice]))
  /\ (c1 <- Unicode.clean_text_fields Unicode.ucd_excerpt dotted_location ;;
      Unicode.clean_text_fields Unicode.ucd_excerpt c1)
     <> Unicode.clean_text_fields Unicode.ucd_excerpt dotted_location.
Proof.
  split; [reflexivity|]. split; [reflexivity|].
  intros H. vm_compute in H. discriminate H.
Qed.

(** * Properties of the scraper *)

Module ScraperFacts.
Import Scraper.

Lemma all_chars_app p s t :
  all_chars p (s ++ t) = all_chars p s && all_chars p t.
Proof.
  induction s as [|c s IH]; simpl; [reflexivity|].
  rewrite IH. apply andb_assoc.
Qed.

Lemma take_while_app p s t :
  all_chars p s = true -> stops p t = true -> take_while p (s ++ t) = s.
Proof.
  intros Hs Ht. induction s as [|c s IH]; simpl in *.
  - destruct t as [|d t]; [reflexivity|]. simpl in *.
    apply negb_true_iff in Ht. rewrite Ht. reflexivity.
  - apply andb_prop in Hs. destruct Hs as [Hc Hs]. rewrite Hc, (IH Hs). reflexivity.
Qed.

Lemma drop_while_app p s t :
  all_chars p s = true -> stops p t = true -> drop_while p (s ++ t) = t.
Proof.
  intros Hs Ht. induction s as [|c s IH]; simpl in *.
  - destruct t as [|d t]; [reflexivity|]. simpl in *.
    apply negb_true_iff in Ht. rewrite Ht. reflexivity.
  - apply andb_prop in Hs. destruct Hs as [Hc Hs]. rewrite Hc. exact (IH Hs).
Qed.

(** A matcher that needs a first character of [p] finds nothing while
    the text has none. *)
Lemma search_skip (m : string -> option string) p pre s :
  (forall t, stops p t = true -> m t = None) ->
  all_chars (non p) pre = true -> s <> EmptyString ->
  search m (pre ++ s) = search m s.
Proof.
  intros Hm Hpre Hs. induction pre as [|c pre IH]; [reflexivity|].
  simpl in Hpre. apply andb_prop in Hpre. destruct Hpre as [Hc Hpre].
  change (String c pre ++ s) with (String c (pre ++ s)).
  cbn [search]. rewrite (Hm (String c (pre ++ s)) Hc). exact (IH Hpre).
Qed.

Lemma search_none (m : string -> option string) p s :
  (forall t, stops p t = true -> m t = None) ->
  all_chars (non p) s = true -> search m s = None.
Proof.
  intros Hm Hs. induction s as [|c s IH].
  - simpl. rewrite (Hm EmptyString eq_refl). reflexivity.
  - simpl in Hs. apply andb_prop in Hs. destruct Hs as [Hc Hs].
    cbn [search]. rewrite (Hm (String c s) Hc). exact (IH Hs).
Qed.

Lemma take_while_stops p t : stops p t = true -> take_while p t = EmptyString.
Proof.
  destruct t as [|c t]; [reflexivity|]. simpl. intros H.
  apply negb_true_iff in H. rewrite H. reflexivity.
Qed.

Lemma match_number_stops t : stops in_number_class t = true -> match_number t = None.
Proof. intros H. unfold match_number. rewrite (take_while_stops _ _ H). reflexivity. Qed.

Lemma match_bhk_stops t : stops is_digit t = true -> match_bhk t = None.
Proof. intros H. unfold match_bhk. rewrite (take_while_stops _ _ H). reflexivity. Qed.

Lemma match_area_stops t : stops in_number_class t = true -> match_area t = None.
Proof. intros H. unfold match_area. rewrite (take_while_stops _ _ H). reflexivity. Qed.

Lemma is_empty_false s : s <> EmptyString -> is_empty s = false.
Proof. destruct s; [contradiction | reflexivity]. Qed.

Lemma app_nonempty s t : s <> EmptyString -> (s ++ t)%string <> EmptyString.
Proof. destruct s; [contradiction | discriminate]. Qed.

(** The comma-free text has no comma, so the class is the digits there. *)
Lemma remove_commas_free s : all_chars (non is_comma) (remove_commas s) = true.
Proof.
  induction s as [|c s IH]; simpl; [reflexivity|].
  destruct (is_comma c) eqn:E; [exact IH|]. simpl. unfold non at 1. rewrite E. exact IH.
Qed.

Lemma all_chars_impl (p q : ascii -> bool) s :
  (forall c, p c = true -> q c = true) -> all_chars p s = true -> all_chars q s = true.
Proof.
  intros H. induction s as [|c s IH]; simpl; [reflexivity|].
  intros Hs. apply andb_prop in Hs. destruct Hs as [Hc Hs].
  rewrite (H c Hc), (IH Hs). reflexivity.
Qed.

Lemma all_chars_and (p q r : ascii -> bool) s :
  (forall c, p c = true -> q c = true -> r c = true) ->
  all_chars p s = true -> all_chars q s = true -> all_chars r s = true.
Proof.
  intros H. induction s as [|c s IH]; simpl; [reflexivity|].
  intros Hp Hq. apply andb_prop in Hp. apply andb_prop in Hq.
  destruct Hp as [Hc Hp], Hq as [Hc' Hq]. rewrite (H c Hc Hc'), (IH Hp Hq). reflexivity.
Qed.

Lemma digits_value_from_nonneg acc s : (0 <= acc)%Z -> (0 <= digits_value_from acc s)%Z.
Proof.
  revert acc. induction s as [|c s IH]; intros acc H; cbn [digits_value_from]; [exact H|].
  apply IH. pose proof (Nat2Z.is_nonneg (nat_of_ascii c - 48)). lia.
Qed.

Lemma py_int_digits max s :
  s <> EmptyString -> all_chars is_digit s = true -> within_limit max s ->
  py_int max s = Ok (digits_value s).
Proof.
  intros Hne Hd Hl. unfold py_int. rewrite (is_empty_false _ Hne), Hd. simpl.
  destruct Hl as [->|Hl]; [reflexivity|].
  destruct (0 <? max); simpl; [|reflexivity].
  destruct (Nat.ltb_spec max (String.length s)); [lia | reflexivity].
Qed.

Lemma search_here (m : string -> option string) s g :
  m s = Some g -> search m s = Some g.
Proof. intros H. destruct s; simpl; rewrite H; reflexivity. Qed.

Lemma stops_app (p q : ascii -> bool) ws rest :
  (forall c, q c = true -> p c = false) ->
  all_chars q ws = true -> stops p rest = true -> stops p (ws ++ rest) = true.
Proof.
  intros Hpq Hws Hrest. destruct ws as [|c ws]; [exact Hrest|].
  simpl in *. apply andb_prop in Hws. destruct Hws as [Hc _].
  rewrite (Hpq c Hc). reflexivity.
Qed.

Lemma comma_not_digit c : is_comma c = true -> is_digit c = false.
Proof.
  destruct c as [[|] [|] [|] [|] [|] [|] [|] [|]]; vm_compute;
    intros H; (reflexivity || discriminate H).
Qed.

Lemma space_not_digit c : Text.is_space c = true -> is_digit c = false.
Proof.
  destruct c as [[|] [|] [|] [|] [|] [|] [|] [|]]; vm_compute;
    intros H; (reflexivity || discriminate H).
Qed.

Lemma space_not_number c : Text.is_space c = true -> in_number_class c = false.
Proof.
  destruct c as [[|] [|] [|] [|] [|] [|] [|] [|]]; vm_compute;
    intros H; (reflexivity || discriminate H).
Qed.

Lemma stops_class_of_parts t :
  stops is_digit t = true -> all_chars (non is_comma) t = true ->
  stops in_number_class t = true.
Proof.
  destruct t as [|c t]; [reflexivity|]. simpl. unfold in_number_class, non.
  intros Hd Hc. apply andb_prop in Hc. destruct Hc as [Hc _].
  apply negb_true_iff in Hd, Hc. rewrite Hd, Hc. reflexivity.
Qed.

Lemma no_digits_remove_commas s :
  all_chars (non is_digit) (remove_commas s) = all_chars (non is_digit) s.
Proof.
  induction s as [|c s IH]; simpl; [reflexivity|].
  destruct (is_comma c) eqn:E; simpl; rewrite IH; [|reflexivity].
  unfold non. rewrite (comma_not_digit c E). reflexivity.
Qed.

Lemma take_while_all p s : all_chars p (take_while p s) = true.
Proof.
  induction s as [|c s IH]; simpl; [reflexivity|].
  destruct (p c) eqn:E; simpl; [rewrite E; exact IH | reflexivity].
Qed.

Lemma take_while_keeps (p q : ascii -> bool) s :
  all_chars q s = true -> all_chars q (take_while p s) = true.
Proof.
  induction s as [|c s IH]; simpl; [reflexivity|]. intros H.
  apply andb_prop in H. destruct H as [Hc Hs].
  destruct (p c); simpl; [rewrite Hc; exact (IH Hs) | reflexivity].
Qed.

(** What [search match_number] returns. *)
Lemma search_match_number s :
  match search match_number s with
  | None => all_chars (non in_number_class) s = true
  | Some g =>
      g <> EmptyString
      /\ all_chars in_number_class g = true
      /\ forall q, all_chars q s = true -> all_chars q g = true
  end.
Proof.
  induction s as [|c s IH]; [reflexivity|].
  cbn [search]. unfold match_number at 1.
  destruct (is_empty (take_while in_number_class (String c s))) eqn:E.
  - simpl in E. destruct (in_number_class c) eqn:Ec; [discriminate E|].
    destruct (search match_number s) as [g|].
    + destruct IH as [H1 [H2 H3]]. split; [exact H1|]. split; [exact H2|].
      intros q Hq. simpl in Hq. apply andb_prop in Hq. apply H3, Hq.
    + simpl. unfold non at 1. rewrite Ec. exact IH.
  - split; [intros Hg; rewrite Hg in E; discriminate E|].
    split; [apply take_while_all | intros q; apply take_while_keeps].
Qed.

(** X16.  [extract_price] reads the first run of digits of the text, once
    every comma of the text is taken out: whatever precedes the run, as
    long as it holds no digit, and whatever follows it. *)
Theorem extract_price_first_number (max_str_digits : nat) (t pre ds post : string) :
  remove_commas t = (pre ++ ds ++ post)%string ->
  all_chars (non is_digit) pre = true ->
  ds <> EmptyString -> all_chars is_digit ds = true ->
  stops is_digit post = true ->
  within_limit max_str_digits ds ->
  extract_price max_str_digits (Some t) = Ok (Some (digits_value ds)).
Proof.
  intros Ht Hpre Hne Hds Hpost Hlim.
  pose proof (remove_commas_free t) as Hfree. rewrite Ht in Hfree.
  rewrite !all_chars_app in Hfree.
  apply andb_prop in Hfree. destruct Hfree as [Fpre Frest].
  apply andb_prop in Frest. destruct Frest as [_ Fpost].
  assert (Hte : is_empty t = false).
  { destruct t; [|reflexivity]. simpl in Ht.
    destruct pre; [destruct ds; [contradiction | discriminate Ht] | discriminate Ht]. }
  unfold extract_price. rewrite Hte, Ht.
  rewrite (search_skip match_number in_number_class pre (ds ++ post) match_number_stops).
  - rewrite (search_here match_number (ds ++ post) ds).
    + rewrite (py_int_digits _ _ Hne Hds Hlim). reflexivity.
    + unfold match_number. rewrite take_while_app.
      * rewrite (is_empty_false _ Hne). reflexivity.
      * apply (all_chars_impl is_digit); [|exact Hds].
        intros c Hc. unfold in_number_class. rewrite Hc. reflexivity.
      * apply stops_class_of_parts; assumption.
  - apply (all_chars_and (non is_digit) (non is_comma)); [|exact Hpre | exact Fpre].
    intros c Hd Hc. unfold non, in_number_class in *.
    apply negb_true_iff in Hd, Hc. rewrite Hd, Hc. reflexivity.
  - apply app_nonempty. exact Hne.
Qed.

Lemma py_int_cases max g :
  g <> EmptyString -> all_chars is_digit g = true ->
  py_int max g = Ok (digits_value g) \/ (raises (py_int max g) /\ 0 < max).
Proof.
  intros Hne Hd. unfold py_int. rewrite (is_empty_false _ Hne), Hd. simpl.
  destruct (Nat.ltb_spec 0 max); simpl; [|left; reflexivity].
  destruct (max <? String.length g); [right; split; [exact I | assumption] | left; reflexivity].
Qed.

Lemma digits_not_absent g :
  g <> EmptyString -> all_chars is_digit g = true -> all_chars (non is_digit) g = false.
Proof.
  destruct g as [|c g]; [contradiction|]. simpl. intros _ H.
  apply andb_prop in H. destruct H as [Hc _]. unfold non. rewrite Hc. reflexivity.
Qed.

(** The run that [extract_price] converts. *)
Lemma price_run t g :
  search match_number (remove_commas t) = Some g ->
  g <> EmptyString /\ all_chars is_digit g = true
  /\ all_chars (non is_digit) t = false.
Proof.
  intros E. pose proof (search_match_number (remove_commas t)) as Hs.
  rewrite E in Hs. destruct Hs as [Hne [Hcls Hq]].
  assert (Hd : all_chars is_digit g = true).
  { apply (all_chars_and in_number_class (non is_comma));
      [|exact Hcls | exact (Hq _ (remove_commas_free t))].
    intros c Hc Hn. unfold in_number_class, non in *.
    apply negb_true_iff in Hn. rewrite Hn, orb_false_r in Hc. exact Hc. }
  split; [exact Hne|]. split; [exact Hd|].
  rewrite <- no_digits_remove_commas.
  destruct (all_chars (non is_digit) (remove_commas t)) eqn:En; [|reflexivity].
  rewrite <- (digits_not_absent g Hne Hd). symmetry. apply Hq. exact En.
Qed.

(** X17.  [extract_price] gives no value exactly when the text has no
    digit; a value it gives is never negative, whatever sign the text
    shows; and it raises only when the interpreter limits the length of
    digit texts and the run is longer. *)
Theorem extract_price_outcomes (max_str_digits : nat) (t : string) :
  (extract_price max_str_digits (Some t) = Ok None
   <-> all_chars (non is_digit) t = true)
  /\ (forall v, extract_price max_str_digits (Some t) = Ok (Some v) -> (0 <= v)%Z)
  /\ (raises (extract_price max_str_digits (Some t)) -> 0 < max_str_digits).
Proof.
  unfold extract_price. destruct (is_empty t) eqn:Et.
  { destruct t; [|discriminate Et]. repeat split; try reflexivity;
      [intros v H; discriminate H | intros []]. }
  destruct (search match_number (remove_commas t)) as [g|] eqn:E.
  - destruct (price_run t g E) as [Hne [Hd Hsome]]. rewrite Hsome.
    destruct (py_int_cases max_str_digits g Hne Hd) as [->|[Hr Hm]]; cbn [bind].
    + split; [split; intros H; discriminate H|]. split; [|intros []].
      intros v [= <-]. apply digits_value_from_nonneg. lia.
    + destruct (py_int max_str_digits g); [destruct Hr|]. cbn [bind].
      split; [split; intros H; discriminate H|]. split; [intros v H; discriminate H|].
      intros _. exact Hm.
  - pose proof (search_match_number (remove_commas t)) as Hs. rewrite E in Hs.
    split; [|split; [intros v H; discriminate H | intros []]].
    split; [intros _ | reflexivity].
    rewrite <- no_digits_remove_commas.
    apply (all_chars_impl (non in_number_class)); [|exact Hs].
    intros c Hc. unfold non, in_number_class in *. apply negb_true_iff in Hc.
    apply orb_false_elim in Hc. destruct Hc as [Hc _]. rewrite Hc. reflexivity.
Qed.

Lemma prefix_app s t : String.prefix s (s ++ t) = true.
Proof.
  induction s as [|c s IH]; simpl; [destruct t; reflexivity|].
  destruct (ascii_dec c c) as [_|Hn]; [exact IH | contradiction].
Qed.

(** X18.  [extract_bhk] reads the digits that stand in front of the word
    BHK, in any letter case and with or without blanks between: the
    first such place of the text, when no digit comes before it. *)
Theorem extract_bhk_spec (max_str_digits : nat) (t pre ds ws post : string) :
  upper t = (pre ++ ds ++ ws ++ "BHK" ++ post)%string ->
  all_chars (non is_digit) pre = true ->
  ds <> EmptyString -> all_chars is_digit ds = true ->
  all_chars Text.is_space ws = true ->
  within_limit max_str_digits ds ->
  extract_bhk max_str_digits (Some t) = Ok (Some (digits_value ds)).
Proof.
  intros Ht Hpre Hne Hds Hws Hlim.
  assert (Hte : is_empty t = false).
  { destruct t; [|reflexivity]. simpl in Ht.
    destruct pre; [destruct ds; [contradiction | discriminate Ht] | discriminate Ht]. }
  assert (Hstop : stops is_digit (ws ++ "BHK" ++ post) = true).
  { apply (stops_app is_digit Text.is_space); [exact space_not_digit | exact Hws | reflexivity]. }
  unfold extract_bhk. rewrite Hte, Ht.
  rewrite (search_skip match_bhk is_digit pre _ match_bhk_stops Hpre (app_nonempty _ _ Hne)).
  rewrite (search_here match_bhk _ ds).
  - rewrite (py_int_digits _ _ Hne Hds Hlim). reflexivity.
  - unfold match_bhk.
    rewrite (take_while_app is_digit ds _ Hds Hstop), (is_empty_false _ Hne).
    rewrite (drop_while_app is_digit ds _ Hds Hstop).
    rewrite (drop_while_app Text.is_space ws ("BHK" ++ post) Hws eq_refl).
    rewrite prefix_app. reflexivity.
Qed.

Lemma match_unit_starts rest :
  match_unit rest = true ->
  stops Text.is_space rest = true /\ stops in_number_class rest = true.
Proof.
  destruct rest as [|c r]; [intros H; discriminate H|].
  destruct c as [[|] [|] [|] [|] [|] [|] [|] [|]];
    try (intros _; split; reflexivity);
    intros H; vm_compute in H; discriminate H.
Qed.

(** X19.  [extract_area] reads the run of digits and commas that stands in
    front of the unit (sqft, sq ft, sq.ft, ...), the first such place when
    no digit or comma comes before it, and converts it with its commas
    taken out.  A run that is made of commas only is converted from the
    empty text: [extract_area] then raises [ValueError]. *)
Theorem extract_area_spec (max_str_digits : nat) (t pre g ws rest : string) :
  lower t = (pre ++ g ++ ws ++ rest)%string ->
  all_chars (non in_number_class) pre = true ->
  g <> EmptyString -> all_chars in_number_class g = true ->
  all_chars Text.is_space ws = true ->
  match_unit rest = true ->
  extract_area max_str_digits (Some t)
  = (v <- py_int max_str_digits (remove_commas g) ;; Ok (Some v))
  /\ (all_chars is_comma g = true -> raises (extract_area max_str_digits (Some t))).
Proof.
  intros Ht Hpre Hne Hg Hws Hunit.
  destruct (match_unit_starts rest Hunit) as [Hsp Hcl].
  assert (Hte : is_empty t = false).
  { destruct t; [|reflexivity]. simpl in Ht.
    destruct pre; [destruct g; [contradiction | discriminate Ht] | discriminate Ht]. }
  assert (Hstop : stops in_number_class (ws ++ rest) = true).
  { apply (stops_app in_number_class Text.is_space);
      [exact space_not_number | exact Hws | exact Hcl]. }
  assert (E : extract_area max_str_digits (Some t)
              = (v <- py_int max_str_digits (remove_commas g) ;; Ok (Some v))).
  { unfold extract_area. rewrite Hte, Ht.
    rewrite (search_skip match_area in_number_class pre _ match_area_stops Hpre
               (app_nonempty _ _ Hne)).
    rewrite (search_here match_area _ g); [reflexivity|].
    unfold match_area.
    rewrite (take_while_app in_number_class g _ Hg Hstop), (is_empty_false _ Hne).
    rewrite (drop_while_app in_number_class g _ Hg Hstop).
    rewrite (drop_while_app Text.is_space ws _ Hws Hsp), Hunit. reflexivity. }
  split; [exact E|]. intros Hc. rewrite E.
  assert (Hempty : remove_commas g = EmptyString).
  { clear - Hc. induction g as [|c g IH]; [reflexivity|]. simpl in *.
    apply andb_prop in Hc. destruct Hc as [Hc Hg]. rewrite Hc. exact (IH Hg). }
  rewrite Hempty. exact I.
Qed.

(** X20.  [parse_listing] drops a listing exactly when one of the three
    extractors raises on the text it is given; a child element that is
    absent never drops it.  A listing that is kept carries the stripped
    title and location and the three extracted numbers. *)
Theorem parse_listing_outcomes (max_str_digits : nat) (e : Element) :
  (parse_listing max_str_digits e = None
   <-> (exists t, price_text e = Some t
                  /\ raises (extract_price max_str_digits (Some t)))
       \/ (exists t, details_text e = Some t
                     /\ (raises (extract_bhk max_str_digits (Some t))
                         \/ raises (extract_area max_str_digits (Some t)))))
  /\ (forall r,
        parse_listing max_str_digits e = Some r ->
        raw_title r = option_map Text.strip (title_text e)
        /\ raw_location r = option_map Text.strip (location_text e)
        /\ Ok (raw_price r) = match price_text e with
                              | Some t => extract_price max_str_digits (Some t)
                              | None => Ok None
                              end
        /\ Ok (raw_bhk r) = match details_text e with
                            | Some t => extract_bhk max_str_digits (Some t)
                            | None => Ok None
                            end
        /\ Ok (raw_area_sqft r) = match details_text e with
                                  | Some t => extract_area max_str_digits (Some t)
                                  | None => Ok None
                                  end).
Proof.
  assert (Hp : raises (match price_text e with
                       | Some t => extract_price max_str_digits (Some t)
                       | None => Ok None
                       end)
               <-> exists t, price_text e = Some t
                             /\ raises (extract_price max_str_digits (Some t))).
  { destruct (price_text e) as [t|].
    - split; [intros H; exists t; split; [reflexivity | exact H]|].
      intros [t' [[= <-] H]]. exact H.
    - split; [intros [] | intros [t [H _]]; discriminate H]. }
  assert (Hd : forall f : option string -> result (option Z),
             raises (match details_text e with
                     | Some t => f (Some t)
                     | None => Ok None
                     end)
             <-> exists t, details_text e = Some t /\ raises (f (Some t))).
  { intros f. destruct (details_text e) as [t|].
    - split; [intros H; exists t; split; [reflexivity | exact H]|].
      intros [t' [[= <-] H]]. exact H.
    - split; [intros [] | intros [t [H _]]; discriminate H]. }
  pose proof (Hd (extract_bhk max_str_digits)) as Hb.
  pose proof (Hd (extract_area max_str_digits)) as Ha. clear Hd.
  unfold parse_listing, parse_fields.
  destruct (match price_text e with
            | Some t => extract_price max_str_digits (Some t)
            | None => Ok None
            end) as [p|ep].
  2:{ cbn [bind]. split; [|intros r H; discriminate H].
      split; [intros _; left; apply Hp; exact I | reflexivity]. }
  destruct (match details_text e with
            | Some t => extract_bhk max_str_digits (Some t)
            | None => Ok None
            end) as [b|eb].
  2:{ cbn [bind]. split; [|intros r H; discriminate H].
      split; [|reflexivity]. intros _. right.
      destruct (proj1 Hb I) as [t [Ht Hr]]. exists t. split; [exact Ht | left; exact Hr]. }
  destruct (match details_text e with
            | Some t => extract_area max_str_digits (Some t)
            | None => Ok None
            end) as [a|ea].
  2:{ cbn [bind]. split; [|intros r H; discriminate H].
      split; [|reflexivity]. intros _. right.
      destruct (proj1 Ha I) as [t [Ht Hr]]. exists t. split; [exact Ht | right; exact Hr]. }
  cbn [bind]. split.
  - split; [intros H; discriminate H|].
    intros [H|[t [Ht [H|H]]]].
    + exact (match proj2 Hp H with end).
    + exact (match proj2 Hb (ex_intro _ t (conj Ht H)) with end).
    + exact (match proj2 Ha (ex_intro _ t (conj Ht H)) with end).
  - intros r [= <-]. repeat split; reflexivity.
Qed.

Section PagesFacts.

Variable max_str_digits : nat.
Variable fetch : string -> option (list Element).

Lemma append_parsed_app all_listings els :
  append_parsed max_str_digits all_listings els
  = (all_listings ++ parsed_of max_str_digits els)%list.
Proof.
  revert all_listings. induction els as [|e els IH]; intros acc; simpl.
  - rewrite app_nil_r. reflexivity.
  - destruct (parse_listing max_str_digits e); rewrite IH; [|reflexivity].
    rewrite <- app_assoc. reflexivity.
Qed.

Lemma scrape_pages_app pages base_url all_listings requested :
  scrape_pages max_str_digits fetch pages base_url all_listings requested
  = ((all_listings
      ++ flat_map (fun page => match fetch (page_url base_url page) with
                               | Some els => parsed_of max_str_digits els
                               | None => []
                               end) pages)%list,
     (requested ++ map (page_url base_url) pages)%list).
Proof.
  revert all_listings requested.
  induction pages as [|page pages IH]; intros acc req; simpl.
  - rewrite !app_nil_r. reflexivity.
  - destruct (fetch (page_url base_url page)); rewrite IH, ?append_parsed_app;
      rewrite <- !app_assoc; reflexivity.
Qed.

(** X21.  [scrape_multiple_pages] asks for the pages 1 to [num_pages], each
    once and in order, whether or not a request fails; a page that fails
    only loses its own listings.  The result holds the listings that
    parse, page after page, in the order of each page. *)
Theorem scrape_multiple_pages_spec (base_url : string) (num_pages : nat) :
  scrape_multiple_pages max_str_digits fetch base_url num_pages
  = (flat_map (fun page => match fetch (page_url base_url page) with
                           | Some els => parsed_of max_str_digits els
                           | None => []
                           end) (seq 1 num_pages),
     map (page_url base_url) (seq 1 num_pages)).
Proof. unfold scrape_multiple_pages. rewrite scrape_pages_app. reflexivity. Qed.

End PagesFacts.

End ScraperFacts.

(** * Properties of the geocoder *)

Module GeocoderFacts.
Import Geocoder.

Lemma dict_get_set_same {V : Type} k (v : V) d : dict_get k (dict_set k v d) = Some v.
Proof.
  unfold dict_get. induction d as [|[k' v'] d IH]; simpl.
  - rewrite String.eqb_refl. reflexivity.
  - destruct (String.eqb k' k) eqn:E; simpl.
    + rewrite String.eqb_refl. reflexivity.
    + rewrite E. exact IH.
Qed.

Lemma dict_get_set_other {V : Type} k k' (v : V) d :
  k' <> k -> dict_get k' (dict_set k v d) = dict_get k' d.
Proof.
  intros Hne. unfold dict_get. induction d as [|[k0 v0] d IH]; simpl.
  - destruct (String.eqb_spec k k'); [congruence | reflexivity].
  - destruct (String.eqb_spec k0 k) as [->|Hk]; simpl.
    + destruct (String.eqb_spec k k'); [congruence | reflexivity].
    + destruct (String.eqb k0 k'); [reflexivity | exact IH].
Qed.

Section ServiceFacts.

Variable geolocator : nat -> string -> response.

(** What the retry loop does to the state. *)
Lemma attempts_effects n key st :
  let out := attempts geolocator n key st in
  calls st <= calls (snd out) <= calls st + n
  /\ match fst out with
     | Ok (Some r) =>
         cache (snd out) = dict_set key r (cache st)
         /\ cache_file (snd out) = Some (cache (snd out))
         /\ exists k, calls st <= k < calls st + n /\ geolocator k key = Found r
     | _ => cache (snd out) = cache st /\ cache_file (snd out) = cache_file st
     end.
Proof.
  revert st. induction n as [|n IH]; intros st; simpl.
  - split; [lia | split; reflexivity].
  - destruct (geolocator (calls st) key) as [r| | |e] eqn:E; simpl.
    + split; [lia|]. repeat split. exists (calls st). split; [lia | exact E].
    + split; [lia | split; reflexivity].
    + specialize (IH (mkState (cache st) (cache_file st) (S (calls st)))).
      simpl in IH. destruct IH as [Hc Hr]. split; [lia|].
      destruct (fst (attempts geolocator n key _)) as [[r|]|e]; try exact Hr.
      destruct Hr as [H1 [H2 [k [Hk H4]]]]. repeat split; try assumption.
      exists k. split; [lia | exact H4].
    + split; [lia | split; reflexivity].
Qed.

Lemma geocode_location_state (st : State) (loc city country : string) :
  let key := cache_key_of loc city country in
  let out := geocode_location geolocator st loc city country in
  calls st <= calls (snd out) <= calls st + 3
  /\ (forall r, dict_get key (cache st) = Some r -> out = (Ok (Some r), st))
  /\ (dict_get key (cache st) = None ->
      match fst out with
      | Ok (Some r) =>
          cache (snd out) = dict_set key r (cache st)
          /\ cache_file (snd out) = Some (cache (snd out))
          /\ exists k, calls st <= k < calls st + 3 /\ geolocator k key = Found r
      | _ => cache (snd out) = cache st /\ cache_file (snd out) = cache_file st
      end)
  /\ (forall key', key' <> key ->
        dict_get key' (cache (snd out)) = dict_get key' (cache st)).
Proof.
  intros key out. unfold out, geocode_location. fold key.
  pose proof (attempts_effects max_retries key st) as Ha. cbv zeta in Ha.
  destruct (dict_get key (cache st)) as [r0|] eqn:Eg.
  - simpl. split; [lia|]. split; [intros r [= <-]; reflexivity|].
    split; [intros H; discriminate H | reflexivity].
  - destruct Ha as [Hc Hr]. unfold max_retries in *. split; [exact Hc|].
    split; [intros r H; discriminate H|]. split.
    + intros _. exact Hr.
    + intros key' Hne.
      destruct (fst (attempts geolocator 3 key st)) as [[r|]|e].
      * destruct Hr as [-> _]. apply dict_get_set_other. exact Hne.
      * destruct Hr as [-> _]. reflexivity.
      * destruct Hr as [-> _]. reflexivity.
Qed.

(** X22.  What one [geocode_location] does.  It makes at most three calls
    of the service and none when the address is cached.  When it returns
    a place that was not cached, the place is the answer of one of these
    calls, it is stored under the address, and the cache file holds the
    whole cache.  When it returns nothing or raises, cache and cache file
    are as before.  The entries of other addresses never change. *)
Theorem geocode_location_effects (st : State) (loc city country : string) :
  let key := cache_key_of loc city country in
  let out := geocode_location geolocator st loc city country in
  calls st <= calls (snd out) <= calls st + 3
  /\ (forall r, dict_get key (cache st) = Some r -> out = (Ok (Some r), st))
  /\ (dict_get key (cache st) = None ->
      match fst out with
      | Ok (Some r) =>
          cache (snd out) = dict_set key r (cache st)
          /\ cache_file (snd out) = Some (cache (snd out))
          /\ exists k, calls st <= k < calls st + 3 /\ geolocator k key = Found r
      | _ => cache (snd out) = cache st /\ cache_file (snd out) = cache_file st
      end)
  /\ (forall key', key' <> key ->
        dict_get key' (cache (snd out)) = dict_get key' (cache st)).
Proof. exact (geocode_location_state st loc city country). Qed.

Lemma geocode_location_cached st loc city country r st' :
  geocode_location geolocator st loc city country = (Ok (Some r), st') ->
  dict_get (cache_key_of loc city country) (cache st') = Some r.
Proof.
  unfold geocode_location.
  destruct (dict_get (cache_key_of loc city country) (cache st)) as [r0|] eqn:Eg.
  - intros [= <- <-]. exact Eg.
  - intros H. pose proof (attempts_effects max_retries (cache_key_of loc city country) st) as Ha.
    cbv zeta in Ha. rewrite H in Ha. simpl in Ha. destruct Ha as [_ [Hc _]].
    rewrite Hc. apply dict_get_set_same.
Qed.

End ServiceFacts.

(** X23.  A place that [geocode_location] has returned is returned again
    for the same address from then on, without a call of the service and
    without a change of state, whatever the service would answer. *)
Theorem geocode_location_repeatable (geolocator geolocator' : nat -> string -> response)
    (st st' : State) (loc city country : string) (r : Coordinates) :
  geocode_location geolocator st loc city country = (Ok (Some r), st') ->
  geocode_location geolocator' st' loc city country = (Ok (Some r), st').
Proof.
  intros H. apply geocode_location_cached in H.
  unfold geocode_location. rewrite H. reflexivity.
Qed.

(** ** The frame *)

Lemma unique_from_In seen cells c :
  In c (unique_from seen cells) <-> In c cells /\ ~ In c seen.
Proof.
  revert seen. induction cells as [|a cells IH]; intros seen; simpl.
  - tauto.
  - destruct (existsb (cell_eqb a) seen) eqn:E.
    + apply existsb_exists in E. destruct E as [b [Hb Eb]].
      apply cell_eqb_eq in Eb. subst b. rewrite IH. split.
      * intros [H1 H2]. split; [right; exact H1 | exact H2].
      * intros [[->|H1] H2]; [contradiction | split; assumption].
    + assert (Hn : ~ In a seen).
      { intros Hin. apply not_true_iff_false in E. apply E.
        apply existsb_exists. exists a. split; [exact Hin | apply cell_eqb_eq; reflexivity]. }
      simpl. rewrite IH. simpl. split.
      * intros [->|[H1 H2]]; [split; [left; reflexivity | exact Hn]|].
        split; [right; exact H1 | intros H; apply H2; right; exact H].
      * intros [[->|H1] H2]; [left; reflexivity|].
        destruct (cell_eqb a c) eqn:Eac.
        -- left. apply cell_eqb_eq. exact Eac.
        -- right. split; [exact H1 | intros [H|H]; [|exact (H2 H)]].
           subst c. apply not_true_iff_false in Eac. apply Eac. apply cell_eqb_eq. reflexivity.
Qed.

Lemma unique_from_NoDup seen cells : NoDup (unique_from seen cells).
Proof.
  revert seen. induction cells as [|a cells IH]; intros seen; simpl.
  - constructor.
  - destruct (existsb (cell_eqb a) seen); [apply IH|].
    constructor; [|apply IH]. rewrite unique_from_In. intros [_ H]. apply H. left. reflexivity.
Qed.

Lemma unique_In cells c : In c (unique cells) <-> In c cells.
Proof. unfold unique. rewrite unique_from_In. simpl. tauto. Qed.

Lemma unique_NoDup cells : NoDup (unique cells).
Proof. apply unique_from_NoDup. Qed.

Lemma apply_coords_map lc rs :
  apply_coords lc rs = map (fun row => fold_left (fun r item => write_coords item r) lc row) rs.
Proof.
  unfold apply_coords. revert rs. induction lc as [|item lc IH]; intros rs; simpl.
  - symmetry. apply map_id.
  - rewrite IH. unfold assign_where. rewrite map_map. reflexivity.
Qed.

Lemma write_all_listing lc row :
  listing (fold_left (fun r item => write_coords item r) lc row) = listing row.
Proof.
  revert row. induction lc as [|item lc IH]; intros row; simpl; [reflexivity|].
  rewrite IH. unfold write_coords. destruct (mask (fst item) row); reflexivity.
Qed.

Lemma write_all_absent lc row :
  ~ In (place row) (map fst lc) \/ place row = None ->
  fold_left (fun r item => write_coords item r) lc row = row.
Proof.
  induction lc as [|[k c] lc IH]; intros H; simpl; [reflexivity|].
  assert (Hm : mask k row = false).
  { unfold mask. fold (place row). destruct k as [s|]; [|reflexivity].
    destruct (place row) as [s'|] eqn:Ep; [|reflexivity].
    destruct (String.eqb_spec s' s) as [->|]; [|reflexivity].
    destruct H as [H|H]; [|discriminate H]. exfalso. apply H. left. reflexivity. }
  unfold write_coords at 2. simpl. rewrite Hm. apply IH.
  destruct H as [H|H]; [left; intros Hin; apply H; right; exact Hin | right; exact H].
Qed.

Lemma write_all_present lc row s la lo :
  NoDup (map fst lc) -> In (Some s, (la, lo)) lc -> place row = Some s ->
  fold_left (fun r item => write_coords item r) lc row
  = mkLocated (listing row) (Some la) (Some lo).
Proof.
  revert row. induction lc as [|[k c] lc IH]; intros row Hnd Hin Hp; simpl; [destruct Hin|].
  simpl in Hnd. inversion Hnd as [|? ? Hk Hnd']. subst.
  destruct Hin as [[= -> ->]|Hin].
  - unfold write_coords at 2. simpl. unfold mask. fold (place row). rewrite Hp.
    rewrite String.eqb_refl. apply write_all_absent. left.
    unfold place in *. simpl. rewrite Hp. exact Hk.
  - assert (Hm : mask k row = false).
    { unfold mask. fold (place row). rewrite Hp. destruct k as [s'|]; [|reflexivity].
      destruct (String.eqb_spec s s') as [<-|]; [|reflexivity].
      exfalso. apply Hk. apply (in_map fst) in Hin. exact Hin. }
    unfold write_coords at 2. simpl. rewrite Hm. apply IH; assumption.
Qed.

Lemma keyed_unique (lc : list (option string * (Q * Q))) k c c' :
  NoDup (map fst lc) -> In (k, c) lc -> In (k, c') lc -> c = c'.
Proof.
  induction lc as [|[k0 c0] lc IH]; intros Hnd Hin Hin'; [destruct Hin|].
  simpl in Hnd. inversion Hnd as [|? ? Hk Hnd']. subst.
  destruct Hin as [E|Hin]; destruct Hin' as [E'|Hin'].
  - congruence.
  - injection E as -> _. exfalso. apply Hk. apply (in_map fst) in Hin'. exact Hin'.
  - injection E' as -> _. exfalso. apply Hk. apply (in_map fst) in Hin. exact Hin.
  - apply IH; assumption.
Qed.

Section FrameFacts.

Variable geolocator : nat -> string -> response.

Lemma geocode_location_keeps st loc city country k r :
  dict_get k (cache st) = Some r ->
  dict_get k (cache (snd (geocode_location geolocator st loc city country))) = Some r.
Proof.
  intros H.
  destruct (geocode_location_state geolocator st loc city country) as [_ [H1 [_ H3]]].
  destruct (string_dec k (cache_key_of loc city country)) as [->|Hne].
  - rewrite (H1 r H). exact H.
  - rewrite (H3 k Hne). exact H.
Qed.

(** What the first loop of [geocode_dataframe] collects. *)
Lemma locate_all_spec locs : forall idx city country acc st lc st',
  locate_all geolocator idx locs city country acc st = (Ok lc, st') ->
  exists new,
    lc = (acc ++ new)%list /\ map fst new = locs
    /\ (forall k r, dict_get k (cache st) = Some r -> dict_get k (cache st') = Some r)
    /\ Forall (fun item =>
         (exists r, dict_get (cache_key_of (format_cell (fst item)) city country) (cache st')
                    = Some r
                    /\ snd item = (latitude r, longitude r))
         \/ exists i, idx <= i < idx + List.length locs /\ snd item = default_coords i) new.
Proof.
  induction locs as [|loc locs IH]; intros idx city country acc st lc st' H; simpl in H.
  - injection H as <- <-. exists []. rewrite app_nil_r. repeat split; auto.
  - destruct (geocode_location geolocator st (format_cell loc) city country)
      as [[[r|]|e] st1] eqn:Eg; [| |discriminate H].
    + apply IH in H. destruct H as [new [-> [Hk [Hc Hf]]]].
      exists ((loc, (latitude r, longitude r)) :: new). rewrite <- app_assoc. simpl.
      split; [reflexivity|]. split; [rewrite Hk; reflexivity|]. split.
      * intros k r0 H0. apply Hc.
        pose proof (geocode_location_keeps st (format_cell loc) city country k r0 H0) as Hkeep.
        rewrite Eg in Hkeep. exact Hkeep.
      * constructor.
        -- left. exists r. split; [|reflexivity]. apply Hc.
           exact (geocode_location_cached geolocator st _ _ _ r st1 Eg).
        -- eapply Forall_impl; [|exact Hf]. intros item [Hi|[i [Hi1 Hi2]]]; [left; exact Hi|].
           right. exists i. split; [lia | exact Hi2].
    + apply IH in H. destruct H as [new [-> [Hk [Hc Hf]]]].
      exists ((loc, default_coords idx) :: new). rewrite <- app_assoc. simpl.
      split; [reflexivity|]. split; [rewrite Hk; reflexivity|]. split.
      * intros k r0 H0. apply Hc.
        pose proof (geocode_location_keeps st (format_cell loc) city country k r0 H0) as Hkeep.
        rewrite Eg in Hkeep. exact Hkeep.
      * constructor.
        -- right. exists idx. split; [lia | reflexivity].
        -- eapply Forall_impl; [|exact Hf]. intros item [Hi|[i [Hi1 Hi2]]]; [left; exact Hi|].
           right. exists i. split; [lia | exact Hi2].
Qed.

(** The calls that the first loop makes. *)
Lemma locate_all_calls locs : forall idx city country acc st,
  let out := locate_all geolocator idx locs city country acc st in
  calls st <= calls (snd out) <= calls st + 3 * List.length locs
  /\ ((forall c, In c locs ->
         dict_get (cache_key_of (format_cell c) city country) (cache st) <> None) ->
      snd out = st /\ exists lc, fst out = Ok lc).
Proof.
  induction locs as [|loc locs IH]; intros idx city country acc st; simpl.
  - split; [lia|]. intros _. split; [reflexivity | eexists; reflexivity].
  - destruct (geocode_location_state geolocator st (format_cell loc) city country)
      as [Hc [H1 _]].
    destruct (geocode_location geolocator st (format_cell loc) city country)
      as [[[r|]|e] st1] eqn:Eg; simpl in Hc.
    + destruct (IH (S idx) city country
                   (acc ++ [(loc, (latitude r, longitude r))])%list st1) as [Hc2 Hall].
      split; [lia|]. intros Hcached.
      destruct (dict_get (cache_key_of (format_cell loc) city country) (cache st))
        as [r0|] eqn:E0; [|exfalso; apply (Hcached loc); [left; reflexivity | exact E0]].
      specialize (H1 r0 eq_refl). injection H1 as _ Hst. subst st1.
      apply Hall. intros c Hin. apply Hcached. right. exact Hin.
    + destruct (IH (S idx) city country (acc ++ [(loc, default_coords idx)])%list st1)
        as [Hc2 Hall].
      split; [lia|]. intros Hcached.
      destruct (dict_get (cache_key_of (format_cell loc) city country) (cache st))
        as [r0|] eqn:E0; [|exfalso; apply (Hcached loc); [left; reflexivity | exact E0]].
      specialize (H1 r0 eq_refl). discriminate H1.
    + simpl. split; [lia|]. intros Hcached.
      destruct (dict_get (cache_key_of (format_cell loc) city country) (cache st))
        as [r0|] eqn:E0; [|exfalso; apply (Hcached loc); [left; reflexivity | exact E0]].
      specialize (H1 r0 eq_refl). discriminate H1.
Qed.

(** X24.  A frame that [geocode_dataframe] returns holds the records of
    the frame it was given, in their order, with the two coordinate
    columns.  A record without a location has no coordinates.  A record
    with a location has both, and they are either latitude and longitude
    of the place cached for its address when the method returns, or the
    fallback 28.6139 + i/100, 77.2090 + i/100 for a position [i] among the
    distinct locations.  Records of the same location get the same
    coordinates. *)
Theorem geocode_dataframe_spec (st st' : State) (df : DataFrame) (city country : string)
    (out : GeoFrame) :
  geocode_dataframe geolocator st df city country = (Ok out, st') ->
  geo_columns out = with_coordinate_columns df
  /\ map listing (geo_rows out) = rows df
  /\ Forall (fun row =>
       match place row with
       | None => unlocated row
       | Some s =>
           exists la lo, lat row = Some la /\ lon row = Some lo
           /\ ((exists r, dict_get (cache_key_of s city country) (cache st') = Some r
                          /\ la = latitude r /\ lo = longitude r)
               \/ exists i, 1 <= i <= List.length (unique (map location (rows df)))
                            /\ (la, lo) = default_coords i)
       end) (geo_rows out)
  /\ (forall row row', In row (geo_rows out) -> In row' (geo_rows out) ->
        place row = place row' -> lat row = lat row' /\ lon row = lon row').
Proof.
  unfold geocode_dataframe. destruct (has_column "location" df); simpl; [|discriminate].
  destruct (locate_all geolocator 1 (unique (map location (rows df))) city country [] st)
    as [[lc|e] st1] eqn:El; [|discriminate].
  intros [= <- <-]. simpl.
  apply locate_all_spec in El. destruct El as [new [Hlc [Hk [_ Hf]]]]. simpl in Hlc. subst new.
  assert (Hnd : NoDup (map fst lc)) by (rewrite Hk; apply unique_NoDup).
  rewrite apply_coords_map. unfold blank_rows. rewrite !map_map.
  assert (Hrow : forall r, In r (rows df) ->
            let row := fold_left (fun r0 item => write_coords item r0) lc (mkLocated r None None) in
            listing row = r
            /\ match location r with
               | None => row = mkLocated r None None
               | Some s => exists la lo, In (Some s, (la, lo)) lc
                                         /\ row = mkLocated r (Some la) (Some lo)
               end).
  { intros r Hr row. split; [apply write_all_listing|].
    destruct (location r) as [s|] eqn:Es.
    - assert (Hin : In (Some s) (map fst lc)).
      { rewrite Hk. apply unique_In. rewrite <- Es. apply in_map. exact Hr. }
      apply in_map_iff in Hin. destruct Hin as [[k [la lo]] [Ek Hin]]. simpl in Ek. subst k.
      exists la, lo. split; [exact Hin|].
      apply (write_all_present lc (mkLocated r None None) s la lo Hnd Hin). exact Es.
    - apply write_all_absent. right. exact Es. }
  split; [reflexivity|]. split.
  { rewrite <- (map_id (rows df)) at 2. apply map_ext_in. intros r Hr.
    apply (Hrow r Hr). }
  split.
  - apply Forall_forall. intros row Hin. apply in_map_iff in Hin.
    destruct Hin as [r [<- Hr]]. destruct (Hrow r Hr) as [Hl Hc]. cbv zeta in Hl, Hc.
    unfold place. rewrite Hl. destruct (location r) as [s|] eqn:Es.
    + destruct Hc as [la [lo [Hin ->]]]. exists la, lo. simpl.
      split; [reflexivity|]. split; [reflexivity|].
      rewrite Forall_forall in Hf. destruct (Hf _ Hin) as [[r0 [H1 H2]]|[i [H1 H2]]].
      * left. exists r0. simpl in H1, H2. injection H2 as -> ->. auto.
      * right. exists i. simpl in H2. split; [lia | exact H2].
    + rewrite Hc. split; reflexivity.
  - intros row row' Hin Hin' Hp. apply in_map_iff in Hin, Hin'.
    destruct Hin as [r [<- Hr]]. destruct Hin' as [r' [<- Hr']].
    destruct (Hrow r Hr) as [Hl Hc]. destruct (Hrow r' Hr') as [Hl' Hc'].
    cbv zeta in Hl, Hc, Hl', Hc'. unfold place in Hp. rewrite Hl, Hl' in Hp.
    rewrite <- Hp in Hc'. destruct (location r) as [s|].
    + destruct Hc as [la [lo [Hin ->]]]. destruct Hc' as [la' [lo' [Hin' ->]]]. simpl.
      pose proof (keyed_unique lc _ _ _ Hnd Hin Hin') as E.
      injection E as -> ->. split; reflexivity.
    + rewrite Hc, Hc'. split; reflexivity.
Qed.

(** X25.  [geocode_dataframe] calls the service at most three times for
    each distinct location of the frame, whatever the outcome.  When the
    address of every location is cached it makes no call, leaves cache and
    cache file alone, and returns a frame. *)
Theorem geocode_dataframe_calls (st : State) (df : DataFrame) (city country : string) :
  let out := geocode_dataframe geolocator st df city country in
  calls st <= calls (snd out)
           <= calls st + 3 * List.length (unique (map location (rows df)))
  /\ (has_column "location" df = true ->
      (forall r, In r (rows df) ->
         dict_get (cache_key_of (format_cell (location r)) city country) (cache st) <> None) ->
      snd out = st /\ exists frame, fst out = Ok frame).
Proof.
  unfold geocode_dataframe. destruct (has_column "location" df); simpl.
  - pose proof (locate_all_calls (unique (map location (rows df))) 1 city country [] st) as H.
    cbv zeta in H. destruct H as [Hc Hall].
    destruct (locate_all geolocator 1 (unique (map location (rows df))) city country [] st)
      as [[lc|e] st1]; simpl in *.
    + split; [exact Hc|]. intros _ Hcached. destruct Hall as [-> _].
      * intros c Hin. apply (proj1 (unique_In _ _)) in Hin. apply in_map_iff in Hin.
        destruct Hin as [r [<- Hr]]. apply Hcached. exact Hr.
      * split; [reflexivity | eexists; reflexivity].
    + split; [exact Hc|]. intros _ Hcached. destruct Hall as [_ [lc Hlc]].
      * intros c Hin. apply (proj1 (unique_In _ _)) in Hin. apply in_map_iff in Hin.
        destruct Hin as [r [<- Hr]]. apply Hcached. exact Hr.
      * discriminate Hlc.
  - split; [lia|]. intros H. discriminate H.
Qed.

End FrameFacts.

(** ** The sample coordinates *)

Lemma delhi_coords_in_box :
  Forall (fun item => in_delhi_box (fst (snd item)) (snd (snd item))) delhi_coords.
Proof.
  unfold delhi_coords, in_delhi_box.
  repeat (constructor; [simpl; repeat split; (vm_compute; discriminate)|]). constructor.
Qed.

Lemma delhi_coords_NoDup : NoDup (map fst delhi_keyed).
Proof.
  unfold delhi_keyed, delhi_coords. cbn [map fst snd].
  repeat (constructor; [cbn [In]; intuition discriminate|]). constructor.
Qed.

Lemma dict_get_In {V : Type} k (d : dict V) :
  match dict_get k d with
  | Some v => In (k, v) d
  | None => ~ In k (map fst d)
  end.
Proof.
  unfold dict_get. induction d as [|[k' v'] d IH]; simpl; [tauto|].
  destruct (String.eqb_spec k' k) as [->|Hne]; simpl.
  - left. reflexivity.
  - destruct (find (fun kv => String.eqb (fst kv) k) d) as [[k0 v0]|]; simpl in *.
    + right. exact IH.
    + intros [H|H]; [exact (Hne H) | exact (IH H)].
Qed.

Lemma Ok_inj {A : Type} (a b : A) : @Ok A a = Ok b -> a = b.
Proof. intros H. injection H as H. exact H. Qed.

Lemma fill_missing_rows rs :
  (if existsb lat_isna rs then assign_where lat_isna 28.6139%Q 77.2090%Q rs else rs)
  = map (fun row => if lat_isna row
                    then mkLocated (listing row) (Some 28.6139%Q) (Some 77.2090%Q)
                    else row) rs.
Proof.
  destruct (existsb lat_isna rs) eqn:E; [reflexivity|].
  rewrite <- (map_id rs) at 1. apply map_ext_in. intros row Hin.
  destruct (lat_isna row) eqn:El; [|reflexivity].
  apply not_true_iff_false in E. exfalso. apply E. apply existsb_exists.
  exists row. split; assumption.
Qed.

Lemma listing_fill_missing (row : Located) (la lo : Q) :
  listing (if lat_isna row then mkLocated (listing row) (Some la) (Some lo) else row)
  = listing row.
Proof. destruct (lat_isna row); reflexivity. Qed.

Lemma delhi_default_in_box : in_delhi_box 28.6139 77.2090.
Proof. unfold in_delhi_box. repeat split; (vm_compute; discriminate). Qed.

Lemma sample_fold_apply rs :
  fold_left (fun acc (item : string * (Q * Q)) =>
               assign_where (mask (Some (fst item))) (fst (snd item)) (snd (snd item)) acc)
            delhi_coords rs
  = apply_coords delhi_keyed rs.
Proof.
  unfold apply_coords, delhi_keyed. generalize delhi_coords. intros d. revert rs.
  induction d as [|item d IH]; intros rs; [reflexivity|]. cbn [map fold_left fst snd].
  apply IH.
Qed.

(** What the table gives one record. *)
Lemma sample_row r :
  fold_left (fun r0 item => write_coords item r0) delhi_keyed (mkLocated r None None)
  = match location r with
    | Some s => match dict_get s delhi_coords with
                | Some c => mkLocated r (Some (fst c)) (Some (snd c))
                | None => mkLocated r None None
                end
    | None => mkLocated r None None
    end.
Proof.
  destruct (location r) as [s|] eqn:Es.
  - pose proof (dict_get_In s delhi_coords) as Hd.
    destruct (dict_get s delhi_coords) as [[la lo]|].
    + apply (write_all_present delhi_keyed (mkLocated r None None) s la lo delhi_coords_NoDup);
        [|exact Es].
      unfold delhi_keyed. apply in_map_iff. exists (s, (la, lo)).
      split; [reflexivity | exact Hd].
    + apply write_all_absent. left.
      change (place (mkLocated r None None)) with (location r). rewrite Es.
      unfold delhi_keyed. rewrite map_map. cbn [fst]. intros Hin. apply in_map_iff in Hin.
      destruct Hin as [[k c] [Ek Hin]]. cbn [fst] in Ek. injection Ek as ->.
      apply Hd. apply (in_map fst) in Hin. exact Hin.
  - apply write_all_absent. right. exact Es.
Qed.

Lemma dict_get_delhi_in_box s c :
  dict_get s delhi_coords = Some c -> in_delhi_box (fst c) (snd c).
Proof.
  intros H. pose proof (dict_get_In s delhi_coords) as Hd. rewrite H in Hd.
  pose proof delhi_coords_in_box as Hb. rewrite Forall_forall in Hb.
  exact (Hb _ Hd).
Qed.

(** X26.  A frame that [add_sample_coordinates] returns holds the records
    of the frame it was given, in their order, with the two coordinate
    columns, and every record has both coordinates: those of the table
    when its location is in the table, and 28.6139, 77.2090 otherwise,
    also when the location is missing.  All of them lie between latitudes
    28.52 and 28.75 and longitudes 77.04 and 77.40. *)
Theorem add_sample_coordinates_spec (df : DataFrame) (out : GeoFrame) :
  add_sample_coordinates df = Ok out ->
  geo_columns out = with_coordinate_columns df
  /\ map listing (geo_rows out) = rows df
  /\ Forall (fun row =>
       exists la lo, lat row = Some la /\ lon row = Some lo
       /\ in_delhi_box la lo
       /\ (la, lo) = match place row with
                     | Some s => match dict_get s delhi_coords with
                                 | Some c => c
                                 | None => (28.6139, 77.2090)%Q
                                 end
                     | None => (28.6139, 77.2090)%Q
                     end) (geo_rows out).
Proof.
  unfold add_sample_coordinates. destruct (has_column "location" df); cbn [negb]; cbv iota;
    [|discriminate].
  cbv zeta. rewrite fill_missing_rows, sample_fold_apply, apply_coords_map.
  intros H. apply Ok_inj in H. subst out. cbn [geo_columns geo_rows].
  unfold blank_rows. rewrite !map_map.
  split; [reflexivity|]. split.
  { rewrite <- (map_id (rows df)) at 2. apply map_ext. intros r.
    rewrite listing_fill_missing, write_all_listing. reflexivity. }
  apply Forall_forall. intros row Hin. apply in_map_iff in Hin.
  destruct Hin as [r [<- _]]. rewrite (sample_row r).
  destruct (location r) as [s|] eqn:Es.
  - destruct (dict_get s delhi_coords) as [[la lo]|] eqn:Ed.
    + unfold lat_isna, place. cbn [lat lon listing is_some negb fst snd]. rewrite Es, Ed.
      exists la, lo. split; [reflexivity|]. split; [reflexivity|].
      split; [exact (dict_get_delhi_in_box s (la, lo) Ed) | reflexivity].
    + unfold lat_isna, place. cbn [lat lon listing is_some negb]. rewrite Es, Ed.
      exists 28.6139%Q, 77.2090%Q. split; [reflexivity|]. split; [reflexivity|].
      split; [exact delhi_default_in_box | reflexivity].
  - unfold lat_isna, place. cbn [lat lon listing is_some negb]. rewrite Es.
    exists 28.6139%Q, 77.2090%Q. split; [reflexivity|]. split; [reflexivity|].
    split; [exact delhi_default_in_box | reflexivity].
Qed.

End GeocoderFacts.

(** * The further properties at concrete inputs *)

(** Of the two equal records of [twice_listed] the first is kept. *)
Lemma remove_duplicates_keeps_first_witness :
  exists out,
    remove_duplicates twice_listed = Ok out
    /\ labels out = [0]
    /\ forall r, In r (rows out) <-> first_with_key r (rows twice_listed) = Some r.
Proof.
  destruct (remove_duplicates twice_listed) as [out|e] eqn:E;
    [|vm_compute in E; discriminate E].
  exists out. split; [reflexivity|]. split.
  - vm_compute in E. injection E as <-. reflexivity.
  - apply (remove_duplicates_keeps_first twice_listed out E). discriminate.
Defined.

Lemma remove_duplicates_idempotent_witness :
  exists out,
    remove_duplicates twice_listed = Ok out /\ remove_duplicates out = Ok out.
Proof.
  destruct (remove_duplicates twice_listed) as [out|e] eqn:E;
    [|vm_compute in E; discriminate E].
  exists out. split; [reflexivity|].
  exact (remove_duplicates_idempotent twice_listed out E).
Defined.

(** The two records of [sample_with_outlier] without a [bhk] get one. *)
Lemma handle_missing_values_bhk_witness :
  exists out,
    handle_missing_values sample_with_outlier = Ok out
    /\ Forall (fun r' => bhk r' <> None) (rows out).
Proof.
  destruct (handle_missing_values sample_with_outlier) as [out|e] eqn:E;
    [|vm_compute in E; discriminate E].
  exists out. split; [reflexivity|].
  exact (proj2 (handle_missing_values_bhk sample_with_outlier out E eq_refl)).
Defined.

Lemma handle_missing_values_area_sqft_witness :
  exists out,
    handle_missing_values sample_with_outlier = Ok out
    /\ Forall2 (fun r r' =>
                  match area_sqft r, area_sqft r' with
                  | Some a, cell => cell = Some a
                  | None, Some v =>
                      median (map area_sqft (dropna (rows sample_with_outlier))) = Some v
                      /\ within_observed
                           (map area_sqft (dropna (rows sample_with_outlier))) v
                  | None, None =>
                      Forall (fun x => area_sqft x = None)
                             (dropna (rows sample_with_outlier))
                  end) (dropna (rows sample_with_outlier)) (rows out).
Proof.
  destruct (handle_missing_values sample_with_outlier) as [out|e] eqn:E;
    [|vm_compute in E; discriminate E].
  exists out. split; [reflexivity|].
  exact (handle_missing_values_area_sqft sample_with_outlier out E eq_refl).
Defined.

Lemma handle_missing_values_idempotent_witness :
  exists out,
    handle_missing_values sample_with_outlier = Ok out
    /\ handle_missing_values out = Ok out.
Proof.
  destruct (handle_missing_values sample_with_outlier) as [out|e] eqn:E;
    [|vm_compute in E; discriminate E].
  exists out. split; [reflexivity|].
  exact (handle_missing_values_idempotent sample_with_outlier out E).
Defined.

Lemma clean_price_keeps_interquartile_witness :
  exists out q1 q3,
    clean_price outlier_scenario = Ok out
    /\ quantile (map price (rows outlier_scenario)) (1 # 4) = Some q1
    /\ quantile (map price (rows outlier_scenario)) (3 # 4) = Some q3
    /\ (q1 <= q3)%Q
    /\ forall r p, In r (rows outlier_scenario) -> price r = Some p ->
         (q1 <= p <= q3)%Q -> In r (rows out).
Proof.
  destruct (clean_price outlier_scenario) as [out|e] eqn:E;
    [|vm_compute in E; discriminate E].
  destruct (clean_price_keeps_interquartile outlier_scenario out E eq_refl)
    as [q1 [q3 H]].
  - eexists. split; [left; reflexivity | discriminate].
  - exists out, q1, q3. split; [reflexivity | exact H].
Defined.

Lemma clean_price_keeps_some_witness :
  exists out,
    clean_price outlier_scenario = Ok out
    /\ rows out <> [] /\ Forall (fun r => price r <> None) (rows out).
Proof.
  destruct (clean_price outlier_scenario) as [out|e] eqn:E;
    [|vm_compute in E; discriminate E].
  exists out. split; [reflexivity|].
  apply (clean_price_keeps_some outlier_scenario out E eq_refl).
  eexists. split; [left; reflexivity | discriminate].
Defined.

Lemma price_per_sqft_accuracy_witness :
  exists out,
    calculate_derived_metrics sample_data = Ok out
    /\ Forall (fun r =>
                 forall p a, price r = Some p -> area_sqft r = Some a -> ~ (a == 0)%Q ->
                 exists v,
                   price_per_sqft r = Some (Fin v)
                   /\ (p / a - (1 # 200) <= v <= p / a + (1 # 200))%Q
                   /\ (exists k, (v == k # 100)%Q)
                   /\ ((0 <= p)%Q -> (0 < a)%Q -> (0 <= v)%Q))
              (rows out).
Proof.
  destruct (calculate_derived_metrics sample_data) as [out|e] eqn:E;
    [|vm_compute in E; discriminate E].
  exists out. split; [reflexivity|].
  exact (price_per_sqft_accuracy sample_data out E eq_refl eq_refl).
Defined.

(** A price of 800 raises the low-price warning and no other. *)
Lemma validate_data_warnings_witness :
  exists issues,
    validate_data low_price_scenario = Ok (low_price_scenario, issues)
    /\ (In "Suspiciously low prices found" issues
        <-> some_cell price (fun p => (p < 1000)%Q) low_price_scenario)
    /\ subseq issues validation_messages.
Proof.
  destruct (validate_data low_price_scenario) as [[out issues]|e] eqn:E;
    [|vm_compute in E; discriminate E].
  destruct (validate_data_warnings low_price_scenario out issues E)
    as [-> [_ [_ [_ [Hlow [_ [Hs _]]]]]]].
  exists issues. split; [reflexivity|]. split; [exact Hlow | exact Hs].
Defined.

Lemma validate_data_passes_witness :
  validate_data sample_data = Ok (sample_data, [])
  <-> Forall (fun r =>
                (forall p, price r = Some p -> (1000 <= p <= 10000000)%Q)
                /\ (has_column "area_sqft" sample_data = true ->
                    forall a, area_sqft r = Some a -> (0 <= a)%Q))
             (rows sample_data).
Proof. exact (validate_data_passes sample_data eq_refl). Defined.

Lemma process_all_records_clean_witness :
  exists out issues,
    process_all first_option near_duplicates = Ok (out, issues)
    /\ Forall (fun r =>
                 price r <> None
                 /\ (exists t, title r = Some t /\ normal_text t)
                 /\ (exists l, location r = Some l /\ normal_location l))
              (rows out).
Proof.
  destruct (process_all first_option near_duplicates) as [[out issues]|e] eqn:E;
    [|vm_compute in E; discriminate E].
  exists out, issues. split; [reflexivity|].
  exact (process_all_records_clean first_option near_duplicates out issues eq_refl E).
Defined.

Lemma process_all_price_per_sqft_witness :
  exists out issues,
    process_all first_option sample_data = Ok (out, issues)
    /\ has_column "price_per_sqft" out = true
    /\ Forall (fun r => price_per_sqft r = per_sqft r) (rows out).
Proof.
  destruct (process_all first_option sample_data) as [[out issues]|e] eqn:E;
    [|vm_compute in E; discriminate E].
  exists out, issues. split; [reflexivity|].
  exact (process_all_price_per_sqft first_option sample_data out issues E eq_refl).
Defined.

Lemma process_all_prices_within_bounds_witness :
  exists out issues df1 df2,
    process_all first_option sample_with_outlier = Ok (out, issues)
    /\ remove_duplicates sample_with_outlier = Ok df1
    /\ handle_missing_values df1 = Ok df2
    /\ Forall (fun r =>
                 in_bounds (lower_bound (map price (rows df2)))
                           (upper_bound (map price (rows df2))) (price r) = true)
              (rows out).
Proof.
  destruct (process_all first_option sample_with_outlier) as [[out issues]|e] eqn:E;
    [|vm_compute in E; discriminate E].
  destruct (process_all_prices_within_bounds first_option sample_with_outlier out issues E)
    as [df1 [df2 H]].
  exists out, issues, df1, df2. split; [reflexivity | exact H].
Defined.

(** The two records of [near_duplicates] survive a first run with one key
    and are merged by a second. *)
Lemma process_all_twice_distinct_witness :
  exists out issues out' issues',
    process_all first_option near_duplicates = Ok (out, issues)
    /\ process_all first_option out = Ok (out', issues')
    /\ labels out = [0; 1] /\ labels out' = [0]
    /\ NoDup (map key_of (rows out')).
Proof.
  destruct (process_all first_option near_duplicates) as [[out issues]|e] eqn:E;
    [|vm_compute in E; discriminate E].
  destruct (process_all first_option out) as [[out' issues']|e] eqn:E';
    [|vm_compute in E; injection E as <- <-; vm_compute in E'; discriminate E'].
  exists out, issues, out', issues'. split; [reflexivity|]. split; [exact E'|].
  split; [vm_compute in E; injection E as <- _; reflexivity|].
  split; [vm_compute in E; injection E as <- _; vm_compute in E';
          injection E' as <- _; reflexivity|].
  exact (process_all_twice_distinct first_option first_option near_duplicates
           out out' issues issues' eq_refl E E').
Defined.

Lemma clean_text_fields_only_spacing_and_case_witness :
  exists out,
    clean_text_fields near_duplicates = Ok out
    /\ columns out = columns near_duplicates
    /\ Forall2 same_but_spacing_and_case (rows near_duplicates) (rows out)
    /\ ascii_frame out = true.
Proof.
  destruct (clean_text_fields near_duplicates) as [out|e] eqn:E;
    [|vm_compute in E; discriminate E].
  exists out. split; [reflexivity|].
  exact (clean_text_fields_only_spacing_and_case near_duplicates out eq_refl E).
Defined.

(** 4300 is the limit of [int] that the interpreter sets by default. *)
Lemma extract_price_first_number_witness :
  Scraper.extract_price 4300 (Some "Rs. 35,000/month") = Ok (Some 35000%Z).
Proof.
  apply (ScraperFacts.extract_price_first_number 4300 "Rs. 35,000/month"
           "Rs. " "35000" "/month");
    try reflexivity; [discriminate | right; simpl; lia].
Defined.

Lemma extract_bhk_spec_witness :
  Scraper.extract_bhk 4300 (Some "2 bhk, 1200 sqft") = Ok (Some 2%Z).
Proof.
  apply (ScraperFacts.extract_bhk_spec 4300 "2 bhk, 1200 sqft"
           "" "2" " " ", 1200 SQFT");
    try reflexivity; [discriminate | right; simpl; lia].
Defined.

(** A run of digits and commas in front of the unit, and a lone comma. *)
Lemma extract_area_spec_witness :
  Scraper.extract_area 4300 (Some "Area: 1,200 sq.ft") = Ok (Some 1200%Z)
  /\ raises (Scraper.extract_area 4300 (Some ", sqft")).
Proof.
  split.
  - rewrite (proj1 (ScraperFacts.extract_area_spec 4300 "Area: 1,200 sq.ft"
                      "area: " "1,200" " " "sq.ft"
                      eq_refl eq_refl ltac:(discriminate) eq_refl eq_refl eq_refl)).
    reflexivity.
  - exact (proj2 (ScraperFacts.extract_area_spec 4300 ", sqft" "" "," " " "sqft"
                    eq_refl eq_refl ltac:(discriminate) eq_refl eq_refl eq_refl)
                 eq_refl).
Defined.

(** Dwarka is found once and then answered from the cache, also when the
    service is down. *)
Lemma geocode_location_repeatable_witness :
  exists r st',
    Geocoder.geocode_location sample_service no_cache "Dwarka" "Delhi" "India"
    = (Ok (Some r), st')
    /\ Geocoder.calls st' = 1
    /\ Geocoder.geocode_location no_service st' "Dwarka" "Delhi" "India"
       = (Ok (Some r), st').
Proof.
  destruct (Geocoder.geocode_location sample_service no_cache "Dwarka" "Delhi" "India")
    as [[[r|]|e] st'] eqn:E; try (vm_compute in E; discriminate E).
  exists r, st'. split; [reflexivity|]. split.
  - vm_compute in E. injection E as _ <-. reflexivity.
  - exact (GeocoderFacts.geocode_location_repeatable sample_service no_service
             no_cache st' "Dwarka" "Delhi" "India" r E).
Defined.

Lemma geocode_dataframe_spec_witness :
  exists out st',
    Geocoder.geocode_dataframe sample_service no_cache sample_data "Delhi" "India"
    = (Ok out, st')
    /\ map Geocoder.listing (Geocoder.geo_rows out) = rows sample_data
    /\ forall row row', In row (Geocoder.geo_rows out) -> In row' (Geocoder.geo_rows out) ->
         place row = place row' ->
         Geocoder.lat row = Geocoder.lat row' /\ Geocoder.lon row = Geocoder.lon row'.
Proof.
  destruct (Geocoder.geocode_dataframe sample_service no_cache sample_data "Delhi" "India")
    as [[out|e] st'] eqn:E; [|vm_compute in E; discriminate E].
  destruct (GeocoderFacts.geocode_dataframe_spec sample_service no_cache st' sample_data
              "Delhi" "India" out E) as [_ [Hl [_ Hsame]]].
  exists out, st'. split; [reflexivity|]. split; [exact Hl | exact Hsame].
Defined.

Lemma add_sample_coordinates_spec_witness :
  exists out,
    Geocoder.add_sample_coordinates partly_furnished = Ok out
    /\ map Geocoder.listing (Geocoder.geo_rows out) = rows partly_furnished
    /\ Forall (fun row =>
                 exists la lo, Geocoder.lat row = Some la /\ Geocoder.lon row = Some lo
                               /\ in_delhi_box la lo) (Geocoder.geo_rows out).
Proof.
  destruct (Geocoder.add_sample_coordinates partly_furnished) as [out|e] eqn:E;
    [|vm_compute in E; discriminate E].
  destruct (GeocoderFacts.add_sample_coordinates_spec partly_furnished out E)
    as [_ [Hl Hall]].
  exists out. split; [reflexivity|]. split; [exact Hl|].
  eapply Forall_impl; [|exact Hall].
  intros row [la [lo [H1 [H2 [H3 _]]]]]. exists la, lo. auto.
Defined.
